(** * Media Asset Nexus: the trim timeline, the time codec and the
      trim / thumbnail / cache pipelines of [src/main.py]

    A shallow embedding of the parts of [main.py] that carry the program's
    logic: [ProTrimSlider] (pixel/value mapping, the drag handlers and the
    pulse), [MainWindow.format_time] / [parse_time], the slots of the player
    pane and [keyPressEvent], [MainWindow.trim_media], the cache pane
    ([add_to_cache_list], [load_cache], [delete_cache_item],
    [rename_cache_item]), [MainWindow.load_media], [ThumbnailGenerator.run],
    the configuration file with the library list, and the library tree with
    its filter ([populate_libraries], [populate_directory],
    [RecursiveFilterProxyModel.filterAcceptsRow]).

    Conventions.
    - A Python [int] is a [Z]; a Python [float] is the rational value of an
      IEEE 754 binary64 number, and every float operation is the exact
      operation followed by round-to-nearest-even ([Py.fl]).
    - A Python [str] is a [string]; the development covers ASCII text.
    - A Qt signal connected in [setup_ui] is the direct call of its slot;
      its [int] argument is taken to fit the C [int] Qt carries it in.
    - What the program does to the outside (dialogs, child processes, worker
      threads) is recorded in a log carried by the state; what the outside
      answers (the exit status of a child process, the files on disk) is an
      input. *)

From Stdlib Require Import ZArith QArith Qround Qabs Qpower Lia Lqa.
From Stdlib Require Import String Ascii List DecimalString.
From Stdlib Require Import Floats.SpecFloat.
From stdpp Require Import base gmap strings list.

Local Open Scope Z_scope.

(* ===================================================================== *)
(** ** Python numbers *)
(* ===================================================================== *)

Module Py.

(** [ilog2 q] is the binary exponent of a non-zero rational:
    [2 ^ ilog2 q <= |q| < 2 ^ (ilog2 q + 1)]. *)
Definition ilog2 (q : Q) : Z :=
  let n := Z.abs (Qnum q) in
  let d := Zpos (Qden q) in
  let e := Z.log2 n - Z.log2 d in
  if (if 0 <=? e then d * 2 ^ e <=? n else d <=? n * 2 ^ (- e))
  then e else e - 1.

(** Nearest integer, ties to the even one. *)
Definition round_half_even (x : Q) : Z :=
  let f := Qfloor x in
  match Qcompare (x - inject_Z f) (1 # 2) with
  | Lt => f
  | Gt => f + 1
  | Eq => if Z.even f then f else f + 1
  end.

(** binary64: 53 significant bits, least normal exponent -1022 (below it the
    spacing stays [2 ^ -1074]: subnormal numbers). *)
Definition prec : Z := 53.
Definition emin : Z := -1022.

(** [fl q] rounds the exact result [q] of an operation to the nearest
    binary64 number.  The exponent range is open above: a magnitude of
    [2 ^ 1024], where Python raises [OverflowError] or yields [inf], is out of
    reach of 64-bit durations and screen coordinates. *)
Definition fl (q : Q) : Q :=
  if Qeq_bool q 0 then 0%Q
  else
    let e := Z.max (ilog2 q) emin - (prec - 1) in
    (inject_Z (round_half_even (q / 2 ^ e)) * 2 ^ e)%Q.

(** A Python number: [int] or [float]. *)
Inductive num : Type :=
| Int (z : Z)
| Float (q : Q).

(** [float(x)] *)
Definition to_float (x : num) : Q :=
  match x with
  | Int z => fl (inject_Z z)
  | Float q => q
  end.

(** The exact value, as comparisons between [int] and [float] see it. *)
Definition value (x : num) : Q :=
  match x with
  | Int z => inject_Z z
  | Float q => q
  end.

Definition add (x y : num) : num :=
  match x, y with
  | Int a, Int b => Int (a + b)
  | _, _ => Float (fl (to_float x + to_float y))
  end.

Definition sub (x y : num) : num :=
  match x, y with
  | Int a, Int b => Int (a - b)
  | _, _ => Float (fl (to_float x - to_float y))
  end.

Definition mul (x y : num) : num :=
  match x, y with
  | Int a, Int b => Int (a * b)
  | _, _ => Float (fl (to_float x * to_float y))
  end.

(** [x / y]: true division; [int / int] is the correctly rounded quotient of
    the two integers.  Every divisor in [main.py] is tested against zero
    before the division. *)
Definition truediv (x y : num) : num :=
  match x, y with
  | Int a, Int b => Float (fl (inject_Z a / inject_Z b))
  | _, _ => Float (fl (to_float x / to_float y))
  end.

(** [abs(x)] *)
Definition abs (x : num) : num :=
  match x with
  | Int z => Int (Z.abs z)
  | Float q => Float (Qabs q)
  end.

(** [x < y] *)
Definition lt (x y : num) : bool :=
  match Qcompare (value x) (value y) with
  | Lt => true
  | _ => false
  end.

(** [x > y] *)
Definition gt (x y : num) : bool := lt y x.

(** [int(x)]: truncation toward zero. *)
Definition trunc (q : Q) : Z := Z.quot (Qnum q) (Zpos (Qden q)).

Definition int (x : num) : Z :=
  match x with
  | Int z => z
  | Float q => trunc q
  end.

(** [str(n)] and the format specification [0{w}d] of an f-string. *)
Definition str_int (n : Z) : string := NilZero.string_of_int (Z.to_int n).

Fixpoint zeros (n : nat) : string :=
  match n with
  | O => EmptyString
  | S k => String "0" (zeros k)
  end.

Definition format_0d (w : nat) (n : Z) : string :=
  let digits := str_int (Z.abs n) in
  let sign := if n <? 0 then "-"%string else EmptyString in
  let fill := (w - String.length sign - String.length digits)%nat in
  (sign ++ zeros fill ++ digits)%string.

(** [int(s)] for a string of ASCII decimal digits. *)
Definition is_digit (c : ascii) : bool :=
  let n := nat_of_ascii c in (48 <=? n)%nat && (n <=? 57)%nat.

Definition digit_val (c : ascii) : Z := Z.of_nat (nat_of_ascii c) - 48.

Fixpoint int_of_digits (acc : Z) (s : string) : Z :=
  match s with
  | EmptyString => acc
  | String c r => int_of_digits (10 * acc + digit_val c) r
  end.

Definition int_str (s : string) : Z := int_of_digits 0 s.

(** [s.lower()] on ASCII text. *)
Definition lower_ascii (c : ascii) : ascii :=
  let n := nat_of_ascii c in
  if (65 <=? n)%nat && (n <=? 90)%nat then ascii_of_nat (n + 32) else c.

Fixpoint lower (s : string) : string :=
  match s with
  | EmptyString => EmptyString
  | String c r => String (lower_ascii c) (lower r)
  end.

(** [s.endswith(suffix)] *)
Definition endswith (s suffix : string) : bool :=
  let n := String.length s in
  let k := String.length suffix in
  (k <=? n)%nat && String.eqb (substring (n - k) k s) suffix.

(** [s.rfind(c) + 1]: the index just after the last [c], 0 when there is
    none. *)
Fixpoint after_last (c : ascii) (s : string) : nat :=
  match s with
  | EmptyString => O
  | String a r =>
      let k := after_last c r in
      if (0 <? k)%nat then S k
      else if Ascii.eqb a c then 1%nat else O
  end.

(** [os.path.basename(p)] (posixpath). *)
Definition basename (p : string) : string :=
  let i := after_last "/" p in
  substring i (String.length p - i) p.

(** [os.path.join(a, b)] (posixpath, two components). *)
Definition path_join (a b : string) : string :=
  if String.prefix "/" b then b
  else if String.eqb a EmptyString || endswith a "/" then (a ++ b)%string
  else (a ++ "/" ++ b)%string.

(** [pathlib.PurePath(p).suffix] and [.stem]: the final component is split at
    its last dot unless that dot is its first or its last character. *)
Definition suffix (p : string) : string :=
  let name := basename p in
  let i := after_last "." name in
  if (1 <? i)%nat && (i <? String.length name)%nat
  then substring (i - 1) (String.length name - (i - 1)) name
  else EmptyString.

Definition stem (p : string) : string :=
  let name := basename p in
  let i := after_last "." name in
  if (1 <? i)%nat && (i <? String.length name)%nat
  then substring 0 (i - 1) name
  else name.

End Py.

(** The Standard Library's executable specification of binary64
    ([SpecFloat] at [prec = 53], [emax = 1024]), against which the model of
    [float] is checked at the inputs the examples below use. *)
Module Binary64.

Definition of_Z (z : Z) : spec_float := binary_normalize 53 1024 z 0 false.

Definition to_Q (x : spec_float) : Q :=
  match x with
  | S754_finite s m e =>
      (inject_Z (if s then Z.neg m else Z.pos m) * 2 ^ e)%Q
  | _ => 0%Q
  end.

Definition div (a b : Z) : Q := to_Q (SFdiv 53 1024 (of_Z a) (of_Z b)).

Definition div_mul (a b c : Z) : Q :=
  to_Q (SFmul 53 1024 (SFdiv 53 1024 (of_Z a) (of_Z b)) (of_Z c)).

End Binary64.


(* ===================================================================== *)
(** ** The time codec: [MainWindow.format_time], [MainWindow.parse_time] *)
(* ===================================================================== *)

(** [format_time(ms)] *)
Definition format_time (ms : Z) : string :=
  let ms := if ms <? 0 then 0 else ms in
  let s := ms / 1000 in
  let ms := ms mod 1000 in
  let m := s / 60 in
  let s := s mod 60 in
  (Py.format_0d 2 m ++ ":" ++ Py.format_0d 2 s ++ "." ++ Py.format_0d 3 ms)%string.

(** The pieces of the pattern [(\d{1,2}):(\d{2})\.(\d{3})].  Each consumes
    a prefix of the subject and hands back what follows it. *)
Module Re.

(** [\d{n}]: exactly [n] digits; the group and the rest. *)
Fixpoint digits (n : nat) (s : string) : option (string * string) :=
  match n with
  | O => Some (EmptyString, s)
  | S k =>
      match s with
      | String c r =>
          if Py.is_digit c then
            match digits k r with
            | Some (g, rest) => Some (String c g, rest)
            | None => None
            end
          else None
      | EmptyString => None
      end
  end.

(** A literal character. *)
Definition lit (c : ascii) (s : string) : option string :=
  match s with
  | String a r => if Ascii.eqb a c then Some r else None
  | EmptyString => None
  end.

(** [:(\d{2})\.(\d{3})], the pattern after its first group.  What follows
    the third group is not looked at: [re.match] anchors the pattern at the
    start of the subject only. *)
Definition after_minutes (s : string) : option (string * string) :=
  match lit ":" s with
  | Some s1 =>
      match digits 2 s1 with
      | Some (g2, s2) =>
          match lit "." s2 with
          | Some s3 =>
              match digits 3 s3 with
              | Some (g3, _) => Some (g2, g3)
              | None => None
              end
          | None => None
          end
      | None => None
      end
  | None => None
  end.

(** [re.match(r'(\d{1,2}):(\d{2})\.(\d{3})', s)]: the three groups.  The
    greedy [\d{1,2}] takes two digits first and falls back to one. *)
Definition match_time (s : string) : option (string * string * string) :=
  let with_minutes (n : nat) :=
    match digits n s with
    | Some (g1, r) =>
        match after_minutes r with
        | Some (g2, g3) => Some (g1, g2, g3)
        | None => None
        end
    | None => None
    end in
  match with_minutes 2%nat with
  | Some groups => Some groups
  | None => with_minutes 1%nat
  end.

End Re.

(** [parse_time(time_str)]; [None] is Python's [None]. *)
Definition parse_time (time_str : string) : option Z :=
  match Re.match_time time_str with
  | Some (g1, g2, g3) =>
      let m := Py.int_str g1 in
      let s := Py.int_str g2 in
      let ms := Py.int_str g3 in
      Some ((m * 60 + s) * 1000 + ms)
  | None => None
  end.

(* ===================================================================== *)
(** ** [class ProTrimSlider]: state and pixel/value mapping *)
(* ===================================================================== *)

(** [self._dragging]: ['position'], ['start'] or ['end']; [None] when no
    drag is active. *)
Inductive drag : Type :=
| DragPosition
| DragStart
| DragEnd.

(** The slider's attributes; [width] is what [self.width()] returns, the
    geometry the layout gave the widget.  (The pulse animation only feeds
    [paintEvent] and is left out.) *)
Record ProTrimSlider : Type := {
  width : Z;
  _min_val : Z;
  _max_val : Z;
  _position : Z;
  _start_marker : Z;
  _end_marker : Z;
  _dragging : option drag;
  handle_width : Z;
  snap_threshold_px : Z
}.

(** [ProTrimSlider.__init__] *)
Definition ProTrimSlider_init (w : Z) : ProTrimSlider :=
  {| width := w; _min_val := 0; _max_val := 100;
     _position := 0; _start_marker := 0; _end_marker := 100;
     _dragging := None; handle_width := 16; snap_threshold_px := 10 |}.

(** [_value_to_pos(value)] *)
Definition _value_to_pos (s : ProTrimSlider) (value : Z) : Z :=
  let track_width := width s - handle_width s in
  let clamped_value := Z.max (_min_val s) (Z.min value (_max_val s)) in
  if _max_val s - _min_val s =? 0 then handle_width s / 2
  else
    Py.int (Py.mul (Py.truediv (Py.Int (clamped_value - _min_val s))
                               (Py.Int (_max_val s - _min_val s)))
                   (Py.Int track_width))
    + handle_width s / 2.

(** [_pos_to_value(pos)]; [pos] is the [float] of [event.position().x()] in
    the mouse handlers. *)
Definition _pos_to_value (s : ProTrimSlider) (pos : Py.num) : Z :=
  let track_width := width s - handle_width s in
  if track_width <=? 0 then _min_val s
  else
    let val :=
      Py.add (Py.Int (_min_val s))
             (Py.mul (Py.truediv (Py.sub pos (Py.Int (handle_width s / 2)))
                                 (Py.Int track_width))
                     (Py.Int (_max_val s - _min_val s))) in
    Z.max (_min_val s) (Z.min (_max_val s) (Py.int val)).

Definition setRange (s : ProTrimSlider) (min_val max_val : Z) : ProTrimSlider :=
  {| width := width s; _min_val := min_val; _max_val := max_val;
     _position := _position s; _start_marker := _start_marker s;
     _end_marker := _end_marker s; _dragging := _dragging s;
     handle_width := handle_width s; snap_threshold_px := snap_threshold_px s |}.

Definition setPosition (s : ProTrimSlider) (value : Z) : ProTrimSlider :=
  {| width := width s; _min_val := _min_val s; _max_val := _max_val s;
     _position := value; _start_marker := _start_marker s;
     _end_marker := _end_marker s; _dragging := _dragging s;
     handle_width := handle_width s; snap_threshold_px := snap_threshold_px s |}.

Definition setStartMarker (s : ProTrimSlider) (value : Z) : ProTrimSlider :=
  {| width := width s; _min_val := _min_val s; _max_val := _max_val s;
     _position := _position s; _start_marker := value;
     _end_marker := _end_marker s; _dragging := _dragging s;
     handle_width := handle_width s; snap_threshold_px := snap_threshold_px s |}.

Definition setEndMarker (s : ProTrimSlider) (value : Z) : ProTrimSlider :=
  {| width := width s; _min_val := _min_val s; _max_val := _max_val s;
     _position := _position s; _start_marker := _start_marker s;
     _end_marker := value; _dragging := _dragging s;
     handle_width := handle_width s; snap_threshold_px := snap_threshold_px s |}.

(** The assignment [self._dragging = d]. *)
Definition set_dragging (s : ProTrimSlider) (d : option drag) : ProTrimSlider :=
  {| width := width s; _min_val := _min_val s; _max_val := _max_val s;
     _position := _position s; _start_marker := _start_marker s;
     _end_marker := _end_marker s; _dragging := d;
     handle_width := handle_width s; snap_threshold_px := snap_threshold_px s |}.

(** [abs(ex - x) < limit], the test both [mousePressEvent] and
    [mouseReleaseEvent] apply to a handle at pixel [x]. *)
Definition near (ex : Py.num) (x limit : Z) : bool :=
  Py.lt (Py.abs (Py.sub ex (Py.Int x))) (Py.Int limit).

(** The [if] / [elif] chain of [mousePressEvent]: the value it assigns to
    [self._dragging]. *)
Definition press_target (s : ProTrimSlider) (ex : Py.num) : drag :=
  let pos_x := _value_to_pos s (_position s) in
  let start_x := _value_to_pos s (_start_marker s) in
  let end_x := _value_to_pos s (_end_marker s) in
  if near ex start_x (handle_width s / 2) then DragStart
  else if near ex end_x (handle_width s / 2) then DragEnd
  else if near ex pos_x (handle_width s / 2) then DragPosition
  else DragPosition.

(* ===================================================================== *)
(** ** The outside: the media player, child processes, the disk *)
(* ===================================================================== *)

(** [QMediaPlayer.PlaybackState] *)
Inductive PlaybackState : Type :=
| StoppedState
| PlayingState
| PausedState.

(** What the program reads back from its [QMediaPlayer].  Loading is
    asynchronous: after [setSource] the player knows nothing of the media
    ([duration() == 0]) until it has read it, and then tells the program
    through [durationChanged]. *)
Record QMediaPlayer : Type := {
  source : option string;
  duration : Z;
  position : Z;
  playbackState : PlaybackState
}.

Module Player.

Definition stop (p : QMediaPlayer) : QMediaPlayer :=
  {| source := source p; duration := duration p; position := 0;
     playbackState := StoppedState |}.

(** [setSource(url)]; [None] is the null [QUrl()].  The player stops and
    discards all it knew about the previous source. *)
Definition setSource (p : QMediaPlayer) (url : option string) : QMediaPlayer :=
  {| source := url; duration := 0; position := 0;
     playbackState := StoppedState |}.

Definition play (p : QMediaPlayer) : QMediaPlayer :=
  {| source := source p; duration := duration p; position := position p;
     playbackState := PlayingState |}.

Definition pause (p : QMediaPlayer) : QMediaPlayer :=
  {| source := source p; duration := duration p; position := position p;
     playbackState := PausedState |}.

Definition setPosition (p : QMediaPlayer) (pos : Z) : QMediaPlayer :=
  {| source := source p; duration := duration p; position := pos;
     playbackState := playbackState p |}.

(** The player has read the media: its duration is known. *)
Definition loaded (p : QMediaPlayer) (d : Z) : QMediaPlayer :=
  {| source := source p; duration := d; position := position p;
     playbackState := playbackState p |}.

End Player.

(** One element of an argument vector: a string, or [str(x)] of a float. *)
Inductive arg : Type :=
| Str (s : string)
| StrFloat (x : Q).

(** How a child process ended, as [subprocess.run(..., capture_output=True,
    text=True)] sees it: it ran and exited, or it could not be started. *)
Inductive ended : Type :=
| Exited (returncode : Z) (stdout stderr : string)
| NotStarted (oserror : string).

(** What [subprocess.run(command, check=True, ...)] does with that. *)
Inductive run_result : Type :=
| CompletedProcess (stdout stderr : string)
| CalledProcessError (returncode : Z) (stderr : string)
| OSError (message : string).

Definition check_true (e : ended) : run_result :=
  match e with
  | Exited rc out err =>
      if rc =? 0 then CompletedProcess out err else CalledProcessError rc err
  | NotStarted msg => OSError msg
  end.

(** The files on disk: the set of paths for which [os.path.exists] holds. *)
Abbreviation disk := (gset string).

(** What the program does to the outside, in the order it does it. *)
Inductive effect : Type :=
| Subprocess (command : list arg)
| MessageBoxWarning (title text : string)
| MessageBoxInformation (title text : string)
| MessageBoxCritical (title text : string)
| Unhandled (exception : string)
| Printed (text : string).

Definition is_subprocess (e : effect) : bool :=
  match e with
  | Subprocess _ => true
  | _ => false
  end.

(* ===================================================================== *)
(** ** [class ThumbnailGenerator] *)
(* ===================================================================== *)

(** [QStyle] standard icons and icons read from a file. *)
Inductive QIcon : Type :=
| SP_MediaPlay
| SP_MediaVolume
| IconFile (path : string).

(** An entry of the cache list: its text, its [Qt.UserRole] data and its
    icon. *)
Record QListWidgetItem : Type := {
  text : string;
  data : string;
  icon : QIcon
}.

Record ThumbnailGenerator : Type := {
  item : QListWidgetItem;
  media_path : string;
  thumb_path : string;
  worker_ffmpeg_path : string
}.

(** The signal [thumbnailReady(item, icon)]. *)
Inductive thumbnailReady : Type :=
| ThumbnailReady (it : QListWidgetItem) (ic : QIcon).

Definition thumbnail_command (t : ThumbnailGenerator) : list arg :=
  [Str (worker_ffmpeg_path t); Str "-nostdin"; Str "-ss"; Str "00:00:00.1";
   Str "-i"; Str (media_path t); Str "-vframes"; Str "1";
   Str "-vf"; Str "scale=128:-1"; Str (thumb_path t)].

Section Processes.

(** The operating system: what running a command does, on a given disk. *)
Variable subprocess_run : list arg -> disk -> ended * disk.

(** [ThumbnailGenerator.run]: the effects, the signal emitted (if any) and
    the disk afterwards. *)
Definition ThumbnailGenerator_run (t : ThumbnailGenerator) (d : disk)
  : list effect * option thumbnailReady * disk :=
  let emit_if_exists (log : list effect) (d' : disk) :=
    if bool_decide (thumb_path t ∈ d')
    then (log, Some (ThumbnailReady (item t) (IconFile (thumb_path t))), d')
    else (log, None, d') in
  if negb (bool_decide (thumb_path t ∈ d)) then
    let command := thumbnail_command t in
    let '(e, d') := subprocess_run command d in
    match check_true e with
    | CompletedProcess _ _ => emit_if_exists [Subprocess command] d'
    | CalledProcessError _ err =>
        ([Subprocess command;
          Printed ("Could not generate thumbnail for " ++ media_path t ++ ": " ++ err)],
         None, d')
    | OSError msg =>
        ([Subprocess command;
          Printed ("Could not generate thumbnail for " ++ media_path t ++ ": " ++ msg)],
         None, d')
    end
  else emit_if_exists [] d.

End Processes.

(* ===================================================================== *)
(** ** [class MainWindow] *)
(* ===================================================================== *)

Definition VIDEO_EXTENSIONS : list string := [".mp4"; ".mov"; ".avi"; ".mkv"]%string.
Definition AUDIO_EXTENSIONS : list string := [".mp3"; ".wav"; ".flac"; ".aac"]%string.

(** The widgets whose content the modelled methods write. *)
Record Widgets : Type := {
  lbl_media_name : string;
  lbl_big_timestamp : string;
  btn_play_enabled : bool;
  btn_trim_enabled : bool;
  loop_checkbox : bool;
  time_edit_start : string;
  time_edit_end : string
}.

Record MainWindow : Type := {
  ffmpeg_path : option string;
  current_media_path : option string;
  cache_dir : string;
  thumb_cache_dir : string;
  start_time_ms : Z;
  end_time_ms : Z;
  thumbnail_workers : list ThumbnailGenerator;
  was_playing_before_drag : bool;
  media_player : QMediaPlayer;
  position_slider : ProTrimSlider;
  ui : Widgets;
  cache_list : list QListWidgetItem;
  log : list effect
}.

(** Assignments to one attribute. *)
Definition with_current_media_path (v : option string) (w : MainWindow) : MainWindow :=
  {| ffmpeg_path := ffmpeg_path w; current_media_path := v;
     cache_dir := cache_dir w; thumb_cache_dir := thumb_cache_dir w;
     start_time_ms := start_time_ms w; end_time_ms := end_time_ms w;
     thumbnail_workers := thumbnail_workers w;
     was_playing_before_drag := was_playing_before_drag w;
     media_player := media_player w; position_slider := position_slider w;
     ui := ui w; cache_list := cache_list w; log := log w |}.

Definition with_start_time_ms (v : Z) (w : MainWindow) : MainWindow :=
  {| ffmpeg_path := ffmpeg_path w; current_media_path := current_media_path w;
     cache_dir := cache_dir w; thumb_cache_dir := thumb_cache_dir w;
     start_time_ms := v; end_time_ms := end_time_ms w;
     thumbnail_workers := thumbnail_workers w;
     was_playing_before_drag := was_playing_before_drag w;
     media_player := media_player w; position_slider := position_slider w;
     ui := ui w; cache_list := cache_list w; log := log w |}.

Definition with_end_time_ms (v : Z) (w : MainWindow) : MainWindow :=
  {| ffmpeg_path := ffmpeg_path w; current_media_path := current_media_path w;
     cache_dir := cache_dir w; thumb_cache_dir := thumb_cache_dir w;
     start_time_ms := start_time_ms w; end_time_ms := v;
     thumbnail_workers := thumbnail_workers w;
     was_playing_before_drag := was_playing_before_drag w;
     media_player := media_player w; position_slider := position_slider w;
     ui := ui w; cache_list := cache_list w; log := log w |}.

Definition with_thumbnail_workers (v : list ThumbnailGenerator) (w : MainWindow) : MainWindow :=
  {| ffmpeg_path := ffmpeg_path w; current_media_path := current_media_path w;
     cache_dir := cache_dir w; thumb_cache_dir := thumb_cache_dir w;
     start_time_ms := start_time_ms w; end_time_ms := end_time_ms w;
     thumbnail_workers := v;
     was_playing_before_drag := was_playing_before_drag w;
     media_player := media_player w; position_slider := position_slider w;
     ui := ui w; cache_list := cache_list w; log := log w |}.

Definition with_was_playing_before_drag (v : bool) (w : MainWindow) : MainWindow :=
  {| ffmpeg_path := ffmpeg_path w; current_media_path := current_media_path w;
     cache_dir := cache_dir w; thumb_cache_dir := thumb_cache_dir w;
     start_time_ms := start_time_ms w; end_time_ms := end_time_ms w;
     thumbnail_workers := thumbnail_workers w;
     was_playing_before_drag := v;
     media_player := media_player w; position_slider := position_slider w;
     ui := ui w; cache_list := cache_list w; log := log w |}.

Definition with_media_player (v : QMediaPlayer) (w : MainWindow) : MainWindow :=
  {| ffmpeg_path := ffmpeg_path w; current_media_path := current_media_path w;
     cache_dir := cache_dir w; thumb_cache_dir := thumb_cache_dir w;
     start_time_ms := start_time_ms w; end_time_ms := end_time_ms w;
     thumbnail_workers := thumbnail_workers w;
     was_playing_before_drag := was_playing_before_drag w;
     media_player := v; position_slider := position_slider w;
     ui := ui w; cache_list := cache_list w; log := log w |}.

Definition with_position_slider (v : ProTrimSlider) (w : MainWindow) : MainWindow :=
  {| ffmpeg_path := ffmpeg_path w; current_media_path := current_media_path w;
     cache_dir := cache_dir w; thumb_cache_dir := thumb_cache_dir w;
     start_time_ms := start_time_ms w; end_time_ms := end_time_ms w;
     thumbnail_workers := thumbnail_workers w;
     was_playing_before_drag := was_playing_before_drag w;
     media_player := media_player w; position_slider := v;
     ui := ui w; cache_list := cache_list w; log := log w |}.

Definition with_ui (v : Widgets) (w : MainWindow) : MainWindow :=
  {| ffmpeg_path := ffmpeg_path w; current_media_path := current_media_path w;
     cache_dir := cache_dir w; thumb_cache_dir := thumb_cache_dir w;
     start_time_ms := start_time_ms w; end_time_ms := end_time_ms w;
     thumbnail_workers := thumbnail_workers w;
     was_playing_before_drag := was_playing_before_drag w;
     media_player := media_player w; position_slider := position_slider w;
     ui := v; cache_list := cache_list w; log := log w |}.

Definition with_cache_list (v : list QListWidgetItem) (w : MainWindow) : MainWindow :=
  {| ffmpeg_path := ffmpeg_path w; current_media_path := current_media_path w;
     cache_dir := cache_dir w; thumb_cache_dir := thumb_cache_dir w;
     start_time_ms := start_time_ms w; end_time_ms := end_time_ms w;
     thumbnail_workers := thumbnail_workers w;
     was_playing_before_drag := was_playing_before_drag w;
     media_player := media_player w; position_slider := position_slider w;
     ui := ui w; cache_list := v; log := log w |}.

(** One more effect, after those already logged. *)
Definition logged (e : effect) (w : MainWindow) : MainWindow :=
  {| ffmpeg_path := ffmpeg_path w; current_media_path := current_media_path w;
     cache_dir := cache_dir w; thumb_cache_dir := thumb_cache_dir w;
     start_time_ms := start_time_ms w; end_time_ms := end_time_ms w;
     thumbnail_workers := thumbnail_workers w;
     was_playing_before_drag := was_playing_before_drag w;
     media_player := media_player w; position_slider := position_slider w;
     ui := ui w; cache_list := cache_list w; log := log w ++ [e] |}.

(** [setText] / [setEnabled] / [setChecked] on the widgets. *)
Definition set_lbl_media_name (v : string) (u : Widgets) : Widgets :=
  {| lbl_media_name := v; lbl_big_timestamp := lbl_big_timestamp u;
     btn_play_enabled := btn_play_enabled u; btn_trim_enabled := btn_trim_enabled u;
     loop_checkbox := loop_checkbox u;
     time_edit_start := time_edit_start u; time_edit_end := time_edit_end u |}.

Definition set_lbl_big_timestamp (v : string) (u : Widgets) : Widgets :=
  {| lbl_media_name := lbl_media_name u; lbl_big_timestamp := v;
     btn_play_enabled := btn_play_enabled u; btn_trim_enabled := btn_trim_enabled u;
     loop_checkbox := loop_checkbox u;
     time_edit_start := time_edit_start u; time_edit_end := time_edit_end u |}.

Definition set_btn_play_enabled (v : bool) (u : Widgets) : Widgets :=
  {| lbl_media_name := lbl_media_name u; lbl_big_timestamp := lbl_big_timestamp u;
     btn_play_enabled := v; btn_trim_enabled := btn_trim_enabled u;
     loop_checkbox := loop_checkbox u;
     time_edit_start := time_edit_start u; time_edit_end := time_edit_end u |}.

Definition set_btn_trim_enabled (v : bool) (u : Widgets) : Widgets :=
  {| lbl_media_name := lbl_media_name u; lbl_big_timestamp := lbl_big_timestamp u;
     btn_play_enabled := btn_play_enabled u; btn_trim_enabled := v;
     loop_checkbox := loop_checkbox u;
     time_edit_start := time_edit_start u; time_edit_end := time_edit_end u |}.

Definition set_loop_checkbox (v : bool) (u : Widgets) : Widgets :=
  {| lbl_media_name := lbl_media_name u; lbl_big_timestamp := lbl_big_timestamp u;
     btn_play_enabled := btn_play_enabled u; btn_trim_enabled := btn_trim_enabled u;
     loop_checkbox := v;
     time_edit_start := time_edit_start u; time_edit_end := time_edit_end u |}.

Definition set_time_edit_start (v : string) (u : Widgets) : Widgets :=
  {| lbl_media_name := lbl_media_name u; lbl_big_timestamp := lbl_big_timestamp u;
     btn_play_enabled := btn_play_enabled u; btn_trim_enabled := btn_trim_enabled u;
     loop_checkbox := loop_checkbox u;
     time_edit_start := v; time_edit_end := time_edit_end u |}.

Definition set_time_edit_end (v : string) (u : Widgets) : Widgets :=
  {| lbl_media_name := lbl_media_name u; lbl_big_timestamp := lbl_big_timestamp u;
     btn_play_enabled := btn_play_enabled u; btn_trim_enabled := btn_trim_enabled u;
     loop_checkbox := loop_checkbox u;
     time_edit_start := time_edit_start u; time_edit_end := v |}.

(** [reset_trim_times] *)
Definition reset_trim_times (w : MainWindow) : MainWindow :=
  let duration := duration (media_player w) in
  let w := with_end_time_ms duration (with_start_time_ms 0 w) in
  let w := with_position_slider (setStartMarker (position_slider w) 0) w in
  let w := with_position_slider (setEndMarker (position_slider w) duration) w in
  let w := with_ui (set_time_edit_start (format_time 0) (ui w)) w in
  with_ui (set_time_edit_end (format_time duration) (ui w)) w.

(** [clear_player_state] *)
Definition clear_player_state (w : MainWindow) : MainWindow :=
  let w := with_media_player (Player.stop (media_player w)) w in
  let w := with_media_player (Player.setSource (media_player w) None) w in
  let w := with_current_media_path None w in
  let w := with_ui (set_lbl_media_name "No Media Loaded" (ui w)) w in
  let w := with_ui (set_lbl_big_timestamp "00:00.000 / 00:00.000" (ui w)) w in
  let w := with_ui (set_btn_play_enabled false (ui w)) w in
  let w := with_ui (set_btn_trim_enabled false (ui w)) w in
  reset_trim_times w.

(** [play_media] *)
Definition play_media (w : MainWindow) : MainWindow :=
  match playbackState (media_player w) with
  | PlayingState => with_media_player (Player.pause (media_player w)) w
  | _ => with_media_player (Player.play (media_player w)) w
  end.

(** [load_media(file_path)] *)
Definition load_media (w : MainWindow) (file_path : string) : MainWindow :=
  let w := clear_player_state w in
  let w := with_ui (set_loop_checkbox false (ui w)) w in
  let w := with_current_media_path (Some file_path) w in
  let w := with_media_player (Player.setSource (media_player w) (Some file_path)) w in
  let w := with_ui (set_lbl_media_name (Py.basename file_path) (ui w)) w in
  let w := with_ui (set_btn_play_enabled true (ui w)) w in
  let w := with_ui (set_btn_trim_enabled
                      (match ffmpeg_path w with Some _ => true | None => false end)
                      (ui w)) w in
  play_media w.

(** [position_changed(position)], the slot of the player's
    [positionChanged]. *)
Definition position_changed (w : MainWindow) (position : Z) : MainWindow :=
  let w := with_position_slider (setPosition (position_slider w) position) w in
  let w := with_ui (set_lbl_big_timestamp
                      (format_time position ++ " / "
                       ++ format_time (duration (media_player w))) (ui w)) w in
  if loop_checkbox (ui w)
     && match playbackState (media_player w) with PlayingState => true | _ => false end
     && (start_time_ms w <? end_time_ms w)
     && (end_time_ms w <=? position)
  then
    if Z.abs (position - end_time_ms w) <? 100
    then with_media_player (Player.setPosition (media_player w) (start_time_ms w)) w
    else w
  else w.

(** [duration_changed(duration)], the slot of the player's
    [durationChanged]. *)
Definition duration_changed (w : MainWindow) (duration : Z) : MainWindow :=
  let duration := if 0 <? duration then duration else 0 in
  let w := with_position_slider (setRange (position_slider w) 0 duration) w in
  let w := reset_trim_times w in
  with_ui (set_lbl_big_timestamp ("00:00.000 / " ++ format_time duration) (ui w)) w.

(** [media_state_changed(state)] only swaps the icon of the play button. *)
Definition media_state_changed (w : MainWindow) (state : PlaybackState) : MainWindow := w.

(** [set_position(position)], the slot of the slider's [positionChanged]. *)
Definition set_position (w : MainWindow) (position : Z) : MainWindow :=
  with_media_player (Player.setPosition (media_player w) position) w.

(** [on_slider_pressed], the slot of [sliderPressed]. *)
Definition on_slider_pressed (w : MainWindow) : MainWindow :=
  match playbackState (media_player w) with
  | PlayingState =>
      let w := with_was_playing_before_drag true w in
      with_media_player (Player.pause (media_player w)) w
  | _ => with_was_playing_before_drag false w
  end.

(** [on_slider_released], the slot of [sliderReleased]. *)
Definition on_slider_released (w : MainWindow) : MainWindow :=
  let w := if was_playing_before_drag w
           then with_media_player (Player.play (media_player w)) w
           else w in
  with_was_playing_before_drag false w.

(** [set_start_time_from_playhead] *)
Definition set_start_time_from_playhead (w : MainWindow) : MainWindow :=
  let pos := position (media_player w) in
  if pos <? end_time_ms w then
    let w := with_start_time_ms pos w in
    let w := with_position_slider (setStartMarker (position_slider w) pos) w in
    with_ui (set_time_edit_start (format_time pos) (ui w)) w
  else w.

(** [set_end_time_from_playhead] *)
Definition set_end_time_from_playhead (w : MainWindow) : MainWindow :=
  let pos := position (media_player w) in
  if start_time_ms w <? pos then
    let w := with_end_time_ms pos w in
    let w := with_position_slider (setEndMarker (position_slider w) pos) w in
    with_ui (set_time_edit_end (format_time pos) (ui w)) w
  else w.

(** [set_start_time_from_slider(value)], the slot of [startMarkerChanged]. *)
Definition set_start_time_from_slider (w : MainWindow) (value : Z) : MainWindow :=
  let w := with_start_time_ms value w in
  let w := with_ui (set_time_edit_start (format_time value) (ui w)) w in
  with_position_slider (setStartMarker (position_slider w) value) w.

(** [set_end_time_from_slider(value)], the slot of [endMarkerChanged]. *)
Definition set_end_time_from_slider (w : MainWindow) (value : Z) : MainWindow :=
  let w := with_end_time_ms value w in
  let w := with_ui (set_time_edit_end (format_time value) (ui w)) w in
  with_position_slider (setEndMarker (position_slider w) value) w.

(** [set_start_time_from_text] *)
Definition set_start_time_from_text (w : MainWindow) : MainWindow :=
  match parse_time (time_edit_start (ui w)) with
  | Some new_start_ms =>
      if new_start_ms <? end_time_ms w then
        let w := with_start_time_ms new_start_ms w in
        with_position_slider (setStartMarker (position_slider w) new_start_ms) w
      else with_ui (set_time_edit_start (format_time (start_time_ms w)) (ui w)) w
  | None => with_ui (set_time_edit_start (format_time (start_time_ms w)) (ui w)) w
  end.

(** [set_end_time_from_text] *)
Definition set_end_time_from_text (w : MainWindow) : MainWindow :=
  match parse_time (time_edit_end (ui w)) with
  | Some new_end_ms =>
      if start_time_ms w <? new_end_ms then
        let w := with_end_time_ms new_end_ms w in
        with_position_slider (setEndMarker (position_slider w) new_end_ms) w
      else with_ui (set_time_edit_end (format_time (end_time_ms w)) (ui w)) w
  | None => with_ui (set_time_edit_end (format_time (end_time_ms w)) (ui w)) w
  end.

(* ===================================================================== *)
(** ** The mouse handlers of [ProTrimSlider], with its signals connected
       as [setup_ui] connects them *)
(* ===================================================================== *)

(** [mouseMoveEvent(event)]: [ex] is [event.position().x()] and [shift]
    whether [QGuiApplication.keyboardModifiers()] has the shift key. *)
Definition mouseMoveEvent (w : MainWindow) (ex : Py.num) (shift : bool) : MainWindow :=
  let s := position_slider w in
  match _dragging s with
  | None => w
  | Some dragging =>
      let fine_tune_factor := Py.Float (if shift then 0.25 else 1.0)%Q in
      let current_val := _pos_to_value s ex in
      match dragging with
      | DragPosition => set_position w current_val
      | DragStart =>
          let prev_val := _start_marker s in
          let new_val := Py.add (Py.Int prev_val)
                           (Py.mul (Py.Int (current_val - prev_val)) fine_tune_factor) in
          if Py.lt new_val (Py.Int (_end_marker s))
          then set_start_time_from_slider w (Py.int new_val)
          else w
      | DragEnd =>
          let prev_val := _end_marker s in
          let new_val := Py.add (Py.Int prev_val)
                           (Py.mul (Py.Int (current_val - prev_val)) fine_tune_factor) in
          if Py.gt new_val (Py.Int (_start_marker s))
          then set_end_time_from_slider w (Py.int new_val)
          else w
      end
  end.

(** [mousePressEvent(event)] *)
Definition mousePressEvent (w : MainWindow) (ex : Py.num) (shift : bool) : MainWindow :=
  let s := position_slider w in
  let w := with_position_slider (set_dragging s (Some (press_target s ex))) w in
  let w := on_slider_pressed w in
  mouseMoveEvent w ex shift.

(** [mouseReleaseEvent(event)] *)
Definition mouseReleaseEvent (w : MainWindow) : MainWindow :=
  let s := position_slider w in
  let w :=
    match _dragging s with
    | Some DragPosition =>
        let pos_x := _value_to_pos s (_position s) in
        let start_x := _value_to_pos s (_start_marker s) in
        let end_x := _value_to_pos s (_end_marker s) in
        if Z.abs (pos_x - start_x) <? snap_threshold_px s
        then set_position w (_start_marker s)
        else if Z.abs (pos_x - end_x) <? snap_threshold_px s
        then set_position w (_end_marker s)
        else w
    | _ => w
    end in
  let w := with_position_slider (set_dragging (position_slider w) None) w in
  on_slider_released w.

(* ===================================================================== *)
(** ** The cache list and the trim export *)
(* ===================================================================== *)

(** [any(name.endswith(ext) for ext in extensions)] *)
Definition has_extension (name : string) (extensions : list string) : bool :=
  existsb (Py.endswith name) extensions.

(** [QListWidget.findItems(text, Qt.MatchFixedString)]: the items whose text
    is [text] as a string; Qt compares case-insensitively unless
    [Qt.MatchCaseSensitive] is given as well, which [main.py] does not. *)
Definition findItems (items : list QListWidgetItem) (name : string)
  : list QListWidgetItem :=
  List.filter (fun it => String.eqb (Py.lower (text it)) (Py.lower name)) items.

(** [request_thumbnail(item, media_path)]; [ffmpeg] is [self.ffmpeg_path].
    The worker is kept in [thumbnail_workers] and started; what it does then
    is [ThumbnailGenerator_run]. *)
Definition request_thumbnail (w : MainWindow) (ffmpeg : string)
    (it : QListWidgetItem) (media : string) : MainWindow :=
  let base_name := Py.basename media in
  let thumb_filename := (Py.stem base_name ++ ".jpg")%string in
  let thumb := Py.path_join (thumb_cache_dir w) thumb_filename in
  let worker := {| item := it; media_path := media; thumb_path := thumb;
                   worker_ffmpeg_path := ffmpeg |} in
  with_thumbnail_workers (thumbnail_workers w ++ [worker]) w.

(** [add_to_cache_list(file_path)] *)
Definition add_to_cache_list (w : MainWindow) (file_path : string) : MainWindow :=
  let base_name := Py.basename file_path in
  match findItems (cache_list w) base_name with
  | [] =>
      let file_lower := Py.lower base_name in
      if has_extension file_lower VIDEO_EXTENSIONS then
        let it := {| text := base_name; data := file_path; icon := SP_MediaPlay |} in
        let w := match ffmpeg_path w with
                 | Some ffmpeg =>
                     if String.eqb ffmpeg EmptyString then w
                     else request_thumbnail w ffmpeg it file_path
                 | None => w
                 end in
        with_cache_list (cache_list w ++ [it]) w
      else
        let it := {| text := base_name; data := file_path; icon := SP_MediaVolume |} in
        with_cache_list (cache_list w ++ [it]) w
  | _ :: _ => w
  end.

(** The name [trim_media] gives its output and the command it runs. *)
Definition trim_output_path (w : MainWindow) (input_path : string) : string :=
  let output_filename :=
    (Py.stem input_path ++ "_trimmed_" ++ Py.str_int (start_time_ms w) ++ "_"
     ++ Py.str_int (end_time_ms w) ++ Py.suffix input_path)%string in
  Py.path_join (cache_dir w) output_filename.

Definition trim_command (w : MainWindow) (ffmpeg input_path : string) : list arg :=
  [Str ffmpeg; Str "-i"; Str input_path;
   Str "-ss"; StrFloat (Py.to_float (Py.truediv (Py.Int (start_time_ms w)) (Py.Float 1000)));
   Str "-to"; StrFloat (Py.to_float (Py.truediv (Py.Int (end_time_ms w)) (Py.Float 1000)));
   Str "-c:v"; Str "libx264"; Str "-preset"; Str "ultrafast"; Str "-c:a"; Str "aac";
   Str "-y"; Str (trim_output_path w input_path)].

Section TrimExport.

Variable subprocess_run : list arg -> disk -> ended * disk.

(** [trim_media]: the window and the disk afterwards.  Without an
    [ffmpeg_path] the argument vector holds [None] and [subprocess.run]
    raises before it starts anything. *)
Definition trim_media (w : MainWindow) (d : disk) : MainWindow * disk :=
  match current_media_path w with
  | None => (w, d)
  | Some current =>
      if String.eqb current EmptyString then (w, d)
      else if end_time_ms w <=? start_time_ms w then
        (logged (MessageBoxWarning "Trim Error" "Start time must be before end time.") w, d)
      else
        let w := with_media_player (Player.pause (media_player w)) w in
        let output_path := trim_output_path w current in
        match ffmpeg_path w with
        | None => (logged (Unhandled "TypeError") w, d)
        | Some ffmpeg =>
            let command := trim_command w ffmpeg current in
            let w := logged (Subprocess command) w in
            let '(e, d') := subprocess_run command d in
            match check_true e with
            | CompletedProcess _ _ =>
                let w := add_to_cache_list w output_path in
                (logged (MessageBoxInformation "Trim Success" "File successfully cached.") w, d')
            | CalledProcessError _ err =>
                (logged (MessageBoxCritical "FFmpeg Error"
                           ("An error occurred during trimming." ++ String "010" (String "010"
                            ("Error:" ++ String "010" err)))) w, d')
            | OSError msg => (logged (Unhandled msg) w, d')
            end
        end
  end.

End TrimExport.

(** [MainWindow.__init__], before [load_cache] fills the cache list:
    [ffmpeg] is what [check_ffmpeg] found, [slider_width] the width the
    layout gives the slider. *)
Definition MainWindow_init (ffmpeg : option string) (cache thumbs : string)
    (slider_width : Z) : MainWindow :=
  {| ffmpeg_path := ffmpeg; current_media_path := None;
     cache_dir := cache; thumb_cache_dir := thumbs;
     start_time_ms := 0; end_time_ms := 0;
     thumbnail_workers := []; was_playing_before_drag := false;
     media_player := {| source := None; duration := 0; position := 0;
                        playbackState := StoppedState |};
     position_slider := ProTrimSlider_init slider_width;
     ui := {| lbl_media_name := "No Media Loaded";
              lbl_big_timestamp := "00:00.000 / 00:00.000";
              btn_play_enabled := true; btn_trim_enabled := false;
              loop_checkbox := false;
              time_edit_start := "00:00.000"; time_edit_end := "00:00.000" |};
     cache_list := []; log := [] |}.

(** What the player tells the program, through the signals [setup_ui]
    connects: the player's own state changes, then the slot runs. *)
Inductive notification : Type :=
| positionChanged (position : Z)
| playbackStateChanged (state : PlaybackState)
| durationChanged (duration : Z).

Definition notify (w : MainWindow) (n : notification) : MainWindow :=
  match n with
  | positionChanged p =>
      position_changed (with_media_player (Player.setPosition (media_player w) p) w) p
  | playbackStateChanged st => media_state_changed w st
  | durationChanged d =>
      duration_changed (with_media_player (Player.loaded (media_player w) d) w) d
  end.


(** The effects a call added to the log. *)
Definition new_effects (before after : MainWindow) : list effect :=
  drop (length (log before)) (log after).

(* ===================================================================== *)
(** ** What the properties below are stated with *)
(* ===================================================================== *)

(** The unit roundoff of binary64, [2 ^ -53]. *)
Definition unit_roundoff : Q := 1 # 9007199254740992.

(** The spec's reading of the timecode pattern: the whole string is one or
    two digits, a colon, two digits, a dot and three digits. *)
Definition whole_string_is_timecode (s : string) : bool :=
  match s with
  | String a (String b (String c (String d (String e (String f (String g (String h r))))))) =>
      match r with
      | EmptyString =>
          Py.is_digit a && Ascii.eqb b ":" && Py.is_digit c && Py.is_digit d
          && Ascii.eqb e "." && Py.is_digit f && Py.is_digit g && Py.is_digit h
      | String i EmptyString =>
          Py.is_digit a && Py.is_digit b && Ascii.eqb c ":" && Py.is_digit d
          && Py.is_digit e && Ascii.eqb f "." && Py.is_digit g && Py.is_digit h
          && Py.is_digit i
      | _ => false
      end
  | _ => false
  end.

(** The decimal digit [k] as a character, and numbers written with two and
    with three digits. *)
Definition digit (k : Z) : ascii := ascii_of_nat (48 + Z.to_nat k).

Definition two_digits (n : Z) : string :=
  String (digit (n / 10)) (String (digit (n mod 10)) EmptyString).

Definition three_digits (n : Z) : string :=
  String (digit (n / 100)) (String (digit (n / 10 mod 10))
    (String (digit (n mod 10)) EmptyString)).

(** The spec's [beginDrag]: of the handles within [handle_width / 2] pixels
    of [px], the nearest; the playhead when none is that near. *)
Definition nearer (best : option (drag * Q)) (candidate : drag * Q) (limit : Q)
  : option (drag * Q) :=
  if Qle_bool (snd candidate) limit then
    match best with
    | Some (_, dist) =>
        if Qle_bool dist (snd candidate) then best else Some candidate
    | None => Some candidate
    end
  else best.

Definition beginDrag_spec (s : ProTrimSlider) (px : Q) : drag :=
  let distance (x : Z) : Q := Qabs (px - inject_Z x) in
  let limit : Q := (inject_Z (handle_width s) / 2)%Q in
  let candidates :=
    [(DragStart, distance (_value_to_pos s (_start_marker s)));
     (DragEnd, distance (_value_to_pos s (_end_marker s)));
     (DragPosition, distance (_value_to_pos s (_position s)))] in
  match fold_left (fun best c => nearer best c limit) candidates None with
  | Some (d, _) => d
  | None => DragPosition
  end.

(** A media asset is loaded: [self.current_media_path] is a non-empty
    string. *)
Definition media_loaded (w : MainWindow) : Prop :=
  exists p, current_media_path w = Some p /\ p <> EmptyString.



(** *** Sample states *)

Definition fresh_window : MainWindow :=
  MainWindow_init (Some "/usr/bin/ffmpeg"%string) "/cache" "/cache/thumbnails" 116.

(** A 10 s clip is loaded and its duration known. *)
Definition loaded_window : MainWindow :=
  notify (load_media fresh_window "/lib/clip.mp4") (durationChanged 10000).

(** The playhead was moved to 5 s and made the start; the end is then set
    before it. *)
Definition empty_range_window : MainWindow :=
  with_end_time_ms 2000
    (set_start_time_from_playhead (notify loaded_window (positionChanged 5000))).

(** Start marker at 0 (pixel 8), end marker at 200 ms (pixel 10), playhead
    at 5 s (pixel 58), on a track of 100 pixels. *)
Definition crowded_window : MainWindow :=
  notify
    (set_end_time_from_text
       (with_ui (set_time_edit_end "00:00.200" (ui loaded_window)) loaded_window))
    (positionChanged 5000).

(** A 100 ms clip with the markers typed in at 5 and 6. *)
Definition narrow_window : MainWindow :=
  let w := notify (load_media fresh_window "/lib/clip.mp4") (durationChanged 100) in
  let w := set_end_time_from_text (with_ui (set_time_edit_end "00:00.006" (ui w)) w) in
  set_start_time_from_text (with_ui (set_time_edit_start "00:00.005" (ui w)) w).

(** The end handle of [narrow_window] pressed at pixel 21, then the mouse
    moved to pixel 8, shift held throughout. *)
Definition narrow_window_pressed : MainWindow :=
  mousePressEvent narrow_window (Py.Float 21) true.

Definition narrow_window_dragged : MainWindow :=
  mouseMoveEvent narrow_window_pressed (Py.Float 8) true.


(** The range [0, 3] on a track of 10 pixels. *)
Definition coarse_slider : ProTrimSlider := setRange (ProTrimSlider_init 26) 0 3.

Definition sample_item : QListWidgetItem :=
  {| text := "clip.mp4"; data := "/lib/clip.mp4"; icon := SP_MediaPlay |}.

Definition sample_worker : ThumbnailGenerator :=
  {| item := sample_item; media_path := "/lib/clip.mp4";
     thumb_path := "/cache/thumbnails/clip.jpg";
     worker_ffmpeg_path := "/usr/bin/ffmpeg" |}.

(** A transcoder that always fails and leaves a partial output behind. *)
Definition failing_run (command : list arg) (d : disk) : ended * disk :=
  (Exited 1 "" "Invalid data found when processing input",
   d ∪ {[ "/cache/partial.tmp"%string ]}).



(* ===================================================================== *)
(** ** The keyboard and the event loop *)
(* ===================================================================== *)

(** [event.key()], as far as [keyPressEvent] tells keys apart. *)
Inductive key : Type :=
| Key_Right
| Key_Left
| Key_Other.

(** [keyPressEvent(event)]; any other key goes to
    [QMainWindow.keyPressEvent]. *)
Definition keyPressEvent (w : MainWindow) (k : key) : MainWindow :=
  let frame_duration_ms := 33 in
  let current_pos := position (media_player w) in
  match k with
  | Key_Right =>
      with_media_player
        (Player.setPosition (media_player w) (current_pos + frame_duration_ms)) w
  | Key_Left =>
      with_media_player
        (Player.setPosition (media_player w) (Z.max 0 (current_pos - frame_duration_ms))) w
  | Key_Other => w
  end.

(** What reaches the player pane: a notification of the player, or
    something the user does there.  Each runs the method [setup_ui] connects
    to it; a text box is edited and then emits [editingFinished]. *)
Inductive event : Type :=
| Notified (n : notification)
| FileChosen (file_path : string)
| PlayClicked
| LoopToggled (checked : bool)
| SetStartClicked
| SetEndClicked
| StartEdited (new_text : string)
| EndEdited (new_text : string)
| MousePressed (ex : Py.num) (shift : bool)
| MouseMoved (ex : Py.num) (shift : bool)
| MouseReleased
| KeyPressed (k : key).

Definition handle (w : MainWindow) (e : event) : MainWindow :=
  match e with
  | Notified n => notify w n
  | FileChosen file_path => load_media w file_path
  | PlayClicked => play_media w
  | LoopToggled checked => with_ui (set_loop_checkbox checked (ui w)) w
  | SetStartClicked => set_start_time_from_playhead w
  | SetEndClicked => set_end_time_from_playhead w
  | StartEdited new_text =>
      set_start_time_from_text (with_ui (set_time_edit_start new_text (ui w)) w)
  | EndEdited new_text =>
      set_end_time_from_text (with_ui (set_time_edit_end new_text (ui w)) w)
  | MousePressed ex shift => mousePressEvent w ex shift
  | MouseMoved ex shift => mouseMoveEvent w ex shift
  | MouseReleased => mouseReleaseEvent w
  | KeyPressed k => keyPressEvent w k
  end.

(** The player reports positions and durations that fit a C [int], and a
    step to the right does not leave that range. *)
Definition expected (w : MainWindow) (e : event) : Prop :=
  match e with
  | Notified (positionChanged p) => 0 <= p < 2 ^ 31
  | Notified (durationChanged d) => 0 <= d < 2 ^ 31
  | KeyPressed Key_Right => position (media_player w) + 33 < 2 ^ 31
  | _ => True
  end.

Fixpoint expected_all (w : MainWindow) (es : list event) : Prop :=
  match es with
  | [] => True
  | e :: es => expected w e /\ expected_all (handle w e) es
  end.

(** The trim range is in order and the same in the window and on the
    slider; the slider's range starts at 0; everything fits a C [int]. *)
Definition trim_range_ok (w : MainWindow) : Prop :=
  let s := position_slider w in
  start_time_ms w = _start_marker s /\ end_time_ms w = _end_marker s
  /\ 0 <= start_time_ms w <= end_time_ms w /\ end_time_ms w < 2 ^ 31
  /\ _min_val s = 0 /\ 0 <= _max_val s < 2 ^ 31
  /\ 0 <= position (media_player w) < 2 ^ 31.

(** A session on [loaded_window]: the end handle is dragged, the start typed
    in, the end taken from the playhead, a step to the right, play, and an
    end typed in that lies before the start. *)
Definition sample_session : list event :=
  [MousePressed (Py.Float 107) false; MouseMoved (Py.Float 58) true; MouseReleased;
   StartEdited "00:02.000"; Notified (positionChanged 4000); SetEndClicked;
   KeyPressed Key_Right; PlayClicked; EndEdited "00:01.000"].


(* ===================================================================== *)
(** ** The cache pane *)
(* ===================================================================== *)

Definition SUPPORTED_MEDIA_TYPES : list string := VIDEO_EXTENSIONS ++ AUDIO_EXTENSIONS.

(** [load_cache]; [listing] is what [os.listdir(self.cache_dir)] returns,
    [None] when the directory does not exist. *)
Definition load_cache (w : MainWindow) (listing : option (list string)) : MainWindow :=
  let w := with_cache_list [] w in
  match listing with
  | None => w
  | Some filenames =>
      fold_left
        (fun w filename =>
           if has_extension (Py.lower filename) SUPPORTED_MEDIA_TYPES
           then add_to_cache_list w (Py.path_join (cache_dir w) filename)
           else w)
        filenames w
  end.

(** More of Python's strings and of [os.path] (posixpath). *)
Module PyPath.

(** [c in s] for a character. *)
Fixpoint has_char (c : ascii) (s : string) : bool :=
  match s with
  | EmptyString => false
  | String a r => Ascii.eqb a c || has_char c r
  end.

(** [s.rstrip(c)] *)
Fixpoint rstrip (c : ascii) (s : string) : string :=
  match s with
  | EmptyString => EmptyString
  | String a r =>
      match rstrip c r with
      | EmptyString => if Ascii.eqb a c then EmptyString else String a EmptyString
      | r' => String a r'
      end
  end.

(** [os.path.dirname(p)]: what precedes the last slash, without the slashes
    it ends in unless it consists of slashes only. *)
Definition dirname (p : string) : string :=
  let i := Py.after_last "/" p in
  let head := substring 0 i p in
  match rstrip "/" head with
  | EmptyString => head
  | stripped => stripped
  end.

End PyPath.

(** [on_cache_item_selected(item)]; [isfile] is [os.path.isfile]. *)
Definition on_cache_item_selected (w : MainWindow) (isfile : string -> bool)
    (it : QListWidgetItem) : MainWindow :=
  let file_path := data it in
  if negb (String.eqb file_path EmptyString) && isfile file_path
  then load_media w file_path
  else w.

(** [delete_cache_item]: [selected] is the row of the selected entry (the
    list has single selection), [yes] the answer to the confirmation and
    [removed] what [os.remove] does when it is called: [None] when it removes
    the file, the [OSError] otherwise. *)
Definition delete_cache_item (w : MainWindow) (selected : option nat) (yes : bool)
    (removed : option string) : MainWindow :=
  match selected with
  | None => w
  | Some row =>
      match cache_list w !! row with
      | None => w
      | Some it =>
          if yes then
            let file_path := data it in
            let w :=
              match current_media_path w with
              | Some current =>
                  if String.eqb current file_path then clear_player_state w else w
              | None => w
              end in
            match removed with
            | None => with_cache_list (delete row (cache_list w)) w
            | Some e =>
                logged (MessageBoxCritical "Delete Error"
                          ("Could not delete file: " ++ e)) w
            end
          else w
      end
  end.

(** [rename_cache_item]: [new_name] and [ok] are what the input dialog
    returns, [renamed] what [os.rename] does when it is called. *)
Definition rename_cache_item (w : MainWindow) (selected : option nat)
    (new_name : string) (ok : bool) (renamed : option string) : MainWindow :=
  match selected with
  | None => w
  | Some row =>
      match cache_list w !! row with
      | None => w
      | Some it =>
          let old_path := data it in
          let old_name := Py.basename old_path in
          if ok && negb (String.eqb new_name EmptyString)
             && negb (String.eqb new_name old_name) then
            let new_path := Py.path_join (PyPath.dirname old_path) new_name in
            match renamed with
            | None =>
                with_cache_list
                  (<[row := {| text := new_name; data := new_path; icon := icon it |}]>
                     (cache_list w)) w
            | Some e =>
                logged (MessageBoxCritical "Rename Error"
                          ("Could not rename file: " ++ e)) w
            end
          else w
      end
  end.

(** Each entry of the cache list is labelled with the name of its file. *)
Definition labelled_by_file (it : QListWidgetItem) : Prop :=
  text it = Py.basename (data it).


(** A cache directory with five files, listed at start-up; then its first
    entry double-clicked. *)
Definition sample_listing : list string :=
  ["b.mp4"; "notes.txt"; "a.WAV"; "B.MP4"; "c.mkv"].

Definition cached_window : MainWindow := load_cache fresh_window (Some sample_listing).

Definition cached_playing : MainWindow :=
  on_cache_item_selected cached_window (fun _ => true)
    {| text := "b.mp4"; data := "/cache/b.mp4"; icon := SP_MediaPlay |}.

(* ===================================================================== *)
(** ** The configuration file and the library list *)
(* ===================================================================== *)

(** What [json.load] returns: [None], a [bool], an [int], a [float], a
    [str], a [list] or a [dict] with string keys (in the order of the
    file). *)
#[warnings="-register-all"]
Inductive json : Type :=
| JNull
| JBool (b : bool)
| JInt (z : Z)
| JFloat (q : Q)
| JStr (s : string)
| JList (items : list json)
| JDict (members : list (string * json)).

(** [nexus_config.json]: absent, not JSON, or holding a JSON value. *)
Inductive config_file : Type :=
| NoFile
| NotJSON
| Holds (data : json).

(** [load_config]: the [dict] it returns. *)
Definition load_config (f : config_file) : list (string * json) :=
  match f with
  | Holds (JList data) =>
      [("library_paths", JList data);
       ("library_view_mode", JStr "thumbnails");
       ("cache_view_mode", JStr "thumbnails");
       ("volume", JInt 100)]%string
  | Holds (JDict data) => data
  | Holds _ => []
  | NotJSON => []
  | NoFile => []
  end.

(** [config.get(key, default)] *)
Fixpoint get (config : list (string * json)) (key : string) (default : json) : json :=
  match config with
  | [] => default
  | (k, v) :: rest => if String.eqb k key then v else get rest key default
  end.

(** The attributes [__init__] reads from the configuration and
    [save_config] writes back. *)
Record Settings : Type := {
  library_paths : json;
  library_view_mode : json;
  cache_view_mode : json;
  volume : json
}.

(** The four assignments of [__init__] that follow [self.config =
    self.load_config()]. *)
Definition MainWindow_settings (f : config_file) : Settings :=
  let config := load_config f in
  {| library_paths := get config "library_paths" (JList []);
     library_view_mode := get config "library_view_mode" (JStr "thumbnails");
     cache_view_mode := get config "cache_view_mode" (JStr "thumbnails");
     volume := get config "volume" (JInt 100) |}.

(** [save_config]: what [json.dump] writes, as the next [json.load] reads
    it. *)
Definition save_config (st : Settings) : config_file :=
  Holds (JDict [("library_paths", library_paths st);
                ("library_view_mode", library_view_mode st);
                ("cache_view_mode", cache_view_mode st);
                ("volume", volume st)]%string).

(** [set_library_view_mode(mode)] and [set_cache_view_mode(mode)] with
    [save=True], and [set_volume(value)], which does not save: the settings
    and the file afterwards. *)
Definition set_library_view_mode (st : Settings) (f : config_file) (mode : string)
  : Settings * config_file :=
  let st := {| library_paths := library_paths st; library_view_mode := JStr mode;
               cache_view_mode := cache_view_mode st; volume := volume st |} in
  (st, save_config st).

Definition set_cache_view_mode (st : Settings) (f : config_file) (mode : string)
  : Settings * config_file :=
  let st := {| library_paths := library_paths st;
               library_view_mode := library_view_mode st;
               cache_view_mode := JStr mode; volume := volume st |} in
  (st, save_config st).

Definition set_volume (st : Settings) (f : config_file) (value : Z)
  : Settings * config_file :=
  ({| library_paths := library_paths st; library_view_mode := library_view_mode st;
      cache_view_mode := cache_view_mode st; volume := JInt value |}, f).

(** A call returns, or raises an exception that no handler catches. *)
Inductive outcome (A : Type) : Type :=
| Returns (a : A)
| Raises (exception : string).

Arguments Returns {A} a.
Arguments Raises {A} exception.

(** [item == path] for an item of the configuration and a [str]. *)
Definition equals_str (path : string) (item : json) : bool :=
  match item with
  | JStr s => String.eqb s path
  | _ => false
  end.

(** [path in paths]: membership in a [list], substring of a [str], key of a
    [dict]; [None] when Python raises [TypeError]. *)
Definition contains (paths : json) (path : string) : option bool :=
  match paths with
  | JList items => Some (existsb (equals_str path) items)
  | JStr s => Some (match String.index 0 path s with Some _ => true | None => false end)
  | JDict members => Some (existsb (fun kv => String.eqb kv.1 path) members)
  | _ => None
  end.

(** [items.remove(path)] on a list that holds [path]. *)
Fixpoint remove (path : string) (items : list json) : list json :=
  match items with
  | [] => []
  | item :: rest => if equals_str path item then rest else item :: remove path rest
  end.

Definition with_library_paths (v : json) (st : Settings) : Settings :=
  {| library_paths := v; library_view_mode := library_view_mode st;
     cache_view_mode := cache_view_mode st; volume := volume st |}.

(** [add_library]: [folder_path] is what the folder dialog returns, the
    empty string when it was cancelled.  (The library tree is rebuilt
    afterwards, by [populate_libraries].) *)
Definition add_library (st : Settings) (f : config_file) (folder_path : string)
  : outcome (Settings * config_file) :=
  if String.eqb folder_path EmptyString then Returns (st, f)
  else
    match contains (library_paths st) folder_path with
    | None => Raises "TypeError"
    | Some true => Returns (st, f)
    | Some false =>
        match library_paths st with
        | JList items =>
            let st := with_library_paths (JList (items ++ [JStr folder_path])) st in
            Returns (st, save_config st)
        | _ => Raises "AttributeError"
        end
    end.

(** [remove_library]: [selected] is the path kept by the top-level item
    above the current index of the tree, [None] when there is no current
    index. *)
Definition remove_library (st : Settings) (f : config_file) (selected : option string)
  : outcome (Settings * config_file) :=
  match selected with
  | None => Returns (st, f)
  | Some path_to_remove =>
      match contains (library_paths st) path_to_remove with
      | None => Raises "TypeError"
      | Some false => Returns (st, f)
      | Some true =>
          match library_paths st with
          | JList items =>
              let st := with_library_paths (JList (remove path_to_remove items)) st in
              Returns (st, save_config st)
          | _ => Raises "AttributeError"
          end
      end
  end.


(** What the user does to the settings between start and close. *)
Inductive settings_event : Type :=
| LibraryAdded (folder_path : string)
| LibraryRemoved (selected : option string)
| LibraryViewMode (mode : string)
| CacheViewMode (mode : string)
| VolumeChanged (value : Z).

Definition settings_step (s : Settings * config_file) (e : settings_event)
  : outcome (Settings * config_file) :=
  match e with
  | LibraryAdded folder_path => add_library s.1 s.2 folder_path
  | LibraryRemoved selected => remove_library s.1 s.2 selected
  | LibraryViewMode mode => Returns (set_library_view_mode s.1 s.2 mode)
  | CacheViewMode mode => Returns (set_cache_view_mode s.1 s.2 mode)
  | VolumeChanged value => Returns (set_volume s.1 s.2 value)
  end.


Definition default_settings : Settings :=
  {| library_paths := JList []; library_view_mode := JStr "thumbnails";
     cache_view_mode := JStr "thumbnails"; volume := JInt 100 |}.

(** The library list is a list of distinct strings. *)
Definition library_list (st : Settings) (paths : list string) : Prop :=
  library_paths st = JList (JStr <$> paths) /\ NoDup paths.



(** A system on which the transcoder cannot be started. *)
Definition missing_program (command : list arg) (d : disk) : ended * disk :=
  (NotStarted "[Errno 2] No such file or directory: '/usr/bin/ffmpeg'", d).

(* ===================================================================== *)
(** ** The pulse of the trim range *)
(* ===================================================================== *)

(** [pulse_alpha] and [pulse_direction] of [ProTrimSlider]; [paintEvent]
    passes [pulse_alpha] to [QColor.setAlphaF]. *)
Record Pulse : Type := {
  pulse_alpha : Q;
  pulse_direction : Z
}.

(** Their values after [ProTrimSlider.__init__]. *)
Definition Pulse_init : Pulse := {| pulse_alpha := 1.0; pulse_direction := -1 |}.

(** [_animate_pulse], run by the timer every 50 ms.  The literal [0.05] is
    the binary64 number nearest to 1/20. *)
Definition _animate_pulse (p : Pulse) : Pulse :=
  let step := Py.Float (Py.fl 0.05) in
  let direction :=
    if Qle_bool (pulse_alpha p) 0.5 then 1
    else if Qle_bool 1.0 (pulse_alpha p) then -1
    else pulse_direction p in
  {| pulse_alpha :=
       Py.to_float (Py.add (Py.Float (pulse_alpha p)) (Py.mul step (Py.Int direction)));
     pulse_direction := direction |}.

(** The pulse after [n] ticks of the timer. *)
Definition pulse_after (n : nat) : Pulse := Nat.iter n _animate_pulse Pulse_init.

(* ===================================================================== *)
(** ** The library tree *)
(* ===================================================================== *)

(** What [os.scandir(path)] does: it yields the entries of the directory, or
    raises [OSError]. *)
Inductive scan (A : Type) : Type :=
| Entries (entries : list A)
| ScanError (oserror : string).

Arguments Entries {A} entries.
Arguments ScanError {A} oserror.

(** An entry of a directory: a file, or a directory with what scanning it
    does in turn. *)
#[warnings="-register-all"]
Inductive dir_entry : Type :=
| FileEntry (name : string)
| DirEntry (name : string) (content : scan dir_entry).

(** The icons of the tree: [QStyle.SP_DirIcon], [QStyle.SP_FileIcon] and the
    two media icons. *)
Inductive StandardIcon : Type :=
| SP_DirIcon
| SP_FileIcon
| MediaIcon (ic : QIcon).

(** An item of the library model: its text, its [Qt.UserRole] data, its icon
    if one was set, and its rows. *)
#[warnings="-register-all"]
Inductive QStandardItem : Type :=
| StandardItem (item_text item_data : string) (item_icon : option StandardIcon)
    (rows : list QStandardItem).

Definition item_text (it : QStandardItem) : string :=
  match it with StandardItem t _ _ _ => t end.

Definition item_data (it : QStandardItem) : string :=
  match it with StandardItem _ d _ _ => d end.

Definition rows (it : QStandardItem) : list QStandardItem :=
  match it with StandardItem _ _ _ r => r end.

(** The body of the loop of [populate_directory] for one entry: the window
    afterwards and the item appended to the parent. *)
Fixpoint populate_entry (w : MainWindow) (dir_path : string) (entry : dir_entry)
  : MainWindow * QStandardItem :=
  match entry with
  | DirEntry name content =>
      let entry_path := Py.path_join dir_path name in
      let '(w, appended) :=
        match content with
        | Entries entries =>
            (fix populate_entries (w : MainWindow) (entries : list dir_entry)
               : MainWindow * list QStandardItem :=
               match entries with
               | [] => (w, [])
               | entry :: entries =>
                   let '(w, it) := populate_entry w entry_path entry in
                   let '(w, its) := populate_entries w entries in
                   (w, it :: its)
               end) w entries
        | ScanError e =>
            (logged (Printed ("Error scanning directory " ++ entry_path ++ ": " ++ e)) w,
             [])
        end in
      (w, StandardItem name entry_path (Some SP_DirIcon) appended)
  | FileEntry name =>
      let entry_path := Py.path_join dir_path name in
      let file_lower := Py.lower name in
      if has_extension file_lower VIDEO_EXTENSIONS then
        let w :=
          match ffmpeg_path w with
          | Some ffmpeg =>
              if String.eqb ffmpeg EmptyString then w
              else request_thumbnail w ffmpeg
                     {| text := name; data := entry_path; icon := SP_MediaPlay |}
                     entry_path
          | None => w
          end in
        (w, StandardItem name entry_path (Some (MediaIcon SP_MediaPlay)) [])
      else if has_extension file_lower AUDIO_EXTENSIONS then
        (w, StandardItem name entry_path (Some (MediaIcon SP_MediaVolume)) [])
      else
        (w, StandardItem name entry_path (Some SP_FileIcon) [])
  end.

(** The loop over the entries of one directory. *)
Fixpoint populate_entries (w : MainWindow) (dir_path : string) (entries : list dir_entry)
  : MainWindow * list QStandardItem :=
  match entries with
  | [] => (w, [])
  | entry :: entries =>
      let '(w, it) := populate_entry w dir_path entry in
      let '(w, its) := populate_entries w dir_path entries in
      (w, it :: its)
  end.

(** [populate_directory(parent_item, dir_path)]: the window afterwards and
    the rows appended to [parent_item]. *)
Definition populate_directory (w : MainWindow) (dir_path : string)
    (content : scan dir_entry) : MainWindow * list QStandardItem :=
  match content with
  | Entries entries => populate_entries w dir_path entries
  | ScanError e =>
      (logged (Printed ("Error scanning directory " ++ dir_path ++ ": " ++ e)) w, [])
  end.

(** The folder emoji U+1F4C1 and a space, in UTF-8. *)
Definition folder_label : string :=
  String "240" (String "159" (String "147" (String "129" (String " " EmptyString)))).

(** [populate_libraries]: each library path comes with what the file system
    holds there, [None] when [os.path.isdir] is false.  The rows of the
    model's root. *)
Fixpoint populate_libraries (w : MainWindow)
    (libraries : list (string * option (scan dir_entry)))
  : MainWindow * list QStandardItem :=
  match libraries with
  | [] => (w, [])
  | (path, None) :: libraries => populate_libraries w libraries
  | (path, Some content) :: libraries =>
      let '(w, appended) := populate_directory w path content in
      let lib_item := StandardItem (folder_label ++ Py.basename path) path None appended in
      let '(w, its) := populate_libraries w libraries in
      (w, lib_item :: its)
  end.

(** [RecursiveFilterProxyModel.filterAcceptsRow]; [filter_accepts_row_itself]
    is [QSortFilterProxyModel.filterAcceptsRow], the test of the row's own
    text against the search text. *)
Fixpoint filterAcceptsRow (filter_accepts_row_itself : QStandardItem -> bool)
    (row : QStandardItem) : bool :=
  match row with
  | StandardItem _ _ _ children =>
      if filter_accepts_row_itself row then true
      else existsb (filterAcceptsRow filter_accepts_row_itself) children
  end.

(** [on_file_selected(proxy_index)]: [item] is the item of the index, [None]
    when the model has none there. *)
Definition on_file_selected (w : MainWindow) (isfile : string -> bool)
    (item : option QStandardItem) : MainWindow :=
  match item with
  | Some it =>
      let file_path := item_data it in
      if negb (String.eqb file_path EmptyString) && isfile file_path
      then load_media w file_path
      else w
  | None => w
  end.

(** An item and all the items below it, each before its rows. *)
Fixpoint subtree (it : QStandardItem) : list QStandardItem :=
  match it with
  | StandardItem _ _ _ children => it :: flat_map subtree children
  end.





(** A library folder: two clips, a folder that cannot be read, notes. *)
Definition sample_library : scan dir_entry :=
  Entries [FileEntry "intro.MP4";
           DirEntry "locked" (ScanError "[Errno 13] Permission denied");
           DirEntry "takes" (Entries [FileEntry "one.mkv"; FileEntry "one.wav"]);
           FileEntry "notes.txt"].


(** Two library paths; the second is no directory any more. *)
Definition sample_libraries : list (string * option (scan dir_entry)) :=
  [("/media/clips"%string, Some sample_library); ("/media/gone"%string, None)].

(** Two pixel positions of the same Python type, both [int] or both
    [float]. *)
Definition same_type (x y : Py.num) : Prop :=
  match x, y with
  | Py.Int _, Py.Int _ => True
  | Py.Float _, Py.Float _ => True
  | _, _ => False
  end.


(* ===================================================================== *)
(** * Properties *)
(* ===================================================================== *)

(** ** Floating point *)
Module PyFacts.

Local Open Scope Q_scope.

Local Abbreviation u := unit_roundoff.

(** *** Rounding to the nearest integer *)

Lemma round_half_even_cases (x : Q) :
  Py.round_half_even x = Qfloor x \/ Py.round_half_even x = (Qfloor x + 1)%Z.
Proof.
  unfold Py.round_half_even.
  destruct (Qcompare _ _); [destruct (Z.even _)| |]; auto.
Qed.

Lemma round_half_even_error (x : Q) :
  Qabs (inject_Z (Py.round_half_even x) - x) <= 1 # 2.
Proof.
  pose proof (Qfloor_le x) as Hlo. pose proof (Qlt_floor x) as Hhi.
  rewrite inject_Z_plus in Hhi. change (inject_Z 1) with 1 in Hhi.
  apply Qabs_Qle_condition.
  unfold Py.round_half_even.
  destruct (Qcompare_spec (x - inject_Z (Qfloor x)) (1 # 2)) as [E|L|G].
  - destruct (Z.even (Qfloor x)); rewrite ?inject_Z_plus;
      change (inject_Z 1) with 1; split; lra.
  - split; lra.
  - rewrite inject_Z_plus. change (inject_Z 1) with 1. split; lra.
Qed.

Lemma round_half_even_nonneg (x : Q) : 0 <= x -> (0 <= Py.round_half_even x)%Z.
Proof.
  intros Hx. assert (F : (0 <= Qfloor x)%Z).
  { change 0%Z with (Qfloor 0). apply Qfloor_resp_le. exact Hx. }
  destruct (round_half_even_cases x) as [-> | ->]; lia.
Qed.

Lemma round_half_even_integer (x : Q) (z : Z) :
  x == inject_Z z -> Py.round_half_even x = z.
Proof.
  intros E. unfold Py.round_half_even.
  assert (F : Qfloor x = z) by (rewrite (Qfloor_comp _ _ E); apply Qfloor_Z).
  rewrite F.
  destruct (Qcompare_spec (x - inject_Z z) (1 # 2)) as [H|H|H]; try reflexivity; lra.
Qed.

(** *** Powers of two *)

Lemma pow2_pos (e : Z) : 0 < 2 ^ e.
Proof. apply Qpower_0_lt. reflexivity. Qed.

Lemma pow2_plus (a b : Z) : 2 ^ (a + b) == 2 ^ a * 2 ^ b.
Proof. apply Qpower_plus. discriminate. Qed.

Lemma pow2_nonneg_exp (e : Z) : (0 <= e)%Z -> 2 ^ e == inject_Z (2 ^ e).
Proof. intros He. symmetry. apply (Zpower_Qpower 2 e He). Qed.

Lemma pow2_neg_exp (e : Z) : (e <= 0)%Z -> 2 ^ e * inject_Z (2 ^ (- e)) == 1.
Proof.
  intros He. rewrite <- pow2_nonneg_exp by lia.
  rewrite <- pow2_plus. replace (e + - e)%Z with 0%Z by lia. reflexivity.
Qed.

(** *** The binary exponent *)

Lemma Qabs_as_fraction (q : Q) :
  Qabs q * inject_Z (Zpos (Qden q)) == inject_Z (Z.abs (Qnum q)).
Proof.
  destruct q as [n d]. unfold Qabs, Qeq, Qmult, inject_Z. cbn. lia.
Qed.

Lemma ilog2_le (q : Q) : ~ q == 0 -> 2 ^ Py.ilog2 q <= Qabs q.
Proof.
  intros Hq.
  pose proof (Qabs_as_fraction q) as F.
  set (n := Z.abs (Qnum q)) in *. set (d := Zpos (Qden q)) in *.
  assert (Hn : (0 < n)%Z).
  { subst n. destruct q as [a b]. unfold Qeq in Hq. cbn in *. lia. }
  assert (Hd : (0 < d)%Z) by (subst d; lia).
  assert (Hdq : 0 < inject_Z d) by (change 0 with (inject_Z 0); rewrite <- Zlt_Qlt; exact Hd).
  destruct (Z.log2_spec n Hn) as [Ln Un]. destruct (Z.log2_spec d Hd) as [Ld Ud].
  (* it is enough to compare integers: 2^k * d <= n *)
  assert (K : forall k : Z,
             (if (0 <=? k)%Z then (d * 2 ^ k <=? n)%Z else (d <=? n * 2 ^ (- k))%Z) = true ->
             2 ^ k <= Qabs q).
  { intros k Hk. destruct (0 <=? k)%Z eqn:Ek.
    - apply Z.leb_le in Ek, Hk. rewrite pow2_nonneg_exp by exact Ek.
      apply (Qmult_le_r _ _ (inject_Z d) Hdq). rewrite F.
      rewrite <- inject_Z_mult. rewrite <- Zle_Qle. lia.
    - apply Z.leb_gt in Ek. apply Z.leb_le in Hk.
      pose proof (pow2_neg_exp k ltac:(lia)) as P.
      assert (Pp : 0 < inject_Z (2 ^ (- k))).
      { change 0 with (inject_Z 0). rewrite <- Zlt_Qlt. apply Z.pow_pos_nonneg; lia. }
      apply (Qmult_le_r _ _ (inject_Z d * inject_Z (2 ^ (- k)))).
      { apply Qmult_lt_0_compat; assumption. }
      setoid_replace (2 ^ k * (inject_Z d * inject_Z (2 ^ (- k))))
        with (inject_Z d * (2 ^ k * inject_Z (2 ^ (- k)))) using relation Qeq by ring.
      rewrite P.
      setoid_replace (Qabs q * (inject_Z d * inject_Z (2 ^ (- k))))
        with ((Qabs q * inject_Z d) * inject_Z (2 ^ (- k))) using relation Qeq by ring.
      rewrite F. rewrite <- inject_Z_mult. rewrite Qmult_1_r. rewrite <- Zle_Qle. exact Hk. }
  unfold Py.ilog2. fold n d.
  set (e := (Z.log2 n - Z.log2 d)%Z) in *.
  destruct (if (0 <=? e)%Z then (d * 2 ^ e <=? n)%Z else (d <=? n * 2 ^ (- e))%Z) eqn:T.
  - apply K. exact T.
  - apply K.
    pose proof (Z.log2_nonneg n) as Nn. pose proof (Z.log2_nonneg d) as Nd.
    destruct (0 <=? e - 1)%Z eqn:Ek.
    + apply Z.leb_le in Ek. apply Z.leb_le.
      assert (P : (2 ^ Z.log2 n = 2 ^ (Z.log2 d + 1) * 2 ^ (e - 1))%Z).
      { rewrite <- Z.pow_add_r by lia. f_equal. subst e. lia. }
      assert (Q2 : (0 < 2 ^ (e - 1))%Z) by (apply Z.pow_pos_nonneg; lia).
      rewrite <- Z.add_1_r in Ud. nia.
    + apply Z.leb_gt in Ek. apply Z.leb_le.
      replace (- (e - 1))%Z with (Z.log2 d + 1 - Z.log2 n)%Z by (subst e; lia).
      assert (P : (2 ^ (Z.log2 d + 1) = 2 ^ Z.log2 n * 2 ^ (Z.log2 d + 1 - Z.log2 n))%Z).
      { rewrite <- Z.pow_add_r by (subst e; lia). f_equal. lia. }
      assert (Q2 : (0 < 2 ^ (Z.log2 d + 1 - Z.log2 n))%Z)
        by (apply Z.pow_pos_nonneg; subst e; lia).
      rewrite <- Z.add_1_r in Ud. nia.
Qed.

(** With [ilog2_le]: [ilog2 q] is the exponent of [q], so [fl] rounds [q]
    to 53 significant bits. *)
Lemma ilog2_lt (q : Q) : ~ q == 0 -> Qabs q < 2 ^ (Py.ilog2 q + 1).
Proof.
  intros Hq.
  pose proof (Qabs_as_fraction q) as F.
  set (n := Z.abs (Qnum q)) in *. set (d := Zpos (Qden q)) in *.
  assert (Hn : (0 < n)%Z).
  { subst n. destruct q as [a b]. unfold Qeq in Hq. cbn in *. lia. }
  assert (Hd : (0 < d)%Z) by (subst d; lia).
  assert (Hdq : 0 < inject_Z d) by (change 0 with (inject_Z 0); rewrite <- Zlt_Qlt; exact Hd).
  destruct (Z.log2_spec n Hn) as [Ln Un]. destruct (Z.log2_spec d Hd) as [Ld Ud].
  rewrite <- Z.add_1_r in Un, Ud.
  assert (K : forall k : Z,
             (if (0 <=? k)%Z then (d * 2 ^ k <=? n)%Z else (d <=? n * 2 ^ (- k))%Z) = false ->
             Qabs q < 2 ^ k).
  { intros k Hk. destruct (0 <=? k)%Z eqn:Ek.
    - apply Z.leb_le in Ek. apply Z.leb_gt in Hk. rewrite pow2_nonneg_exp by exact Ek.
      apply (Qmult_lt_r _ _ (inject_Z d) Hdq). rewrite F.
      rewrite <- inject_Z_mult. rewrite <- Zlt_Qlt. lia.
    - apply Z.leb_gt in Ek. apply Z.leb_gt in Hk.
      pose proof (pow2_neg_exp k ltac:(lia)) as P.
      assert (Pp : 0 < inject_Z (2 ^ (- k))).
      { change 0 with (inject_Z 0). rewrite <- Zlt_Qlt. apply Z.pow_pos_nonneg; lia. }
      apply (Qmult_lt_r _ _ (inject_Z d * inject_Z (2 ^ (- k)))).
      { apply Qmult_lt_0_compat; assumption. }
      setoid_replace (2 ^ k * (inject_Z d * inject_Z (2 ^ (- k))))
        with (inject_Z d * (2 ^ k * inject_Z (2 ^ (- k)))) using relation Qeq by ring.
      rewrite P.
      setoid_replace (Qabs q * (inject_Z d * inject_Z (2 ^ (- k))))
        with ((Qabs q * inject_Z d) * inject_Z (2 ^ (- k))) using relation Qeq by ring.
      rewrite F. rewrite <- inject_Z_mult. rewrite Qmult_1_r. rewrite <- Zlt_Qlt. exact Hk. }
  unfold Py.ilog2. fold n d.
  set (e := (Z.log2 n - Z.log2 d)%Z) in *.
  pose proof (Z.log2_nonneg n) as Nn. pose proof (Z.log2_nonneg d) as Nd.
  destruct (if (0 <=? e)%Z then (d * 2 ^ e <=? n)%Z else (d <=? n * 2 ^ (- e))%Z) eqn:T.
  - apply K. destruct (0 <=? e + 1)%Z eqn:Ek.
    + apply Z.leb_le in Ek. apply Z.leb_gt.
      assert (P : (2 ^ (Z.log2 n + 1) = 2 ^ Z.log2 d * 2 ^ (e + 1))%Z).
      { rewrite <- Z.pow_add_r by lia. f_equal. subst e. lia. }
      assert (Q2 : (0 < 2 ^ (e + 1))%Z) by (apply Z.pow_pos_nonneg; lia).
      nia.
    + apply Z.leb_gt in Ek. apply Z.leb_gt.
      replace (- (e + 1))%Z with (Z.log2 d - (Z.log2 n + 1))%Z by (subst e; lia).
      assert (P : (2 ^ Z.log2 d
                   = 2 ^ (Z.log2 n + 1) * 2 ^ (Z.log2 d - (Z.log2 n + 1)))%Z).
      { rewrite <- Z.pow_add_r by (subst e; lia). f_equal. lia. }
      assert (Q2 : (0 < 2 ^ (Z.log2 d - (Z.log2 n + 1)))%Z)
        by (apply Z.pow_pos_nonneg; subst e; lia).
      nia.
  - replace (e - 1 + 1)%Z with e by lia. apply K. exact T.
Qed.

(** *** Rounding to binary64 *)


Lemma fl_zero (q : Q) : q == 0 -> Py.fl q = 0.
Proof.
  intros Hq. unfold Py.fl. apply Qeq_bool_iff in Hq. rewrite Hq. reflexivity.
Qed.

Lemma fl_nonzero (q : Q) :
  ~ q == 0 ->
  Py.fl q
  = inject_Z (Py.round_half_even (q / 2 ^ (Z.max (Py.ilog2 q) Py.emin - 52)))
    * 2 ^ (Z.max (Py.ilog2 q) Py.emin - 52).
Proof.
  intros Hq. unfold Py.fl.
  destruct (Qeq_bool q 0) eqn:E; [apply Qeq_bool_iff in E; contradiction|].
  reflexivity.
Qed.

(** Rounding moves a number by at most [u] times its magnitude, or by
    [2 ^ -1075] in the subnormal range; [u * (|q| + 1)] covers both. *)
Lemma fl_error (q : Q) : Qabs (Py.fl q - q) <= u * (Qabs q + 1).
Proof.
  pose proof (Qabs_nonneg q) as Aq.
  destruct (Qeq_dec q 0) as [Hq|Hq].
  - rewrite (fl_zero q Hq). rewrite Hq. cbn. unfold unit_roundoff. unfold Qle. cbn. lia.
  - rewrite (fl_nonzero q Hq).
    set (e := (Z.max (Py.ilog2 q) Py.emin - 52)%Z).
    pose proof (pow2_pos e) as Pe.
    pose proof (round_half_even_error (q / 2 ^ e)) as R.
    set (r := inject_Z (Py.round_half_even (q / 2 ^ e))) in *.
    assert (S : r * 2 ^ e - q == (r - q / 2 ^ e) * 2 ^ e).
    { field. intros Z. rewrite Z in Pe. apply (Qlt_irrefl 0). exact Pe. }
    rewrite S. rewrite Qabs_Qmult. rewrite (Qabs_pos (2 ^ e)) by (apply Qlt_le_weak; exact Pe).
    assert (B : 2 ^ e * (1 # 2) <= u * (Qabs q + 1)).
    { pose proof (ilog2_le q Hq) as L.
      destruct (Z.max_spec (Py.ilog2 q) Py.emin) as [[_ M]|[_ M]].
      - (* subnormal: e = -1074 *)
        subst e. rewrite M. unfold Py.emin.
        assert (C : 2 ^ (-1022 - 52) * (1 # 2) <= u) by (vm_compute; discriminate).
        assert (D : u <= u * (Qabs q + 1)).
        { setoid_replace u with (u * 1) using relation Qeq at 1 by ring.
          apply Qmult_le_l; [reflexivity | lra]. }
        lra.
      - subst e. rewrite M.
        replace (Py.ilog2 q - 52)%Z with (Py.ilog2 q + -52)%Z by lia.
        rewrite pow2_plus.
        assert (C : 2 ^ (-52) * (1 # 2) == u) by reflexivity.
        setoid_replace (2 ^ Py.ilog2 q * 2 ^ (-52) * (1 # 2))
          with (2 ^ Py.ilog2 q * (2 ^ (-52) * (1 # 2))) using relation Qeq by ring.
        rewrite C. rewrite (Qmult_comm _ u).
        apply Qmult_le_l; [reflexivity | lra]. }
    apply Qle_trans with (2 ^ e * (1 # 2)); [|exact B].
    rewrite (Qmult_comm (2 ^ e)).
    apply Qmult_le_compat_r; [exact R | apply Qlt_le_weak; exact Pe].
Qed.

Lemma fl_nonneg (q : Q) : 0 <= q -> 0 <= Py.fl q.
Proof.
  intros Hq. destruct (Qeq_dec q 0) as [Z|N].
  - rewrite (fl_zero q Z). apply Qle_refl.
  - rewrite (fl_nonzero q N).
    set (e := (Z.max (Py.ilog2 q) Py.emin - 52)%Z).
    pose proof (pow2_pos e) as Pe.
    apply Qmult_le_0_compat; [|apply Qlt_le_weak; exact Pe].
    change 0 with (inject_Z 0). rewrite <- Zle_Qle.
    apply round_half_even_nonneg.
    apply Qle_shift_div_l; [exact Pe|]. rewrite Qmult_0_l. exact Hq.
Qed.

Lemma ilog2_integer (z : Z) : z <> 0%Z -> Py.ilog2 (inject_Z z) = Z.log2 (Z.abs z).
Proof.
  intros Hz. unfold Py.ilog2. cbn [Qnum Qden inject_Z].
  change (Z.log2 1) with 0%Z. rewrite Z.sub_0_r.
  pose proof (Z.log2_nonneg (Z.abs z)) as N.
  destruct (Z.log2_spec (Z.abs z) ltac:(lia)) as [L _].
  assert (A : (0 <=? Z.log2 (Z.abs z))%Z = true) by (apply Z.leb_le; exact N).
  rewrite A.
  assert (B : (1 * 2 ^ Z.log2 (Z.abs z) <=? Z.abs z)%Z = true) by (apply Z.leb_le; lia).
  rewrite B. reflexivity.
Qed.

(** An integer below [2 ^ 53] in magnitude is a binary64 number. *)
Lemma fl_integer (z : Z) : (Z.abs z < 2 ^ 53)%Z -> Py.fl (inject_Z z) == inject_Z z.
Proof.
  intros Hz. destruct (Z.eq_dec z 0%Z) as [->|N].
  - reflexivity.
  - assert (NQ : ~ inject_Z z == 0).
    { intros E. apply N. unfold Qeq in E. cbn in E. lia. }
    rewrite (fl_nonzero _ NQ). rewrite (ilog2_integer z N).
    set (l := Z.log2 (Z.abs z)).
    assert (Hl : (0 <= l < 53)%Z).
    { split; [apply Z.log2_nonneg|]. apply Z.log2_lt_pow2; lia. }
    rewrite Z.max_l by (unfold Py.emin; lia).
    pose proof (pow2_neg_exp (l - 52) ltac:(lia)) as P.
    pose proof (pow2_pos (l - 52)) as Pe.
    set (a := 2 ^ (l - 52)) in *. set (b := inject_Z (2 ^ (- (l - 52)))) in *.
    assert (Na : ~ a == 0).
    { intros Z. rewrite Z in Pe. apply (Qlt_irrefl 0). exact Pe. }
    assert (Ia : / a == b).
    { rewrite <- (Qmult_1_l (/ a)). rewrite <- P. field. exact Na. }
    assert (X : inject_Z z / a == inject_Z (z * 2 ^ (- (l - 52)))).
    { rewrite inject_Z_mult. fold b. unfold Qdiv. rewrite Ia. reflexivity. }
    rewrite (round_half_even_integer _ _ X).
    rewrite inject_Z_mult. fold b.
    setoid_replace (inject_Z z * b * a) with (inject_Z z * (a * b)) using relation Qeq by ring.
    rewrite P. ring.
Qed.

(** *** [int()] of a float *)

Lemma trunc_nonneg (q : Q) :
  0 <= q -> inject_Z (Py.trunc q) <= q /\ q < inject_Z (Py.trunc q) + 1.
Proof.
  intros Hq. assert (E : Py.trunc q = Qfloor q).
  { unfold Py.trunc, Qfloor. destruct q as [n d]. cbn [Qnum Qden].
    apply Z.quot_div_nonneg; [|lia]. unfold Qle in Hq. cbn in Hq. lia. }
  rewrite E. split; [apply Qfloor_le|].
  pose proof (Qlt_floor q) as H. rewrite inject_Z_plus in H. exact H.
Qed.

Lemma trunc_nonpos (q : Q) :
  q <= 0 -> q <= inject_Z (Py.trunc q) /\ inject_Z (Py.trunc q) < q + 1.
Proof.
  intros Hq. assert (E : Py.trunc q = Qceiling q).
  { unfold Py.trunc, Qceiling, Qfloor. destruct q as [n d]. cbn [Qnum Qden Qopp].
    unfold Qle in Hq. cbn in Hq.
    rewrite <- (Z.quot_div_nonneg (- n) (Z.pos d)) by lia.
    rewrite Z.quot_opp_l by lia. rewrite Z.opp_involutive. reflexivity. }
  rewrite E. split; [apply Qle_ceiling|].
  pose proof (Qceiling_lt q) as H. unfold Z.sub in H. rewrite inject_Z_plus in H.
  rewrite inject_Z_opp in H. change (inject_Z 1) with 1 in H. lra.
Qed.

(** The bounds [fl_error] gives for an argument known up to [==]. *)
Lemma fl_bounds (p p' b : Q) :
  p == p' -> - b <= p' <= b ->
  p' - u * (b + 1) <= Py.fl p <= p' + u * (b + 1).
Proof.
  intros E Hb. pose proof (fl_error p) as F.
  apply Qabs_Qle_condition in F.
  assert (A : Qabs p <= b).
  { rewrite E. apply Qabs_Qle_condition. exact Hb. }
  assert (U : u * (Qabs p + 1) <= u * (b + 1)).
  { apply Qmult_le_l; [reflexivity | lra]. }
  split; lra.
Qed.

Lemma fl_bounds_nonneg (p p' : Q) :
  p == p' -> 0 <= p' ->
  p' - u * (p' + 1) <= Py.fl p <= p' + u * (p' + 1) /\ 0 <= Py.fl p.
Proof.
  intros E Hp. split.
  - apply fl_bounds; [exact E | lra].
  - apply fl_nonneg. rewrite E. exact Hp.
Qed.

Lemma trunc_near (q : Q) : q - 1 < inject_Z (Py.trunc q) < q + 1.
Proof.
  destruct (Qlt_le_dec q 0) as [N|P].
  - destruct (trunc_nonpos q) as [A B]; [lra|]. lra.
  - destruct (trunc_nonneg q P) as [A B]. lra.
Qed.

(** *** Five roundings and two truncations

    The arithmetic of [_pos_to_value (_value_to_pos v)], over any numbers
    that satisfy the rounding bounds: [D] is [v - min], [Rq] the range, [Tq]
    the track width and [a] a bound on [|min|]. *)
Section RoundTrip.
Variables D Rq Tq Mn a t q1 x K w q2 y val r0 : Q.
Hypothesis HD : 0 <= D <= Rq.
Hypothesis HR : 1 <= Rq.
Hypothesis HT : 1 <= Tq.
Hypothesis Ha : - a <= Mn <= a.
Hypothesis Ht : t * Rq == D.
Hypothesis H1 : t - u * (t + 1) <= q1 <= t + u * (t + 1).
Hypothesis H1p : 0 <= q1.
Hypothesis H2 : q1 * Tq - u * (q1 * Tq + 1) <= x <= q1 * Tq + u * (q1 * Tq + 1).
Hypothesis H2p : 0 <= x.
Hypothesis H3 : K <= x < K + 1.
Hypothesis H3p : 0 <= K.
Hypothesis Hw : w * Tq == K.
Hypothesis H4 : w - u * (w + 1) <= q2 <= w + u * (w + 1).
Hypothesis H4p : 0 <= q2.
Hypothesis H5 : q2 * Rq - u * (q2 * Rq + 1) <= y <= q2 * Rq + u * (q2 * Rq + 1).
Hypothesis H6 : Mn + y - u * (a + y + 1) <= val <= Mn + y + u * (a + y + 1).
Hypothesis H7 : val - 1 < r0 < val + 1.
Hypothesis HB : (a + Rq) * Tq <= 281474976710656.

Lemma t_bounds : 0 <= t <= 1.
Proof. split; nra. Qed.

Lemma q1_bounds : t - 2 * u <= q1 <= t + 2 * u.
Proof. pose proof t_bounds. unfold unit_roundoff in *. split; nra. Qed.

Lemma x_bounds : t * Tq - 5 * u * Tq <= x <= t * Tq + 5 * u * Tq.
Proof.
  pose proof t_bounds. pose proof q1_bounds. unfold unit_roundoff in *.
  assert (P : q1 * Tq <= t * Tq + 2 * (1 # 9007199254740992) * Tq) by nra.
  assert (P' : t * Tq - 2 * (1 # 9007199254740992) * Tq <= q1 * Tq) by nra.
  assert (P'' : t * Tq <= Tq) by nra.
  split; nra.
Qed.

Lemma K_bounds : t * Tq - 5 * u * Tq - 1 < K <= t * Tq + 5 * u * Tq.
Proof. pose proof x_bounds. split; lra. Qed.

Lemma w_bounds : 0 <= w <= 2.
Proof.
  pose proof K_bounds as HK. pose proof t_bounds.
  rewrite <- Hw in HK. pose proof H3p as Kp. rewrite <- Hw in Kp.
  unfold unit_roundoff in *. split; nra.
Qed.

(** [w * Rq], the value of pixel [K], is within a pixel's worth of [D]. *)
Lemma wR_bounds : D - Rq * / Tq - 5 * u * Rq < w * Rq /\ w * Rq <= D + 5 * u * Rq.
Proof.
  pose proof K_bounds as HK. pose proof t_bounds.
  assert (I : 0 < / Tq) by (apply Qinv_lt_0_compat; lra).
  assert (J : / Tq * Tq == 1) by (field; lra).
  rewrite <- Hw in HK. destruct HK as [Klo Khi].
  assert (Lo : t - 5 * u - / Tq < w).
  { assert (L1 : (t - 5 * u - / Tq) * Tq < w * Tq).
    { setoid_replace ((t - 5 * u - / Tq) * Tq) with (t * Tq - 5 * u * Tq - / Tq * Tq)
        using relation Qeq by ring.
      rewrite J. exact Klo. }
    apply (Qmult_lt_r _ _ Tq); [lra | exact L1]. }
  assert (Hi : w <= t + 5 * u).
  { apply (Qmult_le_r _ _ Tq); [lra|].
    setoid_replace ((t + 5 * u) * Tq) with (t * Tq + 5 * u * Tq) using relation Qeq by ring.
    exact Khi. }
  split.
  - assert (M : (t - 5 * u - / Tq) * Rq < w * Rq) by (apply Qmult_lt_r; [lra | exact Lo]).
    setoid_replace (D - Rq * / Tq - 5 * u * Rq) with ((t - 5 * u - / Tq) * Rq)
      using relation Qeq by (rewrite <- Ht; ring).
    exact M.
  - assert (M : w * Rq <= (t + 5 * u) * Rq) by (apply Qmult_le_compat_r; [exact Hi | lra]).
    setoid_replace (D + 5 * u * Rq) with ((t + 5 * u) * Rq)
      using relation Qeq by (rewrite <- Ht; ring).
    exact M.
Qed.

Lemma q2_bounds : w - 3 * u <= q2 <= w + 3 * u.
Proof. pose proof w_bounds. unfold unit_roundoff in *. split; nra. Qed.

Lemma y_bounds : w * Rq - 7 * u * Rq <= y <= w * Rq + 7 * u * Rq /\ y <= 3 * Rq.
Proof.
  pose proof w_bounds. pose proof q2_bounds as [Q1 Q2]. unfold unit_roundoff in *.
  assert (P : q2 * Rq <= w * Rq + 3 * (1 # 9007199254740992) * Rq) by nra.
  assert (P' : w * Rq - 3 * (1 # 9007199254740992) * Rq <= q2 * Rq) by nra.
  assert (P'' : w * Rq <= 2 * Rq) by nra.
  repeat split; nra.
Qed.

Lemma val_bounds :
  Mn + D - Rq * / Tq - u * (a + 17 * Rq) < val /\ val <= Mn + D + u * (a + 17 * Rq).
Proof.
  pose proof wR_bounds as [W1 W2]. pose proof y_bounds as [[Y1 Y2] Y3].
  assert (Y0 : 0 <= a) by lra.
  unfold unit_roundoff in *. split; nra.
Qed.

(** The outcome: [r0] is above [V] by less than 2, and below it by less than
    a pixel's worth of value plus one, up to [1 / Tq]. *)
Lemma r0_bounds :
  Tq * (Mn + D - r0) < Rq + Tq + 1 /\ r0 - (Mn + D) < 2.
Proof.
  pose proof val_bounds as [V1 V2].
  assert (I : 0 < / Tq) by (apply Qinv_lt_0_compat; lra).
  assert (J : Tq * / Tq == 1) by (field; lra).
  assert (Y0 : 0 <= a) by lra.
  assert (Pa : 0 <= a * Tq) by (apply Qmult_le_0_compat; lra).
  assert (Pr : 0 <= Rq * Tq) by (apply Qmult_le_0_compat; lra).
  assert (HB' : a * Tq + Rq * Tq <= 281474976710656).
  { setoid_replace (a * Tq + Rq * Tq) with ((a + Rq) * Tq) using relation Qeq by ring.
    exact HB. }
  assert (E : Tq * (u * (a + 17 * Rq)) <= 1).
  { setoid_replace (Tq * (u * (a + 17 * Rq))) with (u * (a * Tq + 17 * (Rq * Tq)))
      using relation Qeq by ring.
    unfold unit_roundoff. lra. }
  assert (E' : u * (a + 17 * Rq) <= 1).
  { apply Qle_trans with (Tq * (u * (a + 17 * Rq))); [|exact E].
    assert (N : 0 <= u * (a + 17 * Rq)).
    { apply Qmult_le_0_compat; [unfold unit_roundoff; lra | lra]. }
    setoid_replace (u * (a + 17 * Rq)) with (1 * (u * (a + 17 * Rq)))
      using relation Qeq at 1 by ring.
    apply Qmult_le_compat_r; [exact HT | exact N]. }
  split.
  - assert (S : Tq * (Mn + D - r0) < Tq * (Rq * / Tq + u * (a + 17 * Rq) + 1)).
    { apply Qmult_lt_l; [lra|lra]. }
    setoid_replace (Tq * (Rq * / Tq + u * (a + 17 * Rq) + 1))
      with (Rq * (Tq * / Tq) + Tq * (u * (a + 17 * Rq)) + Tq) using relation Qeq in S by ring.
    rewrite J in S. lra.
  - lra.
Qed.

End RoundTrip.

End PyFacts.

(** The rounding model against the Standard Library's binary64, on quotients
    and products the examples of this file go through. *)
Example fl_agrees_with_binary64 :
  forallb (fun '(a, b) =>
             Qeq_bool (Py.fl (inject_Z a / inject_Z b)) (Binary64.div a b))
          [(29, 100); (28, 100); (1, 3); (3, 10); (13, 100); (5, 100); (-7, 3)]
  = true
  /\ forallb (fun '(a, b, c) =>
                Qeq_bool (Py.fl (Py.fl (inject_Z a / inject_Z b) * Py.fl (inject_Z c)))
                         (Binary64.div_mul a b c))
              [(29, 100, 100); (28, 100, 100); (1, 3, 10); (3, 10, 3); (58, 200, 100)]
     = true.
Proof. vm_compute. split; reflexivity. Qed.

(** [int(29 / 100 * 100)] is 28 in binary64, not 29. *)
Example value_to_pos_rounds_down :
  _value_to_pos (ProTrimSlider_init 116) 29 = 36
  /\ _pos_to_value (ProTrimSlider_init 116) (Py.Int 36) = 28.
Proof. vm_compute. split; reflexivity. Qed.

(* ===================================================================== *)
(** ** The pixel/value round trip *)
(* ===================================================================== *)

Lemma value_to_pos_in_range (s : ProTrimSlider) (v : Z) :
  _min_val s < _max_val s ->
  _min_val s <= v <= _max_val s ->
  _value_to_pos s v
  = Py.trunc (Py.fl (Py.fl (inject_Z (v - _min_val s)
                            / inject_Z (_max_val s - _min_val s))
                     * Py.fl (inject_Z (width s - handle_width s))))
    + handle_width s / 2.
Proof.
  intros Hr Hv. unfold _value_to_pos.
  assert (E : (_max_val s - _min_val s =? 0) = false) by (apply Z.eqb_neq; lia).
  rewrite E. rewrite Z.min_l by lia. rewrite Z.max_r by lia. reflexivity.
Qed.

Lemma pos_to_value_of_pixel (s : ProTrimSlider) (k : Z) :
  handle_width s < width s ->
  _pos_to_value s (Py.Int (k + handle_width s / 2))
  = Z.max (_min_val s)
      (Z.min (_max_val s)
         (Py.trunc
            (Py.fl (Py.fl (inject_Z (_min_val s))
                    + Py.fl (Py.fl (inject_Z k / inject_Z (width s - handle_width s))
                             * Py.fl (inject_Z (_max_val s - _min_val s))))))).
Proof.
  intros Hw. unfold _pos_to_value.
  assert (E : (width s - handle_width s <=? 0) = false) by (apply Z.leb_gt; lia).
  rewrite E. cbn [Py.sub Py.truediv Py.mul Py.add Py.int Py.to_float].
  rewrite Z.add_simpl_r. reflexivity.
Qed.

(** C7, as the code has it.  For a range [min < max], a widget wider than
    the handle and a value [v] in the range, with
    [(|min| + |max|) * track_width <= 2 ^ 47] (so that no rounding error of the
    five float operations reaches a whole unit),
    [_pos_to_value (_value_to_pos v)] differs from [v] by at most one pixel's
    worth of value, [(max - min) / track_width], plus one: the one that
    [int()] cuts off. *)
Theorem pixel_round_trip_within_a_pixel_plus_one (s : ProTrimSlider) (v : Z) :
  _min_val s < _max_val s ->
  handle_width s < width s ->
  _min_val s <= v <= _max_val s ->
  (Z.abs (_min_val s) + Z.abs (_max_val s)) * (width s - handle_width s) <= 2 ^ 47 ->
  Z.abs (_pos_to_value s (Py.Int (_value_to_pos s v)) - v) * (width s - handle_width s)
  <= (_max_val s - _min_val s) + (width s - handle_width s).
Proof.
  intros Hr Hw Hv Hb.
  rewrite (value_to_pos_in_range s v Hr Hv).
  rewrite (pos_to_value_of_pixel s _ Hw).
  set (mn := _min_val s) in *. set (mx := _max_val s) in *.
  set (T := width s - handle_width s) in *.
  set (R := mx - mn) in *. set (d := v - mn).
  assert (HT : 1 <= T) by (subst T; lia).
  assert (HR : 1 <= R) by (subst R; lia).
  assert (Hd : 0 <= d <= R) by (subst d R; lia).
  assert (HM : Z.abs mn + R <= 2 * (Z.abs mn + Z.abs mx)) by (subst R; lia).
  assert (HMT : (Z.abs mn + R) * T <= 2 ^ 48).
  { change (2 ^ 48) with (2 * 2 ^ 47). nia. }
  assert (BT : Z.abs T < 2 ^ 53).
  { assert (T <= 2 ^ 47) by nia. change (2 ^ 53) with (64 * 2 ^ 47). lia. }
  assert (BR : Z.abs R < 2 ^ 53).
  { assert (R <= 2 ^ 48) by nia. change (2 ^ 53) with (32 * 2 ^ 48). lia. }
  assert (Bm : Z.abs mn < 2 ^ 53).
  { assert (Z.abs mn <= 2 ^ 48) by nia. change (2 ^ 53) with (32 * 2 ^ 48). lia. }
  pose proof (PyFacts.fl_integer T BT) as FT.
  pose proof (PyFacts.fl_integer R BR) as FR.
  pose proof (PyFacts.fl_integer mn Bm) as Fm.
  (* the quantities of the computation, as rationals *)
  assert (QT : (1 <= inject_Z T)%Q) by (change 1%Q with (inject_Z 1); rewrite <- Zle_Qle; exact HT).
  assert (QR : (1 <= inject_Z R)%Q) by (change 1%Q with (inject_Z 1); rewrite <- Zle_Qle; exact HR).
  assert (QD : (0 <= inject_Z d <= inject_Z R)%Q).
  { split; [change 0%Q with (inject_Z 0)|]; rewrite <- Zle_Qle; lia. }
  assert (Qa : (- inject_Z (Z.abs mn) <= inject_Z mn <= inject_Z (Z.abs mn))%Q).
  { rewrite <- inject_Z_opp. split; rewrite <- Zle_Qle; lia. }
  assert (QB : ((inject_Z (Z.abs mn) + inject_Z R) * inject_Z T <= 281474976710656)%Q).
  { rewrite <- inject_Z_plus, <- inject_Z_mult.
    change 281474976710656%Q with (inject_Z (2 ^ 48)). rewrite <- Zle_Qle. exact HMT. }
  set (t := (inject_Z d / inject_Z R)%Q).
  assert (Et : (t * inject_Z R == inject_Z d)%Q) by (subst t; field; lra).
  assert (Pt : (0 <= t)%Q).
  { subst t. apply Qle_shift_div_l; [lra|]. rewrite Qmult_0_l. apply QD. }
  destruct (PyFacts.fl_bounds_nonneg t t (Qeq_refl t) Pt) as [H1 H1p].
  set (q1 := Py.fl t) in *.
  assert (E2 : (q1 * Py.fl (inject_Z T) == q1 * inject_Z T)%Q) by (rewrite FT; reflexivity).
  assert (P2 : (0 <= q1 * inject_Z T)%Q) by (apply Qmult_le_0_compat; lra).
  destruct (PyFacts.fl_bounds_nonneg _ _ E2 P2) as [H2 H2p].
  set (x := Py.fl (q1 * Py.fl (inject_Z T))) in *.
  destruct (PyFacts.trunc_nonneg x H2p) as [H3a H3b].
  set (k := Py.trunc x) in *.
  assert (H3p : (0 <= inject_Z k)%Q).
  { change 0%Q with (inject_Z 0). rewrite <- Zle_Qle.
    assert (L : (inject_Z (-1) < inject_Z k)%Q) by (change (inject_Z (-1)) with (-1)%Q; lra).
    rewrite <- Zlt_Qlt in L. lia. }
  set (w := (inject_Z k / inject_Z T)%Q).
  assert (Ew : (w * inject_Z T == inject_Z k)%Q) by (subst w; field; lra).
  assert (Pw : (0 <= w)%Q).
  { subst w. apply Qle_shift_div_l; [lra|]. rewrite Qmult_0_l. exact H3p. }
  destruct (PyFacts.fl_bounds_nonneg w w (Qeq_refl w) Pw) as [H4 H4p].
  set (q2 := Py.fl w) in *.
  assert (E5 : (q2 * Py.fl (inject_Z R) == q2 * inject_Z R)%Q) by (rewrite FR; reflexivity).
  assert (P5 : (0 <= q2 * inject_Z R)%Q) by (apply Qmult_le_0_compat; lra).
  destruct (PyFacts.fl_bounds_nonneg _ _ E5 P5) as [H5 H5p].
  set (y := Py.fl (q2 * Py.fl (inject_Z R))) in *.
  assert (E6 : (Py.fl (inject_Z mn) + y == inject_Z mn + y)%Q) by (rewrite Fm; reflexivity).
  assert (B6 : (- (inject_Z (Z.abs mn) + y) <= inject_Z mn + y <= inject_Z (Z.abs mn) + y)%Q)
    by lra.
  pose proof (PyFacts.fl_bounds _ _ _ E6 B6) as H6.
  set (val := Py.fl (Py.fl (inject_Z mn) + y)) in *.
  pose proof (PyFacts.trunc_near val) as H7.
  set (r0 := Py.trunc val) in *.
  destruct (PyFacts.r0_bounds (inject_Z d) (inject_Z R) (inject_Z T) (inject_Z mn)
              (inject_Z (Z.abs mn)) t q1 x (inject_Z k) w q2 y val (inject_Z r0))
    as [Lo Hi]; try assumption; try (split; assumption).
  (* back to the integers *)
  assert (Ev : (inject_Z mn + inject_Z d == inject_Z v)%Q).
  { rewrite <- inject_Z_plus. subst d. apply inject_Z_injective. lia. }
  assert (LoZ : T * (v - r0) < R + T + 1).
  { rewrite Zlt_Qlt. rewrite !inject_Z_plus, inject_Z_mult.
    unfold Z.sub. rewrite inject_Z_plus, inject_Z_opp.
    change (inject_Z 1) with 1%Q. rewrite <- Ev. lra. }
  assert (HiZ : r0 - v < 2).
  { rewrite Zlt_Qlt. unfold Z.sub. rewrite inject_Z_plus, inject_Z_opp.
    change (inject_Z 2) with 2%Q. rewrite <- Ev. lra. }
  clearbody r0. clear - LoZ HiZ Hv HT HR Hr.
  fold mn mx in Hv, Hr. subst R.
  destruct (Z_le_gt_dec v (Z.max mn (Z.min mx r0))) as [G|L].
  - rewrite Z.abs_eq by lia.
    assert (Z.max mn (Z.min mx r0) - v <= 1) by lia. nia.
  - rewrite Z.abs_neq by lia.
    assert (v - Z.max mn (Z.min mx r0) <= v - r0) by lia.
    assert (0 <= v - Z.max mn (Z.min mx r0)) by lia.
    nia.
Qed.

(** Against C7 as stated: on the range [0, 3] with a track of 10 pixels
    (one pixel is worth 0.3), the value 1 maps to pixel 11 and pixel 11 back to
    0: they differ by 1. *)
Lemma pixel_round_trip_exceeds_a_pixel :
  _value_to_pos coarse_slider 1 = 11
  /\ _pos_to_value coarse_slider (Py.Int 11) = 0
  /\ ~ (Z.abs (_pos_to_value coarse_slider (Py.Int (_value_to_pos coarse_slider 1)) - 1)
          * (width coarse_slider - handle_width coarse_slider)
        <= _max_val coarse_slider - _min_val coarse_slider).
Proof. vm_compute. repeat split. intros H. apply H. reflexivity. Qed.

Lemma pixel_round_trip_witness :
  Z.abs (_pos_to_value (ProTrimSlider_init 116)
           (Py.Int (_value_to_pos (ProTrimSlider_init 116) 29)) - 29) * 100
  <= 100 + 100.
Proof.
  apply (pixel_round_trip_within_a_pixel_plus_one (ProTrimSlider_init 116) 29);
    vm_compute; try split; discriminate.
Defined.

(* ===================================================================== *)
(** ** The time codec *)
(* ===================================================================== *)

Lemma below_cases (P : Z -> bool) (k : nat) :
  forallb P (map Z.of_nat (seq 0 k)) = true ->
  forall n, 0 <= n < Z.of_nat k -> P n = true.
Proof.
  intros H n Hn. rewrite forallb_forall in H. apply H.
  apply in_map_iff. exists (Z.to_nat n). split; [lia|].
  apply in_seq. lia.
Qed.

Lemma format_0d_2 (n : Z) : 0 <= n < 100 -> Py.format_0d 2 n = two_digits n.
Proof.
  intros Hn.
  apply (below_cases (fun n => String.eqb (Py.format_0d 2 n) (two_digits n)) 100) in Hn.
  - apply String.eqb_eq. exact Hn.
  - vm_compute. reflexivity.
Qed.

Lemma format_0d_3 (n : Z) : 0 <= n < 1000 -> Py.format_0d 3 n = three_digits n.
Proof.
  intros Hn.
  apply (below_cases (fun n => String.eqb (Py.format_0d 3 n) (three_digits n)) 1000) in Hn.
  - apply String.eqb_eq. exact Hn.
  - vm_compute. reflexivity.
Qed.

Lemma digit_is_digit (k : Z) : 0 <= k < 10 -> Py.is_digit (digit k) = true.
Proof.
  intros Hk. apply (below_cases (fun k => Py.is_digit (digit k)) 10) in Hk; [exact Hk|].
  vm_compute. reflexivity.
Qed.

Lemma digit_val_digit (k : Z) : 0 <= k < 10 -> Py.digit_val (digit k) = k.
Proof.
  intros Hk.
  apply (below_cases (fun k => Py.digit_val (digit k) =? k) 10) in Hk.
  - apply Z.eqb_eq. exact Hk.
  - vm_compute. reflexivity.
Qed.

(** What [parse_time] makes of a timecode followed by anything. *)
Lemma parse_time_two_digit_minutes (a b c d e f g : Z) (rest : string) :
  0 <= a < 10 -> 0 <= b < 10 -> 0 <= c < 10 -> 0 <= d < 10 ->
  0 <= e < 10 -> 0 <= f < 10 -> 0 <= g < 10 ->
  parse_time (String (digit a) (String (digit b) (String ":"
               (String (digit c) (String (digit d) (String "."
               (String (digit e) (String (digit f) (String (digit g) rest)))))))))
  = Some (((10 * a + b) * 60 + (10 * c + d)) * 1000 + (100 * e + 10 * f + g)).
Proof.
  intros Ha Hb Hc Hd He Hf Hg.
  unfold parse_time, Re.match_time, Re.after_minutes, Re.lit.
  cbn [Re.digits].
  rewrite !digit_is_digit by assumption.
  cbn [Ascii.eqb Bool.eqb].
  rewrite !digit_is_digit by assumption.
  cbn [Ascii.eqb Bool.eqb].
  rewrite !digit_is_digit by assumption.
  unfold Py.int_str. cbn [Py.int_of_digits].
  rewrite !digit_val_digit by assumption.
  f_equal. lia.
Qed.

(** C5.  For [ms >= 0] whose minutes, [ms / 1000 / 60], are below 100,
    [parse_time (format_time ms)] is [ms]. *)
Theorem parse_time_format_time (ms : Z) :
  0 <= ms -> ms / 1000 / 60 < 100 ->
  parse_time (format_time ms) = Some ms.
Proof.
  intros H0 Hm. unfold format_time.
  assert (L : (ms <? 0) = false) by (apply Z.ltb_ge; lia). rewrite L.
  pose proof (Z.div_pos ms 1000 H0 ltac:(lia)) as Hs.
  pose proof (Z.div_pos (ms / 1000) 60 Hs ltac:(lia)) as Hmin.
  pose proof (Z.mod_pos_bound (ms / 1000) 60 ltac:(lia)) as Hsec.
  pose proof (Z.mod_pos_bound ms 1000 ltac:(lia)) as Hmil.
  rewrite format_0d_2 by lia. rewrite format_0d_2 by lia. rewrite format_0d_3 by lia.
  unfold two_digits, three_digits. cbv [String.append].
  set (m := ms / 1000 / 60) in *. set (s := (ms / 1000) mod 60) in *.
  set (r := ms mod 1000) in *.
  rewrite parse_time_two_digit_minutes.
  - f_equal.
    pose proof (Z.div_mod m 10 ltac:(lia)). pose proof (Z.div_mod s 10 ltac:(lia)).
    pose proof (Z.div_mod r 100 ltac:(lia)).
    pose proof (Z.div_mod r 10 ltac:(lia)).
    pose proof (Z.div_mod (r / 10) 10 ltac:(lia)).
    pose proof (Z.div_mod ms 1000 ltac:(lia)).
    pose proof (Z.div_mod (ms / 1000) 60 ltac:(lia)).
    assert (E : r / 100 = r / 10 / 10) by (rewrite Z.div_div by lia; reflexivity).
    subst m s r. lia.
  - split; [apply Z.div_pos; lia | apply Z.div_lt_upper_bound; lia].
  - apply Z.mod_pos_bound; lia.
  - split; [apply Z.div_pos; lia | apply Z.div_lt_upper_bound; lia].
  - apply Z.mod_pos_bound; lia.
  - split; [apply Z.div_pos; lia | apply Z.div_lt_upper_bound; lia].
  - apply Z.mod_pos_bound; lia.
  - apply Z.mod_pos_bound; lia.
Qed.

(** The spec's scenario: [format(61234) == "01:01.234"] and back. *)
Lemma parse_time_format_time_witness :
  format_time 61234 = "01:01.234"%string
  /\ parse_time (format_time 61234) = Some 61234.
Proof.
  split; [reflexivity|].
  apply (parse_time_format_time 61234); [lia | vm_compute; reflexivity].
Defined.

(** C4 at ["01:01.234xyz"]: the string as a whole is not a timecode, and
    [parse_time] returns 61234 for it, as for ["01:01.234"]; ["1:1.23"] is
    rejected. *)
Theorem parse_time_accepts_trailing_text :
  whole_string_is_timecode "01:01.234xyz" = false
  /\ parse_time "01:01.234xyz" = Some 61234
  /\ whole_string_is_timecode "01:01.234" = true
  /\ parse_time "01:01.234" = Some 61234
  /\ parse_time "1:1.23" = None.
Proof. repeat split. Qed.

Lemma digits_1_inv (s g r : string) :
  Re.digits 1 s = Some (g, r) ->
  exists a, s = String a r /\ g = String a EmptyString /\ Py.is_digit a = true.
Proof.
  destruct s as [|a s]; cbn; [discriminate|].
  destruct (Py.is_digit a) eqn:A; [|discriminate].
  intros [= <- <-]. exists a. repeat split; assumption.
Qed.

Lemma digits_2_inv (s g r : string) :
  Re.digits 2 s = Some (g, r) ->
  exists a b, s = String a (String b r) /\ g = String a (String b EmptyString)
              /\ Py.is_digit a = true /\ Py.is_digit b = true.
Proof.
  destruct s as [|a [|b s]]; cbn; try discriminate.
  - destruct (Py.is_digit a); discriminate.
  - destruct (Py.is_digit a) eqn:A; [|discriminate].
    destruct (Py.is_digit b) eqn:B; [|discriminate].
    intros [= <- <-]. exists a, b. repeat split; assumption.
Qed.

Lemma digits_3_inv (s g r : string) :
  Re.digits 3 s = Some (g, r) ->
  exists a b c, s = String a (String b (String c r))
                /\ g = String a (String b (String c EmptyString))
                /\ Py.is_digit a = true /\ Py.is_digit b = true /\ Py.is_digit c = true.
Proof.
  destruct s as [|a [|b [|c s]]]; cbn; try discriminate.
  - destruct (Py.is_digit a); discriminate.
  - destruct (Py.is_digit a); [destruct (Py.is_digit b)|]; discriminate.
  - destruct (Py.is_digit a) eqn:A; [|discriminate].
    destruct (Py.is_digit b) eqn:B; [|discriminate].
    destruct (Py.is_digit c) eqn:C; [|discriminate].
    intros [= <- <-]. exists a, b, c. repeat split; assumption.
Qed.

Lemma lit_inv (c : ascii) (s r : string) : Re.lit c s = Some r -> s = String c r.
Proof.
  destruct s as [|a s]; cbn; [discriminate|].
  destruct (Ascii.eqb a c) eqn:E; [|discriminate].
  apply Ascii.eqb_eq in E. intros [= <-]. subst a. reflexivity.
Qed.

Lemma after_minutes_inv (s g2 g3 : string) :
  Re.after_minutes s = Some (g2, g3) ->
  exists c d e f g rest,
    s = String ":" (String c (String d (String "." (String e (String f (String g rest))))))
    /\ g2 = String c (String d EmptyString)
    /\ g3 = String e (String f (String g EmptyString))
    /\ Py.is_digit c = true /\ Py.is_digit d = true
    /\ Py.is_digit e = true /\ Py.is_digit f = true /\ Py.is_digit g = true.
Proof.
  unfold Re.after_minutes.
  destruct (Re.lit ":" s) as [s1|] eqn:L1; [|discriminate].
  destruct (Re.digits 2 s1) as [[h2 s2]|] eqn:D2; [|discriminate].
  destruct (Re.lit "." s2) as [s3|] eqn:L3; [|discriminate].
  destruct (Re.digits 3 s3) as [[h3 s4]|] eqn:D3; [|discriminate].
  intros [= <- <-].
  apply lit_inv in L1, L3.
  apply digits_2_inv in D2 as (c & d & -> & -> & Hc & Hd).
  apply digits_3_inv in D3 as (e & f & g & -> & -> & He & Hf & Hg).
  subst s2 s. exists c, d, e, f, g, s4. repeat split; assumption.
Qed.




(* ===================================================================== *)
(** ** Pressing the mouse on the slider *)
(* ===================================================================== *)

Lemma mouseMoveEvent_dragging (w : MainWindow) (ex : Py.num) (shift : bool) :
  _dragging (position_slider (mouseMoveEvent w ex shift))
  = _dragging (position_slider w).
Proof.
  unfold mouseMoveEvent.
  destruct (_dragging (position_slider w)) as [[| |]|] eqn:E; try exact E.
  - destruct (Py.lt _ _); exact E.
  - destruct (Py.gt _ _); exact E.
Qed.

Lemma on_slider_pressed_slider (w : MainWindow) :
  position_slider (on_slider_pressed w) = position_slider w.
Proof. unfold on_slider_pressed. destruct (playbackState _); reflexivity. Qed.

(** C6, as the code has it.  [mousePressEvent] leaves [_dragging] at the
    first of start handle, end handle, playhead (in that order, whichever is
    nearer) whose pixel position [x] passes [abs(ex - x) < handle_width // 2],
    and at the playhead when none does; it is never [None]. *)
Theorem mousePressEvent_selects_by_priority
    (w : MainWindow) (ex : Py.num) (shift : bool) :
  let s := position_slider w in
  let limit := handle_width s / 2 in
  let start_x := _value_to_pos s (_start_marker s) in
  let end_x := _value_to_pos s (_end_marker s) in
  let dragging := _dragging (position_slider (mousePressEvent w ex shift)) in
  (near ex start_x limit = true -> dragging = Some DragStart)
  /\ (near ex start_x limit = false -> near ex end_x limit = true ->
      dragging = Some DragEnd)
  /\ (near ex start_x limit = false -> near ex end_x limit = false ->
      dragging = Some DragPosition)
  /\ dragging <> None.
Proof.
  intros s limit start_x end_x dragging.
  assert (E : dragging = Some (press_target s ex)).
  { subst dragging. unfold mousePressEvent. rewrite mouseMoveEvent_dragging.
    rewrite on_slider_pressed_slider. reflexivity. }
  rewrite E. unfold press_target.
  fold s limit start_x end_x.
  repeat split.
  - intros ->. reflexivity.
  - intros -> ->. reflexivity.
  - intros -> ->. destruct (near ex _ limit); reflexivity.
  - discriminate.
Qed.


Lemma mousePressEvent_selects_by_priority_witness :
  _dragging (position_slider (mousePressEvent crowded_window (Py.Float 9) false))
  = Some DragStart.
Proof.
  apply (proj1 (mousePressEvent_selects_by_priority crowded_window (Py.Float 9) false)).
  vm_compute. reflexivity.
Defined.

(** Against C6 as stated: a press at pixel 11 is 3 pixels from the start
    handle and 1 pixel from the end handle, both within 8; the nearest is the
    end handle, and the drag that begins is the start marker's. *)
Lemma mousePressEvent_not_nearest :
  _value_to_pos (position_slider crowded_window)
    (_start_marker (position_slider crowded_window)) = 8
  /\ _value_to_pos (position_slider crowded_window)
       (_end_marker (position_slider crowded_window)) = 10
  /\ handle_width (position_slider crowded_window) / 2 = 8
  /\ beginDrag_spec (position_slider crowded_window) 11 = DragEnd
  /\ _dragging (position_slider (mousePressEvent crowded_window (Py.Float 11) false))
     = Some DragStart
  /\ _dragging (position_slider (mousePressEvent crowded_window (Py.Int 11) false))
     = Some DragStart.
Proof. vm_compute. repeat split. Qed.

(* ===================================================================== *)
(** ** Dragging a marker *)
(* ===================================================================== *)

(** C1 at a failing input.  From markers 5 < 6, pressing on the end handle
    (pixel 21) and moving to pixel 8, shift held, leaves both markers, and
    both of the window's times, at 5: the update to 5.25 passes the test
    [new_val > self._start_marker] and is then truncated by [int]. *)
Theorem fine_tuned_end_drag_reaches_start :
  (_start_marker (position_slider narrow_window) = 5
   /\ _end_marker (position_slider narrow_window) = 6
   /\ start_time_ms narrow_window = 5 /\ end_time_ms narrow_window = 6)
  /\ (_dragging (position_slider narrow_window_pressed) = Some DragEnd
      /\ _start_marker (position_slider narrow_window_pressed) = 5
      /\ _end_marker (position_slider narrow_window_pressed) = 7)
  /\ (_start_marker (position_slider narrow_window_dragged) = 5
      /\ _end_marker (position_slider narrow_window_dragged) = 5
      /\ start_time_ms narrow_window_dragged = 5
      /\ end_time_ms narrow_window_dragged = 5).
Proof. vm_compute. repeat split. Qed.

(** [int()] of a float below an integer [e > 0] is below [e]; [int()] of a
    float above an integer [b >= 0] is at least [b]. *)
Lemma trunc_below (q : Q) (e : Z) : 0 < e -> (q < inject_Z e)%Q -> Py.trunc q < e.
Proof.
  intros He Hq. destruct (Qlt_le_dec q 0) as [N|P].
  - destruct (PyFacts.trunc_nonpos q) as [_ B]; [lra|].
    assert (L : (inject_Z (Py.trunc q) < inject_Z 1)%Q) by (change (inject_Z 1) with 1%Q; lra).
    rewrite <- Zlt_Qlt in L. lia.
  - destruct (PyFacts.trunc_nonneg q P) as [A _].
    assert (L : (inject_Z (Py.trunc q) < inject_Z e)%Q) by lra.
    rewrite <- Zlt_Qlt in L. exact L.
Qed.

Lemma trunc_above (q : Q) (b : Z) : 0 <= b -> (inject_Z b < q)%Q -> b <= Py.trunc q.
Proof.
  intros Hb Hq.
  assert (P : (0 <= q)%Q).
  { assert (L : (inject_Z 0 <= inject_Z b)%Q) by (rewrite <- Zle_Qle; exact Hb).
    change (inject_Z 0) with 0%Q in L. lra. }
  destruct (PyFacts.trunc_nonneg q P) as [_ B].
  assert (L : (inject_Z b < inject_Z (Py.trunc q + 1))%Q).
  { rewrite inject_Z_plus. change (inject_Z 1) with 1%Q. lra. }
  rewrite <- Zlt_Qlt in L. lia.
Qed.

Lemma lt_float_int (q : Q) (e : Z) :
  Py.lt (Py.Float q) (Py.Int e) = true -> (q < inject_Z e)%Q.
Proof.
  unfold Py.lt. cbn [Py.value]. intros H. apply Qlt_alt.
  destruct (Qcompare q (inject_Z e)); [discriminate | reflexivity | discriminate].
Qed.

Lemma gt_float_int (q : Q) (b : Z) :
  Py.gt (Py.Float q) (Py.Int b) = true -> (inject_Z b < q)%Q.
Proof.
  unfold Py.gt, Py.lt. cbn [Py.value]. intros H. apply Qlt_alt.
  destruct (Qcompare (inject_Z b) q); [discriminate | reflexivity | discriminate].
Qed.

(** X1.  While the start marker is dragged, with or without shift, the markers
    stay in order provided the end marker is positive: the update is applied
    only when [new_val < end], and [int()] does not raise a non-negative
    [new_val].  The window's times follow the markers. *)
Theorem start_drag_keeps_start_before_end
    (w : MainWindow) (ex : Py.num) (shift : bool) :
  _dragging (position_slider w) = Some DragStart ->
  0 < _end_marker (position_slider w) ->
  _start_marker (position_slider w) < _end_marker (position_slider w) ->
  let w' := mouseMoveEvent w ex shift in
  _start_marker (position_slider w') < _end_marker (position_slider w')
  /\ _end_marker (position_slider w') = _end_marker (position_slider w)
  /\ (start_time_ms w = _start_marker (position_slider w) ->
      end_time_ms w = _end_marker (position_slider w) ->
      start_time_ms w' = _start_marker (position_slider w')
      /\ end_time_ms w' = _end_marker (position_slider w')).
Proof.
  intros Hd He Hlt w'. subst w'. unfold mouseMoveEvent. rewrite Hd.
  set (new_val := Py.add _ _).
  destruct (Py.lt new_val (Py.Int (_end_marker (position_slider w)))) eqn:G.
  - cbn [set_start_time_from_slider position_slider with_position_slider
         setStartMarker _start_marker _end_marker with_ui with_start_time_ms
         start_time_ms end_time_ms].
    split; [|split; [reflexivity | intros _ E; split; [reflexivity | exact E]]].
    subst new_val. cbn [Py.add Py.mul Py.to_float Py.int] in *.
    apply trunc_below; [exact He|]. apply lt_float_int. exact G.
  - split; [exact Hlt|]. split; [reflexivity|]. intros A B. split; assumption.
Qed.

Lemma start_drag_witness :
  _start_marker (position_slider
                   (mouseMoveEvent (mousePressEvent crowded_window (Py.Float 9) true)
                      (Py.Float 40) true))
  < _end_marker (position_slider
                   (mouseMoveEvent (mousePressEvent crowded_window (Py.Float 9) true)
                      (Py.Float 40) true)).
Proof.
  apply (start_drag_keeps_start_before_end
           (mousePressEvent crowded_window (Py.Float 9) true) (Py.Float 40) true);
    vm_compute; reflexivity.
Defined.

(** X2.  While the end marker is dragged, the end marker never falls below a
    non-negative start marker; it can land on it. *)
Theorem end_drag_keeps_end_at_or_after_start
    (w : MainWindow) (ex : Py.num) (shift : bool) :
  _dragging (position_slider w) = Some DragEnd ->
  0 <= _start_marker (position_slider w) ->
  _start_marker (position_slider w) <= _end_marker (position_slider w) ->
  let w' := mouseMoveEvent w ex shift in
  _start_marker (position_slider w') <= _end_marker (position_slider w')
  /\ _start_marker (position_slider w') = _start_marker (position_slider w).
Proof.
  intros Hd Hs Hle w'. subst w'. unfold mouseMoveEvent. rewrite Hd.
  set (new_val := Py.add _ _).
  destruct (Py.gt new_val (Py.Int (_start_marker (position_slider w)))) eqn:G.
  - cbn [set_end_time_from_slider position_slider with_position_slider
         setEndMarker _start_marker _end_marker with_ui with_end_time_ms].
    split; [|reflexivity].
    subst new_val. cbn [Py.add Py.mul Py.to_float Py.int] in *.
    apply trunc_above; [exact Hs|]. apply gt_float_int. exact G.
  - split; [exact Hle | reflexivity].
Qed.

Lemma end_drag_witness :
  _start_marker (position_slider narrow_window_dragged)
  <= _end_marker (position_slider narrow_window_dragged).
Proof.
  apply (end_drag_keeps_end_at_or_after_start narrow_window_pressed (Py.Float 8) true);
    vm_compute; try reflexivity; discriminate.
Defined.

(* ===================================================================== *)
(** ** Releasing the mouse *)
(* ===================================================================== *)




(* ===================================================================== *)
(** ** Thumbnails: an existing file is delivered without a child process *)
(* ===================================================================== *)

Section ThumbnailFacts.

Variable subprocess_run : list arg -> disk -> ended * disk.

Lemma run_existing (t : ThumbnailGenerator) (d : disk) :
  thumb_path t ∈ d ->
  ThumbnailGenerator_run subprocess_run t d
  = ([], Some (ThumbnailReady (item t) (IconFile (thumb_path t))), d).
Proof.
  intros Hin. unfold ThumbnailGenerator_run.
  rewrite (bool_decide_eq_true_2 _ Hin). reflexivity.
Qed.

(** C8.  When the thumbnail file is on disk, [ThumbnailGenerator.run] starts
    no child process (it has no effect at all on the outside), emits
    [thumbnailReady] with the icon read from that file and leaves the disk as
    it is; so a second job for the same thumbnail path, run afterwards, does
    the same: neither of the two invokes the external process. *)
Theorem thumbnail_existing_file_is_delivered_without_process
    (t1 t2 : ThumbnailGenerator) (d : disk) :
  thumb_path t1 ∈ d ->
  thumb_path t2 = thumb_path t1 ->
  let r1 := ThumbnailGenerator_run subprocess_run t1 d in
  let r2 := ThumbnailGenerator_run subprocess_run t2 r1.2 in
  (r1.1.1 = [] /\ Forall (fun e => is_subprocess e = false) r1.1.1
   /\ r1.1.2 = Some (ThumbnailReady (item t1) (IconFile (thumb_path t1)))
   /\ r1.2 = d)
  /\ (r2.1.1 = [] /\ Forall (fun e => is_subprocess e = false) r2.1.1
      /\ r2.1.2 = Some (ThumbnailReady (item t2) (IconFile (thumb_path t2)))
      /\ r2.2 = d).
Proof.
  intros H1 H2 r1 r2. subst r2 r1.
  rewrite (run_existing t1 d H1). cbn [fst snd].
  assert (H3 : thumb_path t2 ∈ d) by (rewrite H2; exact H1).
  rewrite (run_existing t2 d H3). cbn [fst snd].
  repeat split; constructor.
Qed.

End ThumbnailFacts.

Lemma thumbnail_existing_file_witness :
  (ThumbnailGenerator_run failing_run sample_worker
     {[ "/cache/thumbnails/clip.jpg"%string ]}).1.1 = []
  /\ (ThumbnailGenerator_run failing_run sample_worker
        {[ "/cache/thumbnails/clip.jpg"%string ]}).1.2
     = Some (ThumbnailReady sample_item (IconFile "/cache/thumbnails/clip.jpg"))
  /\ (ThumbnailGenerator_run failing_run sample_worker
        {[ "/cache/thumbnails/clip.jpg"%string ]}).2
     = {[ "/cache/thumbnails/clip.jpg"%string ]}.
Proof.
  assert (H : thumb_path sample_worker ∈ ({[ "/cache/thumbnails/clip.jpg"%string ]} : disk)).
  { apply elem_of_singleton. reflexivity. }
  destruct (thumbnail_existing_file_is_delivered_without_process
              failing_run sample_worker sample_worker
              {[ "/cache/thumbnails/clip.jpg"%string ]} H eq_refl)
    as [(A & _ & B & C) _].
  split; [exact A|]. split; [exact B | exact C].
Defined.

(* ===================================================================== *)
(** ** The trim export *)
(* ===================================================================== *)

Lemma new_effects_same (w : MainWindow) : new_effects w w = [].
Proof. unfold new_effects. apply drop_all. Qed.

Lemma new_effects_app (w w' : MainWindow) (l : list effect) :
  log w' = log w ++ l -> new_effects w w' = l.
Proof. intros E. unfold new_effects. rewrite E. apply drop_app_length. Qed.

Section TrimFacts.

Variable subprocess_run : list arg -> disk -> ended * disk.

(** The three ways [trim_media] returns before it builds a command. *)
Lemma trim_media_not_loaded (w : MainWindow) (d : disk) :
  ~ media_loaded w -> trim_media subprocess_run w d = (w, d).
Proof.
  intros H. unfold trim_media.
  destruct (current_media_path w) as [p|] eqn:E; [|reflexivity].
  destruct (String.eqb p EmptyString) eqn:Ep; [reflexivity|].
  exfalso. apply H. exists p. split; [exact E|].
  intros ->. discriminate.
Qed.

Lemma trim_media_empty_range (w : MainWindow) (d : disk) :
  media_loaded w -> end_time_ms w <= start_time_ms w ->
  trim_media subprocess_run w d
  = (logged (MessageBoxWarning "Trim Error" "Start time must be before end time.") w, d).
Proof.
  intros (p & E & Hp) Hle. unfold trim_media. rewrite E.
  destruct (String.eqb p EmptyString) eqn:Ep.
  - apply String.eqb_eq in Ep. contradiction.
  - assert (L : (end_time_ms w <=? start_time_ms w) = true) by (apply Z.leb_le; lia).
    rewrite L. reflexivity.
Qed.

(** C2.  An export with [start_time_ms >= end_time_ms] starts no child
    process, adds no cache entry and leaves the disk alone, and when a media
    asset is loaded all it does is show the validation error ("Start time must
    be before end time."); conversely, whenever [trim_media] does start the
    transcoder, [start_time_ms < end_time_ms] and a media asset is loaded. *)
Theorem trim_media_validates_range (w : MainWindow) (d : disk) :
  let w' := (trim_media subprocess_run w d).1 in
  let d' := (trim_media subprocess_run w d).2 in
  (end_time_ms w <= start_time_ms w ->
     Forall (fun e => is_subprocess e = false) (new_effects w w')
     /\ cache_list w' = cache_list w
     /\ d' = d
     /\ (media_loaded w ->
         w' = logged (MessageBoxWarning "Trim Error" "Start time must be before end time.") w))
  /\ (Exists (fun e => is_subprocess e = true) (new_effects w w') ->
      start_time_ms w < end_time_ms w /\ media_loaded w).
Proof.
  intros w' d'. subst w' d'.
  assert (D : media_loaded w \/ ~ media_loaded w).
  { unfold media_loaded. destruct (current_media_path w) as [p|].
    - destruct (String.eqb p EmptyString) eqn:Ep.
      + right. intros (q & [= <-] & Hq). apply String.eqb_eq in Ep. contradiction.
      + left. exists p. split; [reflexivity|]. intros ->. discriminate.
    - right. intros (q & Hq & _). discriminate. }
  split.
  - intros Hle. destruct D as [L|NL].
    + rewrite (trim_media_empty_range w d L Hle). cbn [fst snd].
      rewrite (new_effects_app w _ [MessageBoxWarning "Trim Error" "Start time must be before end time."])
        by reflexivity.
      repeat split. repeat constructor.
    + rewrite (trim_media_not_loaded w d NL). cbn [fst snd].
      rewrite new_effects_same. repeat split; [constructor | contradiction].
  - intros Hex. destruct D as [L|NL].
    + split; [|exact L].
      destruct (Z_lt_le_dec (start_time_ms w) (end_time_ms w)) as [Hlt|Hle]; [exact Hlt|].
      exfalso. rewrite (trim_media_empty_range w d L Hle) in Hex. cbn [fst] in Hex.
      rewrite (new_effects_app w _ [MessageBoxWarning "Trim Error" "Start time must be before end time."])
        in Hex by reflexivity.
      apply Exists_cons in Hex. destruct Hex as [Hex|Hex]; [discriminate|].
      inversion Hex.
    + exfalso. rewrite (trim_media_not_loaded w d NL) in Hex. cbn [fst] in Hex.
      rewrite new_effects_same in Hex. inversion Hex.
Qed.


End TrimFacts.

Lemma trim_media_validates_range_witness :
  (trim_media failing_run empty_range_window ∅).1
  = logged (MessageBoxWarning "Trim Error" "Start time must be before end time.")
      empty_range_window.
Proof.
  apply (proj1 (trim_media_validates_range failing_run
                  empty_range_window ∅)).
  - vm_compute. discriminate.
  - exists "/lib/clip.mp4"%string. split; [reflexivity | discriminate].
Defined.


(* ===================================================================== *)
(** ** Loading a media file *)
(* ===================================================================== *)





(* ===================================================================== *)
(** ** The cache list *)
(* ===================================================================== *)








(* ===================================================================== *)
(** ** Floating point: exact results and rounding against an integer *)
(* ===================================================================== *)

Module PyExact.

Import PyFacts.

Local Open Scope Q_scope.

(** *** The binary exponent is the only one that fits *)

Lemma pow2_le (a b : Z) : (a <= b)%Z -> 2 ^ a <= 2 ^ b.
Proof. intros H. apply Qpower_le_compat_l; [exact H | lra]. Qed.

Lemma ilog2_unique (q : Q) (k : Z) :
  2 ^ k <= Qabs q -> Qabs q < 2 ^ (k + 1) -> Py.ilog2 q = k.
Proof.
  intros Hl Hu.
  assert (Hq : ~ q == 0).
  { intros E. assert (Qabs q == 0) as A by (rewrite E; reflexivity).
    pose proof (pow2_pos k). lra. }
  pose proof (ilog2_le q Hq) as L. pose proof (ilog2_lt q Hq) as U.
  destruct (Z.lt_trichotomy (Py.ilog2 q) k) as [C | [C | C]]; [ | exact C | ].
  - pose proof (pow2_le (Py.ilog2 q + 1) k ltac:(lia)). lra.
  - pose proof (pow2_le (k + 1) (Py.ilog2 q) ltac:(lia)). lra.
Qed.

(** *** A small integer times a power of two is a binary64 number *)

Lemma fl_exact (q : Q) (z k : Z) :
  q == inject_Z z * 2 ^ k -> (Z.abs z < 2 ^ 53)%Z -> (Py.emin - 52 <= k)%Z ->
  Py.fl q == q.
Proof.
  intros E Hz Hk.
  destruct (Z.eq_dec z 0%Z) as [-> | Hnz].
  { assert (q == 0) as E0 by (rewrite E; ring). rewrite (fl_zero q E0). symmetry. exact E0. }
  pose proof (pow2_pos k) as Pk.
  assert (Hq : ~ q == 0).
  { intros E0. rewrite E0 in E. symmetry in E. apply Qmult_integral in E.
    destruct E as [E | E]; [ | lra].
    apply Hnz. unfold Qeq in E. cbn in E. lia. }
  set (l := Z.log2 (Z.abs z)).
  assert (Hl : (2 ^ l <= Z.abs z < 2 ^ (l + 1))%Z).
  { pose proof (Z.log2_spec (Z.abs z) ltac:(lia)) as S. rewrite <- Z.add_1_r in S. exact S. }
  assert (Hl0 : (0 <= l)%Z) by apply Z.log2_nonneg.
  assert (Hl52 : (l <= 52)%Z).
  { destruct (Z_le_gt_dec l 52) as [C | C]; [exact C | ].
    pose proof (Z.pow_le_mono_r 2 53 l ltac:(lia) ltac:(lia)). lia. }
  assert (Ha : Qabs q == inject_Z (Z.abs z) * 2 ^ k).
  { rewrite E, Qabs_Qmult. change (Qabs (inject_Z z)) with (inject_Z (Z.abs z)).
    rewrite (Qabs_pos (2 ^ k)); [reflexivity | lra]. }
  assert (Hi : Py.ilog2 q = (l + k)%Z).
  { apply ilog2_unique; rewrite Ha.
    - rewrite pow2_plus, (pow2_nonneg_exp l Hl0).
      apply Qmult_le_compat_r; [ | lra]. rewrite <- Zle_Qle. lia.
    - replace (l + k + 1)%Z with ((l + 1) + k)%Z by lia.
      rewrite pow2_plus, (pow2_nonneg_exp (l + 1) ltac:(lia)).
      apply Qmult_lt_compat_r; [lra | ]. rewrite <- Zlt_Qlt. lia. }
  rewrite (fl_nonzero q Hq), Hi.
  set (e := (Z.max (l + k) Py.emin - 52)%Z).
  assert (He : (e <= k)%Z) by (unfold e; lia).
  pose proof (pow2_pos e) as Pe.
  assert (Hd : q / 2 ^ e == inject_Z (z * 2 ^ (k - e))).
  { rewrite inject_Z_mult, <- (pow2_nonneg_exp (k - e) ltac:(lia)), E.
    replace k with ((k - e) + e)%Z at 1 by lia. rewrite pow2_plus.
    field. lra. }
  rewrite (round_half_even_integer _ _ Hd).
  rewrite inject_Z_mult, <- (pow2_nonneg_exp (k - e) ltac:(lia)), E.
  replace k with ((k - e) + e)%Z at 2 by lia. rewrite pow2_plus. ring.
Qed.

(** *** [int()] sees the value, not the fraction that holds it *)

Lemma trunc_inject_Z (z : Z) : Py.trunc (inject_Z z) = z.
Proof. unfold Py.trunc. cbn. apply Z.quot_1_r. Qed.

Lemma trunc_proper (q q' : Q) : q == q' -> Py.trunc q = Py.trunc q'.
Proof.
  intros E.
  destruct (Qlt_le_dec q 0) as [C | C].
  - destruct (trunc_nonpos q ltac:(lra)) as [A B].
    destruct (trunc_nonpos q' ltac:(lra)) as [A' B'].
    assert (inject_Z (Py.trunc q) < inject_Z (Py.trunc q') + 1) as H1 by lra.
    assert (inject_Z (Py.trunc q') < inject_Z (Py.trunc q) + 1) as H2 by lra.
    change 1 with (inject_Z 1) in H1, H2. rewrite <- inject_Z_plus, <- Zlt_Qlt in H1, H2. lia.
  - destruct (trunc_nonneg q C) as [A B].
    destruct (trunc_nonneg q' ltac:(lra)) as [A' B'].
    assert (inject_Z (Py.trunc q) < inject_Z (Py.trunc q') + 1) as H1 by lra.
    assert (inject_Z (Py.trunc q') < inject_Z (Py.trunc q) + 1) as H2 by lra.
    change 1 with (inject_Z 1) in H1, H2. rewrite <- inject_Z_plus, <- Zlt_Qlt in H1, H2. lia.
Qed.

(** [int()] of the quarter of an integer. *)
Lemma trunc_quarter (q : Q) (n : Z) :
  q == inject_Z n * 2 ^ (-2) -> Py.trunc q = (n ÷ 4)%Z.
Proof.
  intros E. rewrite (trunc_proper q (n # 4)).
  - reflexivity.
  - rewrite E. change (2 ^ (-2)) with (1 # 4). unfold Qeq, Qmult, inject_Z.
    cbn [Qnum Qden]. lia.
Qed.

(** *** Rounding sees the value, not the fraction that holds it *)

Lemma round_half_even_proper (x y : Q) :
  x == y -> Py.round_half_even x = Py.round_half_even y.
Proof.
  intros E. unfold Py.round_half_even.
  assert (F : Qfloor x = Qfloor y) by (rewrite E; reflexivity).
  rewrite F.
  assert (C : Qcompare (x - inject_Z (Qfloor y)) (1 # 2)
              = Qcompare (y - inject_Z (Qfloor y)) (1 # 2)) by (rewrite E; reflexivity).
  rewrite C. reflexivity.
Qed.

Lemma fl_proper (q q' : Q) : q == q' -> Py.fl q = Py.fl q'.
Proof.
  intros E.
  destruct (Qeq_dec q 0) as [Z | N].
  - rewrite (fl_zero q Z), (fl_zero q'); [reflexivity | rewrite <- E; exact Z].
  - assert (N' : ~ q' == 0) by (rewrite <- E; exact N).
    rewrite (fl_nonzero q N), (fl_nonzero q' N').
    assert (I : Py.ilog2 q = Py.ilog2 q').
    { symmetry. apply ilog2_unique; rewrite <- E.
      - apply ilog2_le; exact N.
      - apply ilog2_lt; exact N. }
    rewrite I. f_equal. f_equal. apply round_half_even_proper. rewrite E. reflexivity.
Qed.

(** *** Rounding does not cross an integer *)

Lemma round_half_even_le (x : Q) (m : Z) :
  x <= inject_Z m -> (Py.round_half_even x <= m)%Z.
Proof.
  intros H.
  assert (F : (Qfloor x <= m)%Z).
  { rewrite <- (Qfloor_Z m). apply Qfloor_resp_le. exact H. }
  destruct (Z.eq_dec (Qfloor x) m) as [E | N].
  - assert (X : x == inject_Z m).
    { pose proof (Qfloor_le x). rewrite E in H0. lra. }
    rewrite (round_half_even_integer x m X). lia.
  - destruct (round_half_even_cases x) as [C | C]; lia.
Qed.

Lemma round_half_even_ge (x : Q) (m : Z) :
  inject_Z m <= x -> (m <= Py.round_half_even x)%Z.
Proof.
  intros H.
  assert (F : (m <= Qfloor x)%Z).
  { rewrite <- (Qfloor_Z m). apply Qfloor_resp_le. exact H. }
  destruct (round_half_even_cases x) as [C | C]; lia.
Qed.

(** An integer of magnitude [2 ^ e] times some integer, for [e <= 0]. *)
Lemma integer_on_grid (m e : Z) :
  (e <= 0)%Z -> inject_Z m == inject_Z (m * 2 ^ (- e)) * 2 ^ e.
Proof.
  intros He. rewrite inject_Z_mult. pose proof (pow2_neg_exp e He). 
  setoid_replace (inject_Z m * inject_Z (2 ^ (- e)) * 2 ^ e)
    with (inject_Z m * (2 ^ e * inject_Z (2 ^ (- e)))) using relation Qeq by ring.
  rewrite H. ring.
Qed.

Lemma big_exponent (q : Q) :
  ~ q == 0 -> (0 < Z.max (Py.ilog2 q) Py.emin - 52)%Z ->
  2 ^ 52 * 2 ^ (Z.max (Py.ilog2 q) Py.emin - 52) <= Qabs q
  /\ 2 <= 2 ^ (Z.max (Py.ilog2 q) Py.emin - 52).
Proof.
  intros N He. unfold Py.emin in *.
  assert (Z.max (Py.ilog2 q) (-1022) = Py.ilog2 q) as M by lia.
  rewrite M in *. split.
  - rewrite <- pow2_plus. replace (52 + (Py.ilog2 q - 52))%Z with (Py.ilog2 q) by lia.
    apply ilog2_le. exact N.
  - change 2 with (2 ^ 1) at 1. apply pow2_le. lia.
Qed.

(** Rounding does not cross an integer that binary64 holds. *)
Lemma fl_le_integer (q : Q) (m : Z) :
  (Z.abs m < 2 ^ 53)%Z -> q <= inject_Z m -> Py.fl q <= inject_Z m.
Proof.
  intros Hm H.
  destruct (Qeq_dec q 0) as [Z | N].
  { rewrite (fl_zero q Z). lra. }
  rewrite (fl_nonzero q N).
  set (e := (Z.max (Py.ilog2 q) Py.emin - 52)%Z).
  pose proof (pow2_pos e) as Pe.
  destruct (Z_le_gt_dec e 0) as [He | He].
  - rewrite (integer_on_grid m e He).
    apply Qmult_le_compat_r; [ | lra].
    rewrite <- Zle_Qle. apply round_half_even_le.
    apply Qle_shift_div_r; [exact Pe | ].
    rewrite <- (integer_on_grid m e He). exact H.
  - destruct (big_exponent q N ltac:(fold e; lia)) as [B1 B2]. fold e in B1, B2.
    assert (Bm : - 9007199254740992 < inject_Z m).
    { change (- 9007199254740992) with (inject_Z (- 9007199254740992)).
      rewrite <- Zlt_Qlt. change (2 ^ 53)%Z with 9007199254740992%Z in Hm. lia. }
    assert (Bm' : inject_Z m < 9007199254740992).
    { change 9007199254740992 with (inject_Z 9007199254740992).
      rewrite <- Zlt_Qlt. change (2 ^ 53)%Z with 9007199254740992%Z in Hm. lia. }
    change (2 ^ 52) with 4503599627370496 in B1.
    destruct (Qlt_le_dec q 0) as [Neg | Pos].
    + rewrite (Qabs_neg q) in B1 by lra.
      assert (X : q / 2 ^ e <= inject_Z (- 4503599627370496)).
      { apply Qle_shift_div_r; [exact Pe | ].
        change (inject_Z (- 4503599627370496)) with (- 4503599627370496). lra. }
      apply round_half_even_le in X. rewrite Zle_Qle in X.
      change (inject_Z (- 4503599627370496)) with (- 4503599627370496) in X.
      set (r := inject_Z (Py.round_half_even (q / 2 ^ e))) in *.
      assert (r * 2 ^ e <= - 4503599627370496 * 2 ^ e)
        by (apply Qmult_le_compat_r; lra).
      lra.
    + rewrite (Qabs_pos q) in B1 by lra. lra.
Qed.

Lemma fl_ge_integer (q : Q) (m : Z) :
  (Z.abs m < 2 ^ 53)%Z -> inject_Z m <= q -> inject_Z m <= Py.fl q.
Proof.
  intros Hm H.
  destruct (Qeq_dec q 0) as [Z | N].
  { rewrite (fl_zero q Z). lra. }
  rewrite (fl_nonzero q N).
  set (e := (Z.max (Py.ilog2 q) Py.emin - 52)%Z).
  pose proof (pow2_pos e) as Pe.
  destruct (Z_le_gt_dec e 0) as [He | He].
  - rewrite (integer_on_grid m e He).
    apply Qmult_le_compat_r; [ | lra].
    rewrite <- Zle_Qle. apply round_half_even_ge.
    apply Qle_shift_div_l; [exact Pe | ].
    rewrite <- (integer_on_grid m e He). exact H.
  - destruct (big_exponent q N ltac:(fold e; lia)) as [B1 B2]. fold e in B1, B2.
    assert (Bm : - 9007199254740992 < inject_Z m).
    { change (- 9007199254740992) with (inject_Z (- 9007199254740992)).
      rewrite <- Zlt_Qlt. change (2 ^ 53)%Z with 9007199254740992%Z in Hm. lia. }
    assert (Bm' : inject_Z m < 9007199254740992).
    { change 9007199254740992 with (inject_Z 9007199254740992).
      rewrite <- Zlt_Qlt. change (2 ^ 53)%Z with 9007199254740992%Z in Hm. lia. }
    change (2 ^ 52) with 4503599627370496 in B1.
    destruct (Qlt_le_dec q 0) as [Neg | Pos].
    + rewrite (Qabs_neg q) in B1 by lra. lra.
    + rewrite (Qabs_pos q) in B1 by lra.
      assert (X : inject_Z 4503599627370496 <= q / 2 ^ e).
      { apply Qle_shift_div_l; [exact Pe | ].
        change (inject_Z 4503599627370496) with 4503599627370496. lra. }
      apply round_half_even_ge in X. rewrite Zle_Qle in X.
      change (inject_Z 4503599627370496) with 4503599627370496 in X.
      set (r := inject_Z (Py.round_half_even (q / 2 ^ e))) in *.
      assert (4503599627370496 * 2 ^ e <= r * 2 ^ e)
        by (apply Qmult_le_compat_r; lra).
      lra.
Qed.

(** [int()] does not cross an integer either. *)
Lemma trunc_le_integer (q : Q) (m : Z) : q <= inject_Z m -> (Py.trunc q <= m)%Z.
Proof.
  intros H. destruct (Qlt_le_dec q 0) as [C | C].
  - destruct (trunc_nonpos q ltac:(lra)) as [A B].
    assert (L : inject_Z (Py.trunc q) < inject_Z m + 1) by lra.
    change 1 with (inject_Z 1) in L. rewrite <- inject_Z_plus, <- Zlt_Qlt in L. lia.
  - destruct (trunc_nonneg q C) as [A B].
    assert (L : inject_Z (Py.trunc q) <= inject_Z m) by lra.
    rewrite <- Zle_Qle in L. exact L.
Qed.

Lemma trunc_ge_integer (q : Q) (m : Z) : inject_Z m <= q -> (m <= Py.trunc q)%Z.
Proof.
  intros H. destruct (Qlt_le_dec q 0) as [C | C].
  - destruct (trunc_nonpos q ltac:(lra)) as [A B].
    assert (L : inject_Z m <= inject_Z (Py.trunc q)) by lra.
    rewrite <- Zle_Qle in L. exact L.
  - destruct (trunc_nonneg q C) as [A B].
    assert (L : inject_Z m < inject_Z (Py.trunc q) + 1) by lra.
    change 1 with (inject_Z 1) in L. rewrite <- inject_Z_plus, <- Zlt_Qlt in L. lia.
Qed.

End PyExact.

Import PyFacts PyExact.

(* ===================================================================== *)
(** ** Dragging a marker: the value it is set to *)
(* ===================================================================== *)


(** The value a marker drag computes, [prev_val + (current_val - prev_val) *
    fine_tune_factor], is exact in binary64: a quarter of an integer. *)
Lemma fine_tuned_value (prev cur : Z) (shift : bool) :
  Z.abs prev < 2 ^ 50 -> Z.abs cur < 2 ^ 50 ->
  exists q,
    Py.add (Py.Int prev)
      (Py.mul (Py.Int (cur - prev)) (Py.Float (if shift then 0.25 else 1.0)%Q))
    = Py.Float q
    /\ (q == inject_Z (if shift then 3 * prev + cur else 4 * cur) * 2 ^ (-2))%Q.
Proof.
  change (2 ^ 50) with 1125899906842624. intros Hp Hc.
  eexists. split; [reflexivity | ].
  cbn [Py.to_float].
  pose proof (fl_integer prev ltac:(change (2 ^ 53) with 9007199254740992; lia)) as A1.
  pose proof (fl_integer (cur - prev)
                ltac:(change (2 ^ 53) with 9007199254740992; lia)) as A2.
  set (f := (if shift then 0.25 else 1.0)%Q).
  set (d := Py.fl (inject_Z (cur - prev))) in *.
  set (p := Py.fl (inject_Z prev)) in *.
  assert (Hf : (f == inject_Z (if shift then 1 else 4) * 2 ^ (-2))%Q).
  { unfold f. destruct shift; reflexivity. }
  assert (A3 : (d * f == inject_Z ((cur - prev) * (if shift then 1 else 4)) * 2 ^ (-2))%Q).
  { rewrite A2, Hf, inject_Z_mult. ring. }
  pose proof (fl_exact _ _ _ A3
                ltac:(change (2 ^ 53) with 9007199254740992; destruct shift; lia)
                ltac:(unfold Py.emin; lia)) as A4.
  set (m := Py.fl (d * f)) in *.
  assert (A5 : (p + m == inject_Z (if shift then 3 * prev + cur else 4 * cur) * 2 ^ (-2))%Q).
  { rewrite A1, A4, A3. change (2 ^ (-2))%Q with (1 # 4)%Q.
    destruct shift; rewrite ?inject_Z_plus, ?inject_Z_mult, ?inject_Z_plus;
      unfold Zminus; rewrite ?inject_Z_plus, ?inject_Z_opp; change (inject_Z 3) with 3%Q;
      change (inject_Z 4) with 4%Q; change (inject_Z 1) with 1%Q; field. }
  apply (Qeq_trans _ (p + m)); [ | exact A5].
  apply (fl_exact _ _ _ A5); [ | unfold Py.emin; lia].
  change (2 ^ 53) with 9007199254740992. destruct shift; lia.
Qed.

Lemma lt_quarter (q : Q) (n e : Z) :
  (q == inject_Z n * 2 ^ (-2))%Q -> Py.lt (Py.Float q) (Py.Int e) = (n <? 4 * e).
Proof.
  intros E. unfold Py.lt. cbn [Py.value]. rewrite E. change (2 ^ (-2))%Q with (1 # 4)%Q.
  destruct (Qcompare_spec (inject_Z n * (1 # 4)) (inject_Z e)) as [C | C | C];
    destruct (Z.ltb_spec n (4 * e)) as [L | L]; try reflexivity; exfalso;
    unfold Qeq, Qlt, Qmult, inject_Z in C; cbn [Qnum Qden] in C; lia.
Qed.

Lemma gt_quarter (q : Q) (n e : Z) :
  (q == inject_Z n * 2 ^ (-2))%Q -> Py.gt (Py.Float q) (Py.Int e) = (4 * e <? n).
Proof.
  intros E. unfold Py.gt, Py.lt. cbn [Py.value]. rewrite E. change (2 ^ (-2))%Q with (1 # 4)%Q.
  destruct (Qcompare_spec (inject_Z e) (inject_Z n * (1 # 4))) as [C | C | C];
    destruct (Z.ltb_spec (4 * e) n) as [L | L]; try reflexivity; exfalso;
    unfold Qeq, Qlt, Qmult, inject_Z in C; cbn [Qnum Qden] in C; lia.
Qed.





(* ===================================================================== *)
(** ** The pixel/value mapping at and beyond the ends of the track *)
(* ===================================================================== *)

Lemma Qle_0_inject (z : Z) : 0 <= z -> (0 <= inject_Z z)%Q.
Proof. intros H. change 0%Q with (inject_Z 0). rewrite <- Zle_Qle. exact H. Qed.

Lemma value_to_pos_clamped (s : ProTrimSlider) (v : Z) :
  _min_val s <= _max_val s ->
  _value_to_pos s v = _value_to_pos s (Z.max (_min_val s) (Z.min v (_max_val s))).
Proof.
  intros H. unfold _value_to_pos.
  replace (Z.max (_min_val s)
             (Z.min (Z.max (_min_val s) (Z.min v (_max_val s))) (_max_val s)))
    with (Z.max (_min_val s) (Z.min v (_max_val s))) by lia.
  reflexivity.
Qed.

(** X7.  [_value_to_pos] keeps every handle on the track.  For a range
    [min < max] and a track of [0 <= track_width < 2 ^ 53] pixels, the pixel
    of any value lies between [handle_width // 2] and
    [track_width + handle_width // 2]; a value at or below [min] maps to the
    first of these exactly and a value at or above [max] to the second. *)
Theorem value_to_pos_stays_on_track (s : ProTrimSlider) (v : Z) :
  let track_width := width s - handle_width s in
  _min_val s < _max_val s ->
  0 <= track_width < 2 ^ 53 ->
  handle_width s / 2 <= _value_to_pos s v <= track_width + handle_width s / 2
  /\ (v <= _min_val s -> _value_to_pos s v = handle_width s / 2)
  /\ (_max_val s <= v -> _value_to_pos s v = track_width + handle_width s / 2).
Proof.
  intros T Hr HT.
  rewrite (value_to_pos_clamped s v ltac:(lia)).
  set (c := Z.max (_min_val s) (Z.min v (_max_val s))).
  assert (Hc : _min_val s <= c <= _max_val s) by (subst c; lia).
  rewrite (value_to_pos_in_range s c Hr Hc). fold T.
  set (R := _max_val s - _min_val s). set (d := c - _min_val s).
  assert (QR : (0 < inject_Z R)%Q).
  { change 0%Q with (inject_Z 0). rewrite <- Zlt_Qlt. subst R. lia. }
  assert (QT : (0 <= inject_Z T)%Q) by (apply Qle_0_inject; lia).
  assert (Qd : (0 <= inject_Z d <= inject_Z R)%Q).
  { split; [apply Qle_0_inject; subst d; lia | rewrite <- Zle_Qle; subst d R; lia]. }
  pose proof (fl_integer T ltac:(lia)) as FT.
  set (t := (inject_Z d / inject_Z R)%Q).
  assert (Ht : (0 <= t <= 1)%Q).
  { subst t. split.
    - apply Qle_shift_div_l; [exact QR | lra].
    - apply Qle_shift_div_r; [exact QR | lra]. }
  assert (H1 : (0 <= Py.fl t <= 1)%Q).
  { split; [apply (fl_ge_integer t 0) | apply (fl_le_integer t 1)];
      solve [reflexivity | apply Ht]. }
  set (q1 := Py.fl t) in *.
  assert (H2 : (0 <= q1 * Py.fl (inject_Z T) <= inject_Z T)%Q) by (rewrite FT; nra).
  assert (Hx : (0 <= Py.fl (q1 * Py.fl (inject_Z T)) <= inject_Z T)%Q).
  { split; [apply (fl_ge_integer _ 0) | apply (fl_le_integer _ T)];
      solve [reflexivity | lia | apply H2]. }
  set (x := Py.fl (q1 * Py.fl (inject_Z T))) in *.
  pose proof (trunc_ge_integer x 0 (proj1 Hx)) as K0.
  pose proof (trunc_le_integer x T (proj2 Hx)) as K1.
  split; [lia | split].
  - intros Hv.
    assert (Ed : d = 0) by (subst d c; lia).
    assert (Et : (t == 0)%Q) by (subst t; rewrite Ed; reflexivity).
    assert (E1 : (q1 <= 0)%Q) by (apply (fl_le_integer t 0); [reflexivity | change (inject_Z 0) with 0%Q; lra]).
    assert (E2 : (q1 * Py.fl (inject_Z T) <= 0)%Q).
    { rewrite FT. assert (q1 == 0)%Q as Z1 by lra. rewrite Z1. lra. }
    pose proof (fl_le_integer _ 0 ltac:(reflexivity) E2) as Ex. fold x in Ex.
    pose proof (trunc_le_integer x 0 Ex). lia.
  - intros Hv.
    assert (Ed : d = R) by (subst d c R; lia).
    assert (Et : (t == 1)%Q) by (subst t; rewrite Ed; field; lra).
    assert (E1 : (1 <= q1)%Q) by (apply (fl_ge_integer t 1); [reflexivity | change (inject_Z 1) with 1%Q; lra]).
    assert (E2 : (inject_Z T <= q1 * Py.fl (inject_Z T))%Q).
    { rewrite FT. assert (q1 == 1)%Q as Z1 by lra. rewrite Z1. lra. }
    pose proof (fl_ge_integer _ T ltac:(lia) E2) as Ex. fold x in Ex.
    pose proof (trunc_ge_integer x T Ex). lia.
Qed.

(** [(pos - handle_width // 2) / track_width], for an [int] or a [float]
    pixel: not above 0 left of the track, not below 1 right of it. *)
Lemma pixel_fraction (pos : Py.num) (h2 T : Z) :
  0 < T < 2 ^ 53 -> Z.abs h2 < 2 ^ 53 ->
  exists b,
    Py.truediv (Py.sub pos (Py.Int h2)) (Py.Int T) = Py.Float b
    /\ ((Py.value pos <= inject_Z h2)%Q -> (b <= 0)%Q)
    /\ ((inject_Z (T + h2) <= Py.value pos)%Q -> (1 <= b)%Q).
Proof.
  intros HT Hh.
  assert (QT : (0 < inject_Z T)%Q).
  { change 0%Q with (inject_Z 0). rewrite <- Zlt_Qlt. lia. }
  destruct pos as [p | q]; cbn [Py.sub Py.truediv Py.value Py.to_float].
  - eexists. split; [reflexivity | split]; intros H.
    + apply (fl_le_integer _ 0); [reflexivity | ].
      apply Qle_shift_div_r; [exact QT | ].
      rewrite <- Zle_Qle in H. rewrite Qmult_0_l.
      change 0%Q with (inject_Z 0). rewrite <- Zle_Qle. lia.
    + apply (fl_ge_integer _ 1); [reflexivity | ].
      apply Qle_shift_div_l; [exact QT | ].
      rewrite <- Zle_Qle in H. rewrite Qmult_1_l. rewrite <- Zle_Qle. lia.
  - pose proof (fl_integer h2 Hh) as Fh. pose proof (fl_integer T ltac:(lia)) as FT.
    eexists. split; [reflexivity | split]; intros H.
    + assert (A : (Py.fl (q - Py.fl (inject_Z h2)) <= 0)%Q).
      { apply (fl_le_integer _ 0); [reflexivity | ]. rewrite Fh.
        change (inject_Z 0) with 0%Q. lra. }
      apply (fl_le_integer _ 0); [reflexivity | ].
      apply Qle_shift_div_r; [rewrite FT; exact QT | ].
      change (inject_Z 0) with 0%Q. lra.
    + rewrite inject_Z_plus in H.
      assert (A : (inject_Z T <= Py.fl (q - Py.fl (inject_Z h2)))%Q).
      { apply (fl_ge_integer _ T); [lia | ]. rewrite Fh. lra. }
      apply (fl_ge_integer _ 1); [reflexivity | ].
      apply Qle_shift_div_l; [rewrite FT; exact QT | ].
      rewrite FT. change (inject_Z 1) with 1%Q. lra.
Qed.

(** X8.  [_pos_to_value] clamps the pointer to the range.  For a range
    [min <= max] (both below [2 ^ 52] in magnitude) on a track of
    [0 < track_width < 2 ^ 53] pixels, the value of any pixel, [int] or
    [float], lies in [[min, max]]; a pointer at or left of
    [handle_width // 2] gives [min] exactly and a pointer at or right of
    [track_width + handle_width // 2] gives [max] exactly. *)
Theorem pos_to_value_clamps_to_range (s : ProTrimSlider) (pos : Py.num) :
  let track_width := width s - handle_width s in
  _min_val s <= _max_val s ->
  0 < track_width < 2 ^ 53 ->
  Z.abs (handle_width s / 2) < 2 ^ 53 ->
  Z.abs (_min_val s) < 2 ^ 52 -> Z.abs (_max_val s) < 2 ^ 52 ->
  _min_val s <= _pos_to_value s pos <= _max_val s
  /\ ((Py.value pos <= inject_Z (handle_width s / 2))%Q ->
      _pos_to_value s pos = _min_val s)
  /\ ((inject_Z (track_width + handle_width s / 2) <= Py.value pos)%Q ->
      _pos_to_value s pos = _max_val s).
Proof.
  intros T Hr HT Hh Hmin Hmax.
  unfold _pos_to_value. fold T.
  assert (E : (T <=? 0) = false) by (apply Z.leb_gt; lia). rewrite E.
  split; [lia | ].
  destruct (pixel_fraction pos (handle_width s / 2) T HT Hh) as (b & Eb & Lo & Hi).
  rewrite Eb. cbn [Py.mul Py.add Py.int Py.to_float].
  set (R := _max_val s - _min_val s).
  change (2 ^ 52) with 4503599627370496 in *.
  assert (BR : Z.abs R < 2 ^ 53) by (change (2 ^ 53) with 9007199254740992; subst R; lia).
  assert (Bmin : Z.abs (_min_val s) < 2 ^ 53) by (change (2 ^ 53) with 9007199254740992; lia).
  assert (Bmax : Z.abs (_max_val s) < 2 ^ 53) by (change (2 ^ 53) with 9007199254740992; lia).
  pose proof (fl_integer R BR) as FR.
  pose proof (fl_integer (_min_val s) Bmin) as Fm.
  assert (QR : (0 <= inject_Z R)%Q) by (apply Qle_0_inject; subst R; lia).
  split; intros H.
  - specialize (Lo H).
    assert (C : (Py.fl (b * Py.fl (inject_Z R)) <= 0)%Q).
    { apply (fl_le_integer _ 0); [reflexivity | ]. rewrite FR.
      change (inject_Z 0) with 0%Q. nra. }
    set (y := Py.fl (b * Py.fl (inject_Z R))) in *.
    assert (V : (Py.fl (Py.fl (inject_Z (_min_val s)) + y) <= inject_Z (_min_val s))%Q).
    { apply fl_le_integer; [exact Bmin | ]. rewrite Fm. lra. }
    apply trunc_le_integer in V. lia.
  - specialize (Hi H).
    assert (C : (inject_Z R <= Py.fl (b * Py.fl (inject_Z R)))%Q).
    { apply (fl_ge_integer _ R); [exact BR | ]. rewrite FR. nra. }
    set (y := Py.fl (b * Py.fl (inject_Z R))) in *.
    assert (V : (inject_Z (_max_val s) <= Py.fl (Py.fl (inject_Z (_min_val s)) + y))%Q).
    { apply fl_ge_integer; [exact Bmax | ]. rewrite Fm.
      assert (inject_Z (_max_val s) == inject_Z (_min_val s) + inject_Z R)%Q as EM.
      { rewrite <- inject_Z_plus. subst R. apply inject_Z_injective. lia. }
      rewrite EM. lra. }
    apply trunc_ge_integer in V. lia.
Qed.

Lemma value_to_pos_stays_on_track_witness :
  8 <= _value_to_pos (ProTrimSlider_init 116) 29 <= 108
  /\ _value_to_pos (ProTrimSlider_init 116) (-5) = 8
  /\ _value_to_pos (ProTrimSlider_init 116) 250 = 108.
Proof.
  destruct (value_to_pos_stays_on_track (ProTrimSlider_init 116) 29
              ltac:(reflexivity) ltac:(split; [discriminate | reflexivity])) as (A & _).
  destruct (value_to_pos_stays_on_track (ProTrimSlider_init 116) (-5)
              ltac:(reflexivity) ltac:(split; [discriminate | reflexivity])) as (_ & B & _).
  destruct (value_to_pos_stays_on_track (ProTrimSlider_init 116) 250
              ltac:(reflexivity) ltac:(split; [discriminate | reflexivity])) as (_ & _ & C).
  split; [exact A | split; [apply B; discriminate | apply C; discriminate]].
Defined.

Lemma pos_to_value_clamps_to_range_witness :
  _pos_to_value (ProTrimSlider_init 116) (Py.Float (-3)) = 0
  /\ _pos_to_value (ProTrimSlider_init 116) (Py.Float 120.5) = 100.
Proof.
  destruct (pos_to_value_clamps_to_range (ProTrimSlider_init 116) (Py.Float (-3))
              ltac:(discriminate) ltac:(split; reflexivity) ltac:(reflexivity)
              ltac:(reflexivity) ltac:(reflexivity)) as (_ & A & _).
  destruct (pos_to_value_clamps_to_range (ProTrimSlider_init 116) (Py.Float 120.5)
              ltac:(discriminate) ltac:(split; reflexivity) ltac:(reflexivity)
              ltac:(reflexivity) ltac:(reflexivity)) as (_ & _ & B).
  split; [apply A; discriminate | apply B; discriminate].
Defined.

(* ===================================================================== *)
(** ** The trim range stays in order *)
(* ===================================================================== *)

Lemma digit_val_range (c : ascii) : Py.is_digit c = true -> 0 <= Py.digit_val c <= 9.
Proof.
  unfold Py.is_digit, Py.digit_val. rewrite Bool.andb_true_iff.
  intros [A B]. apply Nat.leb_le in A, B. lia.
Qed.

Lemma parse_time_range (s : string) (n : Z) :
  parse_time s = Some n -> 0 <= n < 2 ^ 31.
Proof.
  change (2 ^ 31) with 2147483648.
  unfold parse_time, Re.match_time.
  assert (G : forall g1 r g2 g3,
             (exists a, g1 = String a EmptyString /\ Py.is_digit a = true)
             \/ (exists a b, g1 = String a (String b EmptyString)
                             /\ Py.is_digit a = true /\ Py.is_digit b = true) ->
             Re.after_minutes r = Some (g2, g3) ->
             0 <= (Py.int_str g1 * 60 + Py.int_str g2) * 1000 + Py.int_str g3
             < 2147483648).
  { intros g1 r g2 g3 H1 A.
    apply after_minutes_inv in A
      as (c & d & e & f & g & rest & -> & -> & -> & Hc & Hd & He & Hf & Hg).
    apply digit_val_range in Hc, Hd, He, Hf, Hg.
    destruct H1 as [(a & -> & Ha) | (a & b & -> & Ha & Hb)].
    - apply digit_val_range in Ha. unfold Py.int_str. cbn [Py.int_of_digits]. lia.
    - apply digit_val_range in Ha, Hb. unfold Py.int_str. cbn [Py.int_of_digits]. lia. }
  destruct (Re.digits 2 s) as [[h1 r] |] eqn:D2.
  - destruct (Re.after_minutes r) as [[h2 h3] |] eqn:A.
    + intros [= <-]. apply (G h1 r h2 h3); [ | exact A].
      right. apply digits_2_inv in D2 as (a & b & _ & -> & Ha & Hb). eauto.
    + destruct (Re.digits 1 s) as [[k1 r1] |] eqn:D1; [ | discriminate].
      destruct (Re.after_minutes r1) as [[k2 k3] |] eqn:A1; [ | discriminate].
      intros [= <-]. apply (G k1 r1 k2 k3); [ | exact A1].
      left. apply digits_1_inv in D1 as (a & _ & -> & Ha). eauto.
  - destruct (Re.digits 1 s) as [[k1 r1] |] eqn:D1; [ | discriminate].
    destruct (Re.after_minutes r1) as [[k2 k3] |] eqn:A1; [ | discriminate].
    intros [= <-]. apply (G k1 r1 k2 k3); [ | exact A1].
    left. apply digits_1_inv in D1 as (a & _ & -> & Ha). eauto.
Qed.

Lemma pos_to_value_range (s : ProTrimSlider) (pos : Py.num) :
  _min_val s <= _max_val s -> _min_val s <= _pos_to_value s pos <= _max_val s.
Proof.
  intros H. unfold _pos_to_value. destruct (width s - handle_width s <=? 0); lia.
Qed.

(** Unfolding steps the proofs below share. *)
Ltac range_facts := change (2 ^ 31) with 2147483648 in *.

Ltac split_ifs :=
  repeat match goal with
         | |- context [if ?b then _ else _] => destruct b eqn:?
         | |- context [match ?x with Some _ => _ | None => _ end] => destruct x eqn:?
         | |- context [match ?x with PlayingState => _ | _ => _ end] => destruct x eqn:?
         end.

Lemma notify_keeps_trim_range_ok (w : MainWindow) (n : notification) :
  trim_range_ok w -> expected w (Notified n) -> trim_range_ok (notify w n).
Proof.
  unfold trim_range_ok, expected. range_facts.
  intros (S1 & S2 & O & B & Mn & Mx & P) E.
  destruct n as [p | st | d]; unfold notify, position_changed, duration_changed,
    media_state_changed, reset_trim_times.
  - split_ifs; cbn; repeat split; lia.
  - repeat split; lia.
  - split_ifs; cbn; repeat split; lia.
Qed.

Lemma mouseMoveEvent_keeps_trim_range_ok (w : MainWindow) (ex : Py.num) (shift : bool) :
  trim_range_ok w -> trim_range_ok (mouseMoveEvent w ex shift).
Proof.
  unfold trim_range_ok. range_facts.
  intros (S1 & S2 & O & B & Mn & Mx & P).
  pose proof (pos_to_value_range (position_slider w) ex ltac:(lia)) as C.
  unfold mouseMoveEvent.
  destruct (_dragging (position_slider w)) as [[ | | ] | ].
  - cbn. repeat split; lia.
  - set (prev := _start_marker (position_slider w)) in *.
    set (cur := _pos_to_value (position_slider w) ex) in *.
    destruct (fine_tuned_value prev cur shift) as (q & Eq & Hq);
      [change (2 ^ 50) with 1125899906842624; lia .. | ].
    rewrite Eq, (lt_quarter _ _ _ Hq). cbn [Py.int]. rewrite (trunc_quarter _ _ Hq).
    set (n := if shift then 3 * prev + cur else 4 * cur) in *.
    assert (Hn : 0 <= n) by (subst n; destruct shift; lia).
    clearbody n.
    destruct (Z.ltb_spec n (4 * _end_marker (position_slider w))) as [L | L].
    + rewrite (Z.quot_div_nonneg n 4 Hn ltac:(lia)).
      pose proof (Z.div_mod n 4 ltac:(lia)). pose proof (Z.mod_pos_bound n 4 ltac:(lia)).
      cbn. repeat split; lia.
    + repeat split; lia.
  - set (prev := _end_marker (position_slider w)) in *.
    set (cur := _pos_to_value (position_slider w) ex) in *.
    destruct (fine_tuned_value prev cur shift) as (q & Eq & Hq);
      [change (2 ^ 50) with 1125899906842624; lia .. | ].
    rewrite Eq, (gt_quarter _ _ _ Hq). cbn [Py.int]. rewrite (trunc_quarter _ _ Hq).
    set (n := if shift then 3 * prev + cur else 4 * cur) in *.
    assert (Hn : 0 <= n <= 4 * Z.max prev cur) by (subst n; destruct shift; lia).
    clearbody n.
    destruct (Z.ltb_spec (4 * _start_marker (position_slider w)) n) as [L | L].
    + rewrite (Z.quot_div_nonneg n 4 ltac:(lia) ltac:(lia)).
      pose proof (Z.div_mod n 4 ltac:(lia)). pose proof (Z.mod_pos_bound n 4 ltac:(lia)).
      cbn. repeat split; lia.
    + repeat split; lia.
  - repeat split; lia.
Qed.

Lemma handle_keeps_trim_range_ok (w : MainWindow) (e : event) :
  trim_range_ok w -> expected w e -> trim_range_ok (handle w e).
Proof.
  intros I E.
  destruct e as [n | file_path | | checked | | | new_text | new_text
                 | ex shift | ex shift | | k]; cbn [handle].
  - apply notify_keeps_trim_range_ok; assumption.
  - revert I. unfold trim_range_ok. range_facts.
    intros (S1 & S2 & O & B & Mn & Mx & P).
    unfold load_media, play_media.
    destruct (playbackState _); cbn -[format_time]; repeat split; lia.
  - revert I. unfold trim_range_ok, play_media.
    destruct (playbackState _); cbn; intros; assumption.
  - exact I.
  - revert I. unfold trim_range_ok, set_start_time_from_playhead. range_facts.
    intros (S1 & S2 & O & B & Mn & Mx & P).
    destruct (Z.ltb_spec (position (media_player w)) (end_time_ms w));
      cbn; repeat split; lia.
  - revert I. unfold trim_range_ok, set_end_time_from_playhead. range_facts.
    intros (S1 & S2 & O & B & Mn & Mx & P).
    destruct (Z.ltb_spec (start_time_ms w) (position (media_player w)));
      cbn; repeat split; lia.
  - revert I. unfold trim_range_ok, set_start_time_from_text.
    intros (S1 & S2 & O & B & Mn & Mx & P). cbn [ui with_ui time_edit_start set_time_edit_start].
    destruct (parse_time new_text) as [n | ] eqn:T.
    + apply parse_time_range in T. range_facts. cbn.
      destruct (Z.ltb_spec n (end_time_ms w)); cbn; repeat split; lia.
    + cbn. repeat split; lia.
  - revert I. unfold trim_range_ok, set_end_time_from_text.
    intros (S1 & S2 & O & B & Mn & Mx & P). cbn [ui with_ui time_edit_end set_time_edit_end].
    destruct (parse_time new_text) as [n | ] eqn:T.
    + apply parse_time_range in T. range_facts. cbn.
      destruct (Z.ltb_spec (start_time_ms w) n); cbn; repeat split; lia.
    + cbn. repeat split; lia.
  - unfold mousePressEvent. apply mouseMoveEvent_keeps_trim_range_ok.
    revert I. unfold trim_range_ok, on_slider_pressed.
    intros (S1 & S2 & O & B & Mn & Mx & P).
    split_ifs; cbn; repeat split; lia.
  - apply mouseMoveEvent_keeps_trim_range_ok. exact I.
  - revert I. unfold trim_range_ok, mouseReleaseEvent, on_slider_released. range_facts.
    intros (S1 & S2 & O & B & Mn & Mx & P).
    destruct (_dragging (position_slider w)) as [[ | | ] | ];
      split_ifs; cbn; repeat split; lia.
  - revert I E. unfold trim_range_ok, expected, keyPressEvent. range_facts.
    intros (S1 & S2 & O & B & Mn & Mx & P) E.
    destruct k; cbn; repeat split; lia.
Qed.

Lemma run_keeps_trim_range_ok (es : list event) :
  forall w, trim_range_ok w -> expected_all w es -> trim_range_ok (fold_left handle es w).
Proof.
  induction es as [ | e es IH]; intros w I E; cbn [fold_left].
  - exact I.
  - destruct E as [E1 E2]. apply IH; [ | exact E2].
    apply handle_keeps_trim_range_ok; assumption.
Qed.

Lemma duration_reported_trim_range_ok (w : MainWindow) (d : Z) :
  0 <= position (media_player w) < 2 ^ 31 -> 0 <= d < 2 ^ 31 ->
  trim_range_ok (notify w (durationChanged d)).
Proof.
  unfold trim_range_ok. range_facts. intros P D.
  unfold notify, duration_changed, reset_trim_times.
  split_ifs; cbn; repeat split; lia.
Qed.

(** X9.  Once the player has reported the duration of a media (from a
    state in which its position fits a C [int]), the trim range stays in
    order whatever the user and the player do next: under any
    sequence of notifications (with positions and durations that fit a C
    [int]), file loads, clicks on play, loop, set-start and set-end, edits of
    the two text boxes, mouse presses, moves and releases on the slider and
    key presses, [0 <= start_time_ms <= end_time_ms], the slider's markers
    equal the window's two times, and the slider's range starts at 0. *)
Theorem trim_range_stays_ordered (w : MainWindow) (d : Z) (es : list event) :
  let w1 := notify w (durationChanged d) in
  0 <= position (media_player w) < 2 ^ 31 -> 0 <= d < 2 ^ 31 ->
  expected_all w1 es ->
  trim_range_ok (fold_left handle es w1).
Proof.
  intros w1 P D E. apply run_keeps_trim_range_ok; [ | exact E].
  apply duration_reported_trim_range_ok; assumption.
Qed.

Lemma trim_range_stays_ordered_witness :
  trim_range_ok (fold_left handle sample_session loaded_window).
Proof.
  apply (trim_range_stays_ordered (load_media fresh_window "/lib/clip.mp4") 10000
           sample_session).
  - vm_compute. split; [discriminate | reflexivity].
  - vm_compute. split; [discriminate | reflexivity].
  - vm_compute. repeat split; discriminate.
Defined.

(* ===================================================================== *)
(** ** The text boxes of the trim range *)
(* ===================================================================== *)

Lemma format_time_parses_back (ms : Z) :
  0 <= ms -> ms / 1000 / 60 < 100 -> parse_time (format_time ms) = Some ms.
Proof.
  intros H0 Hm. unfold format_time.
  assert (L : (ms <? 0) = false) by (apply Z.ltb_ge; lia). rewrite L.
  pose proof (Z.div_pos ms 1000 H0 ltac:(lia)) as Hs.
  pose proof (Z.div_pos (ms / 1000) 60 Hs ltac:(lia)) as Hmin.
  pose proof (Z.mod_pos_bound (ms / 1000) 60 ltac:(lia)) as Hsec.
  pose proof (Z.mod_pos_bound ms 1000 ltac:(lia)) as Hmil.
  rewrite format_0d_2 by lia. rewrite format_0d_2 by lia. rewrite format_0d_3 by lia.
  unfold two_digits, three_digits. cbv [String.append].
  set (m := ms / 1000 / 60) in *. set (s := (ms / 1000) mod 60) in *.
  set (r := ms mod 1000) in *.
  rewrite parse_time_two_digit_minutes.
  - f_equal.
    pose proof (Z.div_mod m 10 ltac:(lia)). pose proof (Z.div_mod s 10 ltac:(lia)).
    pose proof (Z.div_mod r 100 ltac:(lia)).
    pose proof (Z.div_mod r 10 ltac:(lia)).
    pose proof (Z.div_mod (r / 10) 10 ltac:(lia)).
    pose proof (Z.div_mod ms 1000 ltac:(lia)).
    pose proof (Z.div_mod (ms / 1000) 60 ltac:(lia)).
    assert (E : r / 100 = r / 10 / 10) by (rewrite Z.div_div by lia; reflexivity).
    subst m s r. lia.
  - split; [apply Z.div_pos; lia | apply Z.div_lt_upper_bound; lia].
  - apply Z.mod_pos_bound; lia.
  - split; [apply Z.div_pos; lia | apply Z.div_lt_upper_bound; lia].
  - apply Z.mod_pos_bound; lia.
  - split; [apply Z.div_pos; lia | apply Z.div_lt_upper_bound; lia].
  - apply Z.mod_pos_bound; lia.
  - apply Z.mod_pos_bound; lia.
Qed.

(** X10.  After an edit of a trim text box is finished, the box shows the
    time the window holds.  Whatever was typed into the start box,
    [set_start_time_from_text] leaves a text that [parse_time] reads as
    [start_time_ms]: either the typed text was accepted and became the start,
    or it was rejected (not a timecode, or not before the end) and the box was
    reset to [format_time(start_time_ms)].  The same holds for the end box.
    (For times of at least 0 and below 100 minutes; beyond, the text
    [format_time] writes has three digits of minutes.) *)
Theorem edited_text_parses_to_trim_time (w : MainWindow) (new_text : string) :
  let ws := handle w (StartEdited new_text) in
  let we := handle w (EndEdited new_text) in
  0 <= start_time_ms w -> start_time_ms w / 1000 / 60 < 100 ->
  0 <= end_time_ms w -> end_time_ms w / 1000 / 60 < 100 ->
  parse_time (time_edit_start (ui ws)) = Some (start_time_ms ws)
  /\ parse_time (time_edit_end (ui we)) = Some (end_time_ms we).
Proof.
  intros ws we S0 S1 E0 E1. subst ws we. cbn [handle].
  unfold set_start_time_from_text, set_end_time_from_text.
  cbn [ui with_ui time_edit_start set_time_edit_start time_edit_end set_time_edit_end].
  destruct (parse_time new_text) as [n | ] eqn:T.
  - split.
    + destruct (n <? end_time_ms (with_ui (set_time_edit_start new_text (ui w)) w));
        cbn; [exact T | apply format_time_parses_back; assumption].
    + destruct (start_time_ms (with_ui (set_time_edit_end new_text (ui w)) w) <? n);
        cbn; [exact T | apply format_time_parses_back; assumption].
  - cbn. split; apply format_time_parses_back; assumption.
Qed.

Lemma edited_text_parses_to_trim_time_witness :
  time_edit_start (ui (handle loaded_window (StartEdited "soon"))) = "00:00.000"%string
  /\ parse_time (time_edit_start (ui (handle loaded_window (StartEdited "soon"))))
     = Some (start_time_ms (handle loaded_window (StartEdited "soon")))
  /\ parse_time (time_edit_end (ui (handle loaded_window (EndEdited "soon"))))
     = Some (end_time_ms (handle loaded_window (EndEdited "soon"))).
Proof.
  split; [reflexivity | ].
  apply (edited_text_parses_to_trim_time loaded_window "soon");
    vm_compute; solve [reflexivity | discriminate].
Defined.

(* ===================================================================== *)
(** ** Playback across a drag *)
(* ===================================================================== *)

Lemma mouseMoveEvent_playback (w : MainWindow) (ex : Py.num) (shift : bool) :
  playbackState (media_player (mouseMoveEvent w ex shift)) = playbackState (media_player w)
  /\ was_playing_before_drag (mouseMoveEvent w ex shift) = was_playing_before_drag w.
Proof.
  unfold mouseMoveEvent.
  destruct (_dragging (position_slider w)) as [[ | | ] | ]; [ | | | split; reflexivity].
  - split; reflexivity.
  - destruct (Py.lt _ _); split; reflexivity.
  - destruct (Py.gt _ _); split; reflexivity.
Qed.

Lemma moves_playback (moves : list (Py.num * bool)) :
  forall w,
    let dragged := fold_left (fun w m => mouseMoveEvent w m.1 m.2) moves w in
    playbackState (media_player dragged) = playbackState (media_player w)
    /\ was_playing_before_drag dragged = was_playing_before_drag w.
Proof.
  induction moves as [ | m moves IH]; intros w; cbn [fold_left].
  - split; reflexivity.
  - destruct (IH (mouseMoveEvent w m.1 m.2)) as [A B].
    destruct (mouseMoveEvent_playback w m.1 m.2) as [C D].
    cbn zeta in *. rewrite A, B, C, D. split; reflexivity.
Qed.

Lemma mouseReleaseEvent_playback (w : MainWindow) :
  playbackState (media_player (mouseReleaseEvent w))
  = (if was_playing_before_drag w then PlayingState else playbackState (media_player w))
  /\ was_playing_before_drag (mouseReleaseEvent w) = false.
Proof.
  unfold mouseReleaseEvent, on_slider_released.
  set (w1 := match _dragging (position_slider w) with
             | Some DragPosition => _
             | _ => w
             end).
  assert (H : playbackState (media_player w1) = playbackState (media_player w)
              /\ was_playing_before_drag w1 = was_playing_before_drag w).
  { subst w1. destruct (_dragging (position_slider w)) as [[ | | ] | ];
      repeat match goal with |- context [if ?b then _ else _] => destruct b end;
      split; reflexivity. }
  destruct H as [H1 H2]. clearbody w1.
  cbn [was_playing_before_drag with_position_slider media_player
       with_was_playing_before_drag].
  rewrite H2. destruct (was_playing_before_drag w); cbn; rewrite ?H1; split; reflexivity.
Qed.

(** X11.  A drag on the slider suspends playback and resumes it.  From
    [mousePressEvent] through any number of [mouseMoveEvent]s the player is
    not playing; after [mouseReleaseEvent] its playback state is what it was
    before the press, and [was_playing_before_drag] is cleared. *)
Theorem drag_resumes_playback
    (w : MainWindow) (ex : Py.num) (shift : bool) (moves : list (Py.num * bool)) :
  let pressed := mousePressEvent w ex shift in
  let dragged := fold_left (fun w m => mouseMoveEvent w m.1 m.2) moves pressed in
  playbackState (media_player dragged) <> PlayingState
  /\ playbackState (media_player (mouseReleaseEvent dragged))
     = playbackState (media_player w)
  /\ was_playing_before_drag (mouseReleaseEvent dragged) = false.
Proof.
  intros pressed dragged.
  destruct (moves_playback moves pressed) as [A B]. fold dragged in A, B.
  destruct (mouseReleaseEvent_playback dragged) as [C D].
  rewrite C, D, A, B. subst pressed. unfold mousePressEvent.
  destruct (mouseMoveEvent_playback
              (on_slider_pressed
                 (with_position_slider
                    (set_dragging (position_slider w)
                       (Some (press_target (position_slider w) ex))) w)) ex shift)
    as [E F].
  rewrite E, F. unfold on_slider_pressed. cbn [media_player with_position_slider].
  destruct (playbackState (media_player w)) eqn:St; cbn; rewrite ?St;
    repeat split; solve [reflexivity | discriminate].
Qed.

(* ===================================================================== *)
(** ** Thumbnails: a file that has to be generated *)
(* ===================================================================== *)

Section ThumbnailOutcome.

Variable subprocess_run : list arg -> disk -> ended * disk.


End ThumbnailOutcome.


(* ===================================================================== *)
(** ** The trim export: success *)
(* ===================================================================== *)



Section TrimSuccess.

Variable subprocess_run : list arg -> disk -> ended * disk.



End TrimSuccess.


(* ===================================================================== *)
(** ** Paths *)
(* ===================================================================== *)

Import PyPath.

Lemma append_nil (f : string) : (EmptyString ++ f)%string = f.
Proof. reflexivity. Qed.

Lemma append_cons (a : ascii) (x f : string) :
  (String a x ++ f)%string = String a (x ++ f).
Proof. reflexivity. Qed.

Lemma substring_all (s : string) : substring 0 (String.length s) s = s.
Proof.
  induction s as [ | a s IH]; cbn [String.length substring];
    [reflexivity | rewrite IH; reflexivity].
Qed.

Lemma substring_after (x f : string) :
  substring (String.length x) (String.length f) (x ++ f) = f.
Proof.
  induction x as [ | a x IH]; rewrite ?append_nil, ?append_cons;
    cbn [String.length substring].
  - apply substring_all.
  - exact IH.
Qed.

Lemma length_append (x f : string) :
  String.length (x ++ f) = (String.length x + String.length f)%nat.
Proof.
  induction x as [ | a x IH]; rewrite ?append_nil, ?append_cons;
    cbn [String.length Nat.add]; [reflexivity | rewrite IH; reflexivity].
Qed.

Lemma after_last_none (c : ascii) (f : string) :
  has_char c f = false -> Py.after_last c f = 0%nat.
Proof.
  induction f as [ | a f IH]; cbn [has_char Py.after_last]; [reflexivity | ].
  intros H. apply Bool.orb_false_iff in H as [H1 H2]. rewrite (IH H2), H1. reflexivity.
Qed.

Lemma after_last_append (c : ascii) (x f : string) :
  has_char c f = false ->
  Py.after_last c (x ++ f) = Py.after_last c x.
Proof.
  intros H. induction x as [ | a x IH]; rewrite ?append_nil, ?append_cons;
    cbn [Py.after_last].
  - apply after_last_none. exact H.
  - rewrite IH. reflexivity.
Qed.

Lemma after_last_ends (c : ascii) (x : string) :
  Py.after_last c (x ++ String c EmptyString) = S (String.length x).
Proof.
  induction x as [ | a x IH]; rewrite ?append_nil, ?append_cons;
    cbn [Py.after_last String.length].
  - rewrite Ascii.eqb_refl. reflexivity.
  - rewrite IH. reflexivity.
Qed.

Lemma append_assoc (a b c : string) : ((a ++ b) ++ c = a ++ (b ++ c))%string.
Proof.
  induction a as [ | x a IH]; rewrite ?append_nil, ?append_cons;
    [reflexivity | rewrite IH; reflexivity].
Qed.

Lemma endswith_char (c : ascii) (a : string) :
  Py.endswith a (String c EmptyString) = true ->
  exists x, a = (x ++ String c EmptyString)%string.
Proof.
  unfold Py.endswith. cbn [String.length].
  induction a as [ | h a IH]; [discriminate | ].
  destruct a as [ | h' a'].
  - cbn. destruct (Ascii.eqb_spec h c) as [-> | N]; [ | discriminate].
    intros _. exists EmptyString. reflexivity.
  - intros H.
    assert (H' : ((1 <=? String.length (String h' a'))%nat
                  && String.eqb (substring (String.length (String h' a') - 1) 1
                                   (String h' a')) (String c EmptyString)) = true).
    { cbn [String.length] in *. rewrite Bool.andb_true_iff in *.
      destruct H as [_ H]. split; [reflexivity | ].
      replace (S (S (String.length a')) - 1)%nat with (S (String.length a')) in H by lia.
      cbn [substring] in H.
      replace (S (String.length a') - 1)%nat with (String.length a') by lia.
      exact H. }
    destruct (IH H') as (x & E). exists (String h x). rewrite append_cons, <- E.
    reflexivity.
Qed.

(** A path ends in the name that was joined to it. *)
Lemma basename_path_join (a f : string) :
  has_char "/" f = false -> Py.basename (Py.path_join a f) = f.
Proof.
  intros H.
  assert (B : forall x, Py.after_last "/" x = String.length x ->
                        Py.basename (x ++ f) = f).
  { intros x E. unfold Py.basename.
    rewrite (after_last_append "/" x f H), E, length_append.
    replace (String.length x + String.length f - String.length x)%nat
      with (String.length f) by lia.
    apply substring_after. }
  unfold Py.path_join.
  assert (P : String.prefix "/" f = false).
  { destruct f as [ | c r]; [reflexivity | ].
    cbn [has_char] in H. apply Bool.orb_false_iff in H as [H1 _].
    cbn [String.prefix]. destruct (ascii_dec "/" c) as [E | N]; [ | reflexivity].
    subst c. discriminate. }
  rewrite P.
  destruct (String.eqb_spec a EmptyString) as [-> | Na]; cbn [orb].
  - apply (B EmptyString). reflexivity.
  - destruct (Py.endswith a "/") eqn:E.
    + destruct (endswith_char "/" a E) as (x & ->).
      apply B. rewrite after_last_ends, length_append. cbn. lia.
    + rewrite <- append_assoc. apply B.
      rewrite after_last_ends, length_append. cbn. lia.
Qed.

(* ===================================================================== *)
(** ** Filling the cache list from the cache directory *)
(* ===================================================================== *)






(* ===================================================================== *)
(** ** Deleting and renaming a cache entry *)
(* ===================================================================== *)

(** X15.  What [delete_cache_item] does to the selected entry.  Without
    confirmation nothing changes.  With it, the player is cleared first when
    the entry's file is the loaded media (no media path, no source, trim range
    0 to 0, play and trim disabled) and left alone otherwise; then, when
    [os.remove] succeeded, that row and no other is taken out of the list;
    when it raised [OSError], the list is as it was and "Delete Error" is
    shown: a loaded file that could not be deleted is unloaded all the
    same. *)
Theorem delete_cache_item_outcomes
    (w : MainWindow) (row : nat) (it : QListWidgetItem) (removed : option string) :
  cache_list w !! row = Some it ->
  let w' := delete_cache_item w (Some row) true removed in
  delete_cache_item w (Some row) false removed = w
  /\ (current_media_path w = Some (data it) ->
      current_media_path w' = None
      /\ source (media_player w') = None
      /\ start_time_ms w' = 0 /\ end_time_ms w' = 0
      /\ btn_play_enabled (ui w') = false /\ btn_trim_enabled (ui w') = false)
  /\ (current_media_path w <> Some (data it) ->
      current_media_path w' = current_media_path w
      /\ media_player w' = media_player w
      /\ start_time_ms w' = start_time_ms w /\ end_time_ms w' = end_time_ms w)
  /\ match removed with
     | None => cache_list w' = delete row (cache_list w) /\ new_effects w w' = []
     | Some e =>
         cache_list w' = cache_list w
         /\ new_effects w w'
            = [MessageBoxCritical "Delete Error" ("Could not delete file: " ++ e)]
     end.
Proof.
  intros Hrow w'. subst w'. unfold delete_cache_item. rewrite Hrow.
  split; [reflexivity | ].
  destruct (current_media_path w) as [current | ] eqn:C.
  - destruct (String.eqb_spec current (data it)) as [-> | N].
    + split; [intros _ | split; [intros H; contradiction | ]];
        destruct removed as [e | ]; cbn -[format_time];
        rewrite ?Hrow; repeat split;
        try (apply new_effects_app; cbn -[format_time]; rewrite ?app_nil_r; reflexivity).
    + split; [intros [= E]; contradiction | split; [intros _ | ]];
        destruct removed as [e | ]; cbn -[format_time];
        rewrite ?C; repeat split;
        try (apply new_effects_app; cbn -[format_time]; rewrite ?app_nil_r; reflexivity).
  - split; [discriminate | split; [intros _ | ]];
      destruct removed as [e | ]; cbn -[format_time];
      rewrite ?C; repeat split;
      try (apply new_effects_app; cbn -[format_time]; rewrite ?app_nil_r; reflexivity).
Qed.

(** X16.  What [rename_cache_item] does to the selected entry.  A cancelled
    dialog, an empty name and the old name change nothing.  Otherwise, when
    [os.rename] succeeded, that row gets the new name as text and the new
    name joined to the directory of the old path as path, keeps its icon, and
    no other row changes; for a new name without a slash the entry is again
    labelled with the name of its file.  When [os.rename] raised [OSError]
    the list is as it was and "Rename Error" is shown.  In no case is
    [current_media_path] updated, also when the renamed file is the loaded
    media. *)
Theorem rename_cache_item_outcomes
    (w : MainWindow) (row : nat) (it : QListWidgetItem) (new_name : string)
    (renamed : option string) :
  cache_list w !! row = Some it ->
  new_name <> EmptyString ->
  new_name <> Py.basename (data it) ->
  let w' := rename_cache_item w (Some row) new_name true renamed in
  rename_cache_item w (Some row) new_name false renamed = w
  /\ rename_cache_item w (Some row) EmptyString true renamed = w
  /\ rename_cache_item w (Some row) (Py.basename (data it)) true renamed = w
  /\ current_media_path w' = current_media_path w
  /\ match renamed with
     | None =>
         new_effects w w' = []
         /\ cache_list w'
            = <[row := {| text := new_name;
                          data := Py.path_join (dirname (data it)) new_name;
                          icon := icon it |}]> (cache_list w)
         /\ length (cache_list w') = length (cache_list w)
         /\ (forall i, i <> row -> cache_list w' !! i = cache_list w !! i)
         /\ (has_char "/" new_name = false ->
             exists it', cache_list w' !! row = Some it' /\ text it' = new_name
                         /\ labelled_by_file it')
     | Some e =>
         cache_list w' = cache_list w
         /\ new_effects w w'
            = [MessageBoxCritical "Rename Error" ("Could not rename file: " ++ e)]
     end.
Proof.
  intros Hrow Hne Hnew w'. subst w'. unfold rename_cache_item. rewrite Hrow.
  rewrite (proj2 (String.eqb_neq _ _) Hne), (proj2 (String.eqb_neq _ _) Hnew).
  rewrite !String.eqb_refl. cbn [andb negb]. rewrite Bool.andb_false_r.
  split; [reflexivity | split; [reflexivity | split; [reflexivity | ]]].
  destruct renamed as [e | ].
  - split; [reflexivity | split; [reflexivity | ]].
    apply new_effects_app. reflexivity.
  - cbn [current_media_path cache_list with_cache_list].
    split; [reflexivity | split; [ | split; [reflexivity | split; [ | split]]]].
    + apply new_effects_app. cbn [log with_cache_list]. rewrite app_nil_r. reflexivity.
    + apply length_insert.
    + intros i Hi. apply list_lookup_insert_ne. congruence.
    + intros Hs. eexists. split; [ | split].
      * apply list_lookup_insert_eq. apply lookup_lt_Some in Hrow. exact Hrow.
      * reflexivity.
      * unfold labelled_by_file. cbn [text data]. symmetry.
        apply basename_path_join. exact Hs.
Qed.

Lemma delete_cache_item_outcomes_witness :
  current_media_path (delete_cache_item cached_playing (Some 0%nat) true
                        (Some "Permission denied"%string)) = None
  /\ cache_list (delete_cache_item cached_playing (Some 0%nat) true
                   (Some "Permission denied"%string))
     = cache_list cached_playing.
Proof.
  destruct (delete_cache_item_outcomes cached_playing 0
              {| text := "b.mp4"; data := "/cache/b.mp4"; icon := SP_MediaPlay |}
              (Some "Permission denied"%string) ltac:(reflexivity))
    as (_ & A & _ & B).
  split; [apply A; reflexivity | apply B].
Defined.

Lemma rename_cache_item_outcomes_witness :
  (text <$> cache_list (rename_cache_item cached_window (Some 1%nat) "voice.wav" true None))
  = ["b.mp4"; "voice.wav"; "c.mkv"]%string.
Proof.
  destruct (rename_cache_item_outcomes cached_window 1
              {| text := "a.WAV"; data := "/cache/a.WAV"; icon := SP_MediaVolume |}
              "voice.wav" None ltac:(reflexivity) ltac:(discriminate)
              ltac:(discriminate))
    as (_ & _ & _ & _ & _ & E & _).
  rewrite E. reflexivity.
Defined.

(* ===================================================================== *)
(** ** The configuration file and the library list *)
(* ===================================================================== *)


Lemma contains_list (paths : list string) (p : string) :
  contains (JList (JStr <$> paths)) p = Some (bool_decide (p ∈ paths)).
Proof.
  cbn [contains]. f_equal. induction paths as [ | a paths IH].
  - reflexivity.
  - rewrite fmap_cons. cbn [existsb]. rewrite IH. cbn [equals_str].
    destruct (String.eqb_spec a p) as [-> | N].
    + symmetry. apply bool_decide_eq_true_2. left.
    + cbn [orb]. apply bool_decide_ext. rewrite elem_of_cons. split; [tauto | ].
      intros [E | H]; [congruence | exact H].
Qed.

Lemma filter_absent (paths : list string) (p : string) :
  p ∉ paths -> filter (fun q => q <> p) paths = paths.
Proof.
  induction paths as [ | a paths IH]; intros H; [reflexivity | ].
  apply not_elem_of_cons in H as [H1 H2].
  rewrite filter_cons_True by congruence. f_equal. apply IH. exact H2.
Qed.

Lemma remove_list (paths : list string) (p : string) :
  NoDup paths ->
  remove p (JStr <$> paths) = JStr <$> (filter (fun q => q <> p) paths).
Proof.
  intros ND. induction ND as [ | a paths Ha ND IH].
  - reflexivity.
  - rewrite fmap_cons. cbn [remove equals_str].
    destruct (String.eqb_spec a p) as [-> | N].
    + rewrite filter_cons_False by tauto.
      f_equal. symmetry. apply filter_absent. exact Ha.
    + rewrite filter_cons_True by exact N. rewrite fmap_cons. f_equal. exact IH.
Qed.

(** One event on a library list of distinct strings: it returns, and the
    list afterwards. *)
Lemma settings_step_library_list (s : Settings * config_file) (e : settings_event)
    (paths : list string) :
  library_list s.1 paths ->
  exists s',
    settings_step s e = Returns s'
    /\ library_list s'.1
         match e with
         | LibraryAdded p =>
             if bool_decide (p = EmptyString \/ p ∈ paths) then paths else paths ++ [p]
         | LibraryRemoved (Some p) => filter (fun q => q <> p) paths
         | _ => paths
         end
    /\ match e with
       | VolumeChanged _ => s'.2 = s.2
       | LibraryAdded p =>
           s'.2 = if bool_decide (p = EmptyString \/ p ∈ paths) then s.2
                  else save_config s'.1
       | LibraryRemoved None => s'.2 = s.2
       | LibraryRemoved (Some p) =>
           s'.2 = if bool_decide (p ∈ paths) then save_config s'.1 else s.2
       | _ => s'.2 = save_config s'.1
       end.
Proof.
  intros [E ND]. destruct s as [st f]. cbn [fst snd] in *.
  destruct e as [p | [p | ] | mode | mode | value]; cbn [settings_step fst snd].
  - unfold add_library. destruct (String.eqb_spec p EmptyString) as [-> | N].
    + exists (st, f). rewrite bool_decide_eq_true_2 by (left; reflexivity).
      repeat split; assumption.
    + rewrite E, contains_list. destruct (bool_decide (p ∈ paths)) eqn:B.
      * apply bool_decide_eq_true_1 in B.
        rewrite bool_decide_eq_true_2 by (right; exact B).
        exists (st, f). split; [reflexivity | split; [split; assumption | reflexivity]].
      * apply bool_decide_eq_false_1 in B.
        rewrite bool_decide_eq_false_2 by tauto.
        eexists (_, _). split; [reflexivity | ]. split; [ | reflexivity].
        split; [cbn; rewrite fmap_app; reflexivity | ].
        apply NoDup_app. split; [exact ND | split; [ | apply NoDup_singleton]].
        intros q Hq Hq'. apply list_elem_of_singleton in Hq'. subst q. contradiction.
  - unfold remove_library. rewrite E, contains_list.
    destruct (bool_decide (p ∈ paths)) eqn:B.
    + eexists (_, _). split; [reflexivity | ]. split; [ | reflexivity].
      split; [cbn; rewrite (remove_list paths p ND); reflexivity | ].
      apply NoDup_filter. exact ND.
    + apply bool_decide_eq_false_1 in B.
      exists (st, f). split; [reflexivity | ]. split; [ | reflexivity].
      split; [ | apply NoDup_filter; exact ND].
      cbn [fst]. rewrite E. f_equal. f_equal. symmetry. apply filter_absent. exact B.
  - exists (st, f). repeat split; assumption.
  - eexists (_, _). repeat split; assumption.
  - eexists (_, _). repeat split; assumption.
  - eexists (_, _). repeat split; assumption.
Qed.



(** X19.  Adding a folder and removing it again.  On a library list of
    distinct strings, [add_library] with a new, non-empty folder appends it
    and saves; the saved file holds the new list; [remove_library] of that
    folder then restores the settings and saves them; and adding a folder that
    is already in the list changes nothing. *)
Theorem added_library_can_be_removed
    (st : Settings) (f : config_file) (paths : list string) (p : string) :
  library_list st paths -> p <> EmptyString -> p ∉ paths ->
  exists st1,
    add_library st f p = Returns (st1, save_config st1)
    /\ library_list st1 (paths ++ [p])
    /\ library_paths (MainWindow_settings (save_config st1)) = library_paths st1
    /\ remove_library st1 (save_config st1) (Some p) = Returns (st, save_config st)
    /\ add_library st1 (save_config st1) p = Returns (st1, save_config st1).
Proof.
  intros L Hp Hn.
  destruct (settings_step_library_list (st, f) (LibraryAdded p) paths L)
    as ([st1 f1] & E1 & L1 & F1).
  cbn [settings_step fst snd] in E1, L1, F1.
  rewrite bool_decide_eq_false_2 in L1, F1 by tauto. subst f1.
  exists st1. split; [exact E1 | split; [exact L1 | split; [reflexivity | ]]].
  destruct (settings_step_library_list (st1, save_config st1) (LibraryRemoved (Some p))
              (paths ++ [p]) L1) as ([st2 f2] & E2 & L2 & F2).
  cbn [settings_step fst snd] in E2, L2, F2.
  rewrite bool_decide_eq_true_2 in F2
    by (apply elem_of_app; right; apply list_elem_of_singleton; reflexivity).
  subst f2.
  assert (ND1 : NoDup (paths ++ [p])) by apply L1.
  assert (S1 : st1 = with_library_paths (JList (JStr <$> (paths ++ [p]))) st).
  { destruct L as [La _].
    unfold add_library in E1. rewrite (proj2 (String.eqb_neq _ _) Hp) in E1.
    rewrite La, contains_list, bool_decide_eq_false_2 in E1 by exact Hn.
    injection E1 as <-. rewrite fmap_app. reflexivity. }
  assert (S2 : st2 = st).
  { unfold remove_library in E2. rewrite (proj1 L1), contains_list in E2.
    rewrite bool_decide_eq_true_2 in E2
      by (apply elem_of_app; right; apply list_elem_of_singleton; reflexivity).
    injection E2 as <-. rewrite (remove_list _ p ND1).
    rewrite filter_app, filter_cons_False, filter_nil, app_nil_r by tauto.
    rewrite (filter_absent paths p Hn). rewrite S1.
    destruct L as [La _]. destruct st as [lp lv cv vo]. cbn in *. rewrite La. reflexivity. }
  split; [rewrite E2, S2; reflexivity | ].
  destruct (settings_step_library_list (st1, save_config st1) (LibraryAdded p)
              (paths ++ [p]) L1) as ([st3 f3] & E3 & L3 & F3).
  cbn [settings_step fst snd] in E3, L3, F3.
  rewrite bool_decide_eq_true_2 in F3
    by (right; apply elem_of_app; right; apply list_elem_of_singleton; reflexivity).
  subst f3. rewrite E3. f_equal. f_equal.
  unfold add_library in E3. rewrite (proj2 (String.eqb_neq _ _) Hp) in E3.
  destruct L1 as [L1a _]. rewrite L1a, contains_list in E3.
  rewrite bool_decide_eq_true_2 in E3
    by (apply elem_of_app; right; apply list_elem_of_singleton; reflexivity).
  injection E3 as <-. reflexivity.
Qed.


Lemma added_library_can_be_removed_witness :
  exists st1,
    add_library default_settings NoFile "/media/clips" = Returns (st1, save_config st1)
    /\ library_list st1 ["/media/clips"%string]
    /\ library_paths (MainWindow_settings (save_config st1)) = library_paths st1
    /\ remove_library st1 (save_config st1) (Some "/media/clips"%string)
       = Returns (default_settings, save_config default_settings)
    /\ add_library st1 (save_config st1) "/media/clips" = Returns (st1, save_config st1).
Proof.
  apply (added_library_can_be_removed default_settings NoFile [] "/media/clips").
  - split; [reflexivity | constructor].
  - discriminate.
  - apply not_elem_of_nil.
Defined.

(* ===================================================================== *)
(** ** The text [format_time] writes *)
(* ===================================================================== *)

Lemma format_time_digits (ms : Z) :
  0 <= ms -> ms / 1000 / 60 < 100 ->
  format_time ms
  = (two_digits (ms / 1000 / 60) ++ ":" ++ two_digits ((ms / 1000) mod 60) ++ "."
     ++ three_digits (ms mod 1000))%string.
Proof.
  intros H0 Hm. unfold format_time.
  assert (L : (ms <? 0) = false) by (apply Z.ltb_ge; lia). rewrite L.
  pose proof (Z.div_pos ms 1000 H0 ltac:(lia)) as Hs.
  pose proof (Z.div_pos (ms / 1000) 60 Hs ltac:(lia)) as Hmin.
  pose proof (Z.mod_pos_bound (ms / 1000) 60 ltac:(lia)) as Hsec.
  pose proof (Z.mod_pos_bound ms 1000 ltac:(lia)) as Hmil.
  rewrite format_0d_2 by lia. rewrite format_0d_2 by lia. rewrite format_0d_3 by lia.
  reflexivity.
Qed.

(** X20.  What [format_time] writes.  For a time whose minutes are below
    100 the text is a whole timecode of nine characters, [mm:ss.mmm]; a
    negative time is written as ["00:00.000"]; and two different times of at
    least 0 are never written the same. *)
Theorem format_time_writes_a_timecode (ms : Z) :
  ms / 1000 / 60 < 100 ->
  whole_string_is_timecode (format_time ms) = true
  /\ String.length (format_time ms) = 9%nat
  /\ (ms <= 0 -> format_time ms = "00:00.000"%string)
  /\ (forall ms', 0 <= ms -> 0 <= ms' -> ms' / 1000 / 60 < 100 ->
                  format_time ms = format_time ms' -> ms = ms').
Proof.
  intros Hm.
  assert (N : forall m, m <= 0 -> format_time m = "00:00.000"%string).
  { intros m Hle. unfold format_time. destruct (Z.ltb_spec m 0); [reflexivity | ].
    assert (m = 0) as -> by lia. reflexivity. }
  assert (P : forall m, 0 <= m -> m / 1000 / 60 < 100 ->
                        whole_string_is_timecode (format_time m) = true
                        /\ String.length (format_time m) = 9%nat).
  { intros m H0 H1. rewrite (format_time_digits m H0 H1).
    pose proof (Z.div_pos m 1000 H0 ltac:(lia)) as Hs.
    pose proof (Z.div_pos (m / 1000) 60 Hs ltac:(lia)) as Hmin.
    pose proof (Z.mod_pos_bound (m / 1000) 60 ltac:(lia)) as Hsec.
    pose proof (Z.mod_pos_bound m 1000 ltac:(lia)) as Hmil.
    unfold two_digits, three_digits. cbv [String.append].
    split; [ | reflexivity].
    cbn [whole_string_is_timecode].
    rewrite !digit_is_digit;
      try (split; [apply Z.div_pos; lia | apply Z.div_lt_upper_bound; lia]);
      try (apply Z.mod_pos_bound; lia).
    reflexivity. }
  destruct (Z_le_gt_dec ms 0) as [Le | Gt].
  - rewrite (N ms Le). split; [reflexivity | split; [reflexivity | split; [reflexivity | ]]].
    intros ms' H0 H0' Hm' E. assert (ms = 0) as -> by lia.
    pose proof (format_time_parses_back ms' H0' Hm') as R. rewrite <- E in R.
    cbv in R. injection R as <-. reflexivity.
  - destruct (P ms ltac:(lia) Hm) as [A B].
    split; [exact A | split; [exact B | split; [intros; lia | ]]].
    intros ms' H0 H0' Hm' E.
    pose proof (format_time_parses_back ms H0 Hm) as R.
    pose proof (format_time_parses_back ms' H0' Hm') as R'.
    rewrite E, R' in R. injection R as ->. reflexivity.
Qed.

Lemma format_time_writes_a_timecode_witness :
  whole_string_is_timecode (format_time 5999999) = true
  /\ format_time 5999999 = "99:59.999"%string
  /\ format_time (-20) = "00:00.000"%string.
Proof.
  destruct (format_time_writes_a_timecode 5999999 ltac:(vm_compute; reflexivity))
    as (A & _).
  destruct (format_time_writes_a_timecode (-20) ltac:(vm_compute; reflexivity))
    as (_ & _ & C & _).
  split; [exact A | split; [reflexivity | apply C; discriminate]].
Defined.

(* ===================================================================== *)
(** ** The trim export: a process that cannot be started *)
(* ===================================================================== *)

Section TrimNotStarted.

Variable subprocess_run : list arg -> disk -> ended * disk.

(** X21.  When the transcoder cannot be started ([subprocess.run] raises
    [OSError]) or there is no [ffmpeg_path] (the argument vector holds [None]
    and [subprocess.run] raises [TypeError]), [trim_media] catches nothing:
    the exception leaves the method, no dialog is shown, the cache list is as
    it was and the player, paused before the export, stays paused. *)
Theorem trim_media_start_failure_is_not_caught
    (w : MainWindow) (d d' : disk) (p : string) (msg : string) :
  current_media_path w = Some p ->
  p <> EmptyString ->
  start_time_ms w < end_time_ms w ->
  (forall ffmpeg, ffmpeg_path w = Some ffmpeg ->
                  subprocess_run (trim_command w ffmpeg p) d = (NotStarted msg, d')) ->
  let w' := (trim_media subprocess_run w d).1 in
  new_effects w w'
  = match ffmpeg_path w with
    | Some ffmpeg => [Subprocess (trim_command w ffmpeg p); Unhandled msg]
    | None => [Unhandled "TypeError"]
    end
  /\ cache_list w' = cache_list w
  /\ playbackState (media_player w') = PausedState
  /\ current_media_path w' = current_media_path w.
Proof.
  intros E Hp Hlt Hrun w'. subst w'.
  unfold trim_media. rewrite E.
  destruct (String.eqb p EmptyString) eqn:Ep.
  { apply String.eqb_eq in Ep. contradiction. }
  assert (L : (end_time_ms w <=? start_time_ms w) = false) by (apply Z.leb_gt; lia).
  rewrite L. cbn [ffmpeg_path with_media_player].
  destruct (ffmpeg_path w) as [ffmpeg | ] eqn:F.
  - change (trim_command (with_media_player (Player.pause (media_player w)) w) ffmpeg p)
      with (trim_command w ffmpeg p).
    rewrite (Hrun ffmpeg eq_refl). cbn [check_true fst].
    split; [ | split; [reflexivity | split; [reflexivity | exact E]]].
    apply new_effects_app. cbn [log logged with_media_player].
    rewrite <- app_assoc. reflexivity.
  - cbn [fst].
    split; [ | split; [reflexivity | split; [reflexivity | exact E]]].
    apply new_effects_app. reflexivity.
Qed.

End TrimNotStarted.

Lemma trim_media_start_failure_witness :
  new_effects loaded_window (trim_media missing_program loaded_window ∅).1
  = [Subprocess (trim_command loaded_window "/usr/bin/ffmpeg" "/lib/clip.mp4");
     Unhandled "[Errno 2] No such file or directory: '/usr/bin/ffmpeg'"].
Proof.
  destruct (trim_media_start_failure_is_not_caught missing_program loaded_window ∅ ∅
              "/lib/clip.mp4" "[Errno 2] No such file or directory: '/usr/bin/ffmpeg'"
              ltac:(reflexivity) ltac:(discriminate) ltac:(vm_compute; reflexivity)
              ltac:(intros; reflexivity)) as (A & _).
  exact A.
Defined.

(* ===================================================================== *)
(** ** Thumbnails: files that share a stem *)
(* ===================================================================== *)

Section ThumbnailNames.

Variable subprocess_run : list arg -> disk -> ended * disk.

(** X22.  [request_thumbnail] names the thumbnail after the stem of the
    media file alone.  Two media files with the same stem, whatever their
    folders and extensions, get workers with the same thumbnail path; so once
    the thumbnail of the first is on disk, the worker of the second emits that
    file as the icon of its own item and runs no process. *)
Theorem same_stem_shares_thumbnail
    (w1 w2 : MainWindow) (ffmpeg1 ffmpeg2 : string) (it1 it2 : QListWidgetItem)
    (media1 media2 : string) :
  thumb_cache_dir w1 = thumb_cache_dir w2 ->
  Py.stem (Py.basename media1) = Py.stem (Py.basename media2) ->
  exists t1 t2,
    thumbnail_workers (request_thumbnail w1 ffmpeg1 it1 media1)
    = thumbnail_workers w1 ++ [t1]
    /\ thumbnail_workers (request_thumbnail w2 ffmpeg2 it2 media2)
       = thumbnail_workers w2 ++ [t2]
    /\ media_path t1 = media1 /\ media_path t2 = media2
    /\ thumb_path t1 = thumb_path t2
    /\ (forall d, thumb_path t1 ∈ d ->
                  ThumbnailGenerator_run subprocess_run t2 d
                  = ([], Some (ThumbnailReady it2 (IconFile (thumb_path t1))), d)).
Proof.
  intros Hd Hs. eexists _, _.
  split; [reflexivity | split; [reflexivity | split; [reflexivity | split; [reflexivity | ]]]].
  cbn [thumb_path]. rewrite Hd, Hs. split; [reflexivity | ].
  intros d Hin.
  rewrite run_existing; [reflexivity | exact Hin].
Qed.

End ThumbnailNames.

Lemma same_stem_shares_thumbnail_witness :
  exists t1 t2,
    thumbnail_workers (request_thumbnail fresh_window "/usr/bin/ffmpeg" sample_item
                         "/lib/clip.mp4")
    = thumbnail_workers fresh_window ++ [t1]
    /\ thumbnail_workers
         (request_thumbnail fresh_window "/usr/bin/ffmpeg"
            {| text := "clip.mov"; data := "/other/clip.mov"; icon := SP_MediaPlay |}
            "/other/clip.mov")
       = thumbnail_workers fresh_window ++ [t2]
    /\ media_path t1 = "/lib/clip.mp4"%string /\ media_path t2 = "/other/clip.mov"%string
    /\ thumb_path t1 = thumb_path t2
    /\ (forall d, thumb_path t1 ∈ d ->
                  ThumbnailGenerator_run failing_run t2 d
                  = ([], Some (ThumbnailReady
                                 {| text := "clip.mov"; data := "/other/clip.mov";
                                    icon := SP_MediaPlay |}
                                 (IconFile (thumb_path t1))), d)).
Proof.
  apply (same_stem_shares_thumbnail failing_run fresh_window fresh_window);
    reflexivity.
Defined.

(* ===================================================================== *)
(** ** The pulse of the trim range *)
(* ===================================================================== *)

Lemma pulse_period : pulse_after 21%nat = pulse_after 1%nat.
Proof. vm_compute. reflexivity. Qed.

Lemma pulse_after_S (n : nat) : pulse_after (S n) = _animate_pulse (pulse_after n).
Proof. reflexivity. Qed.

Lemma pulse_after_small (n : nat) : exists r, (r <= 20)%nat /\ pulse_after n = pulse_after r.
Proof.
  induction n as [ | n (r & Hr & E)].
  - exists 0%nat. split; [lia | reflexivity].
  - rewrite pulse_after_S, E, <- pulse_after_S.
    destruct (Nat.eq_dec r 20%nat) as [-> | N].
    + exists 1%nat. split; [lia | apply pulse_period].
    + exists (S r). split; [lia | reflexivity].
Qed.

(** X23.  The pulse never leaves the range of an alpha value.  After any
    number of timer ticks [pulse_alpha] lies between 0.4999 and 1, so
    [paintEvent] always passes a valid value to [QColor.setAlphaF]; from the
    first tick on the animation repeats every 20 ticks (one second), in
    binary64 arithmetic as Python does it. *)
Theorem pulse_alpha_is_a_valid_alpha (n : nat) :
  (0.4999 <= pulse_alpha (pulse_after n) <= 1)%Q
  /\ pulse_after (S n + 20) = pulse_after (S n).
Proof.
  split.
  - destruct (pulse_after_small n) as (r & Hr & ->).
    assert (C : forallb (fun r => Qle_bool 0.4999 (pulse_alpha (pulse_after r))
                                  && Qle_bool (pulse_alpha (pulse_after r)) 1)
                  (seq 0 21) = true) by (vm_compute; reflexivity).
    rewrite forallb_forall in C. specialize (C r ltac:(apply in_seq; lia)).
    apply andb_prop in C as [A B]. apply Qle_bool_imp_le in A, B. split; assumption.
  - induction n as [ | n IH].
    + apply pulse_period.
    + change (S (S n) + 20)%nat with (S (S n + 20)).
      rewrite pulse_after_S, IH. reflexivity.
Qed.

(* ===================================================================== *)
(** ** The library tree *)
(* ===================================================================== *)

(** Induction on an item with its rows, and on an entry with its
    entries. *)
Lemma QStandardItem_rows_ind (P : QStandardItem -> Prop) :
  (forall t d ic children, Forall P children -> P (StandardItem t d ic children)) ->
  forall it, P it.
Proof.
  intros H.
  refine (fix IH (it : QStandardItem) : P it :=
            match it with
            | StandardItem t d ic children =>
                H t d ic children
                  ((fix all (l : list QStandardItem) : Forall P l :=
                      match l with
                      | [] => @List.Forall_nil _ P
                      | x :: r => @List.Forall_cons _ P x r (IH x) (all r)
                      end) children)
            end).
Qed.


(** X24.  What the search shows.  [filterAcceptsRow] accepts a row if and
    only if the row itself or some item below it, at any depth, passes the
    filter on its own: a folder stays visible exactly when it or something
    inside it matches the search text. *)
Theorem filterAcceptsRow_shows_what_holds_a_match
    (filter_accepts_row_itself : QStandardItem -> bool) (row : QStandardItem) :
  filterAcceptsRow filter_accepts_row_itself row = true
  <-> exists it, it ∈ subtree row /\ filter_accepts_row_itself it = true.
Proof.
  induction row as [t d ic children IH] using QStandardItem_rows_ind.
  cbn [filterAcceptsRow subtree].
  destruct (filter_accepts_row_itself (StandardItem t d ic children)) eqn:A.
  - split; [intros _ | reflexivity].
    eexists. split; [apply elem_of_cons; left; reflexivity | exact A].
  - rewrite existsb_exists. split.
    + intros (c & Hc & Hm). rewrite Forall_forall in IH.
      apply list_elem_of_In in Hc.
      destruct (proj1 (IH c Hc) Hm) as (it & Hin & Hit).
      exists it. split; [ | exact Hit].
      apply elem_of_cons. right. apply list_elem_of_In, in_flat_map.
      exists c. split; [apply list_elem_of_In; exact Hc | apply list_elem_of_In; exact Hin].
    + intros (it & Hin & Hit). apply elem_of_cons in Hin as [-> | Hin].
      * rewrite A in Hit. discriminate.
      * apply list_elem_of_In, in_flat_map in Hin as (c & Hc & Hin).
        exists c. split; [exact Hc | ].
        rewrite Forall_forall in IH. apply list_elem_of_In in Hc.
        apply (IH c Hc). exists it. split; [apply list_elem_of_In; exact Hin | exact Hit].
Qed.







Lemma filterAcceptsRow_witness :
  filterAcceptsRow (fun it => String.eqb (item_text it) "one.mkv")
    (StandardItem "takes" "/lib/takes" (Some SP_DirIcon)
       [StandardItem "one.mkv" "/lib/takes/one.mkv" (Some (MediaIcon SP_MediaPlay)) [];
        StandardItem "one.wav" "/lib/takes/one.wav" (Some (MediaIcon SP_MediaVolume)) []])
  = true.
Proof.
  apply (proj2 (filterAcceptsRow_shows_what_holds_a_match _ _)).
  eexists. split; [apply elem_of_cons; right; apply elem_of_cons; left; reflexivity | ].
  reflexivity.
Defined.

Lemma populate_libraries_roots (libraries : list (string * option (scan dir_entry))) :
  forall w,
    item_data <$> (populate_libraries w libraries).2
    = omap (fun l => match l.2 with Some _ => Some l.1 | None => None end) libraries
    /\ Forall (fun it => item_text it = (folder_label ++ Py.basename (item_data it))%string)
         (populate_libraries w libraries).2.
Proof.
  induction libraries as [ | [path [content | ]] libraries IH]; intros w;
    cbn [populate_libraries omap list_omap fst snd].
  - split; [reflexivity | constructor].
  - destruct (populate_directory w path content) as [w1 appended].
    destruct (IH w1) as [A B].
    destruct (populate_libraries w1 libraries) as [w2 its]. cbn [fst snd] in *.
    split; [rewrite fmap_cons; cbn [item_data]; f_equal; exact A | ].
    constructor; [reflexivity | exact B].
  - apply IH.
Qed.

(** X26.  Every top-level item of the library tree can be removed.  The
    items [populate_libraries] puts at the top are those of the library paths
    that are directories; each holds its library path and is labelled with the
    folder sign and the path's last component.  So [remove_library], given the
    path of the top-level item above the selection, finds it in the library
    list (a list of distinct strings), takes it out and saves. *)
Theorem library_shown_can_be_removed
    (w : MainWindow) (libraries : list (string * option (scan dir_entry)))
    (st : Settings) (f : config_file) (root : QStandardItem) :
  library_list st (libraries.*1) ->
  root ∈ (populate_libraries w libraries).2 ->
  (exists content, (item_data root, Some content) ∈ libraries)
  /\ item_text root = (folder_label ++ Py.basename (item_data root))%string
  /\ exists st',
       remove_library st f (Some (item_data root)) = Returns (st', save_config st')
       /\ library_list st' (filter (fun q => q <> item_data root) (libraries.*1))
       /\ item_data root ∉ filter (fun q => q <> item_data root) (libraries.*1).
Proof.
  intros L Hroot.
  destruct (populate_libraries_roots libraries w) as [A B].
  assert (D : item_data root ∈ item_data <$> (populate_libraries w libraries).2).
  { apply list_elem_of_fmap. exists root. split; [reflexivity | exact Hroot]. }
  rewrite A in D. apply list_elem_of_omap in D as ([path fs] & Hin & E).
  cbn [fst snd] in E. destruct fs as [content | ]; [ | discriminate].
  injection E as E. subst path.
  split; [exists content; exact Hin | ].
  split; [rewrite Forall_forall in B; apply B; exact Hroot | ].
  assert (P : item_data root ∈ libraries.*1).
  { apply list_elem_of_fmap. exists (item_data root, Some content). split; [reflexivity | exact Hin]. }
  destruct (settings_step_library_list (st, f) (LibraryRemoved (Some (item_data root)))
              (libraries.*1) L) as ([st' f'] & E1 & L1 & F1).
  cbn [settings_step fst snd] in E1, L1, F1.
  rewrite bool_decide_eq_true_2 in F1 by exact P. subst f'.
  exists st'. split; [exact E1 | split; [exact L1 | ]].
  intros H. apply list_elem_of_filter in H as [H _]. apply H. reflexivity.
Qed.

Lemma library_shown_can_be_removed_witness :
  exists st',
    remove_library
      (with_library_paths (JList [JStr "/media/clips"; JStr "/media/gone"]) default_settings)
      NoFile (Some "/media/clips"%string)
    = Returns (st', save_config st')
    /\ library_paths st' = JList [JStr "/media/gone"].
Proof.
  edestruct (library_shown_can_be_removed fresh_window sample_libraries
              (with_library_paths (JList [JStr "/media/clips"; JStr "/media/gone"])
                 default_settings)
              NoFile
              (StandardItem (folder_label ++ "clips") "/media/clips" None
                 (populate_directory fresh_window "/media/clips" sample_library).2))
    as (_ & _ & st' & E & L & _).
  - split; [reflexivity | ].
    apply NoDup_cons_2; [ | apply NoDup_singleton].
    intros H. apply list_elem_of_singleton in H. discriminate.
  - apply elem_of_cons. left. reflexivity.
  - exists st'. split; [exact E | ]. destruct L as [L _]. rewrite L. reflexivity.
Defined.

(* ===================================================================== *)
(** ** Floating point: rounding keeps the order *)
(* ===================================================================== *)

Module PyOrder.

Import PyFacts PyExact.

Local Open Scope Q_scope.

(** *** Rounding keeps the order *)

Lemma round_half_even_mono (x y : Q) :
  x <= y -> (Py.round_half_even x <= Py.round_half_even y)%Z.
Proof.
  intros H.
  assert (F : (Qfloor x <= Qfloor y)%Z) by (apply Qfloor_resp_le; exact H).
  destruct (Z.eq_dec (Qfloor x) (Qfloor y)) as [E | N].
  - unfold Py.round_half_even. rewrite E.
    destruct (Qcompare_spec (x - inject_Z (Qfloor y)) (1 # 2)) as [Cx | Cx | Cx];
      destruct (Qcompare_spec (y - inject_Z (Qfloor y)) (1 # 2)) as [Cy | Cy | Cy];
      solve [lia | lra | destruct (Z.even (Qfloor y)); lia].
  - destruct (round_half_even_cases x) as [Cx | Cx];
      destruct (round_half_even_cases y) as [Cy | Cy]; lia.
Qed.

Lemma pow2_lt (a b : Z) : (a < b)%Z -> 2 ^ a < 2 ^ b.
Proof.
  intros H. replace b with ((b - a - 1) + 1 + a)%Z by lia.
  rewrite !pow2_plus. pose proof (pow2_pos a). pose proof (pow2_le 0 (b - a - 1) ltac:(lia)).
  change (2 ^ 0) with 1 in H1. change (2 ^ 1) with 2.
  assert (1 * 2 * 2 ^ a <= 2 ^ (b - a - 1) * 2 * 2 ^ a).
  { apply Qmult_le_compat_r; [ | lra]. lra. }
  lra.
Qed.

Lemma ilog2_mono (q q' : Q) :
  ~ q == 0 -> Qabs q <= Qabs q' -> (Py.ilog2 q <= Py.ilog2 q')%Z.
Proof.
  intros N H.
  assert (N' : ~ q' == 0).
  { intros E. assert (Qabs q' == 0) as Z by (rewrite E; reflexivity).
    pose proof (ilog2_le q N). pose proof (pow2_pos (Py.ilog2 q)). lra. }
  pose proof (ilog2_le q N). pose proof (ilog2_lt q' N').
  destruct (Z_le_gt_dec (Py.ilog2 q) (Py.ilog2 q')) as [L | G]; [exact L | ].
  pose proof (pow2_le (Py.ilog2 q' + 1) (Py.ilog2 q) ltac:(lia)). lra.
Qed.

(** A positive number and its rounding lie between the same two powers of
    two. *)
Lemma fl_in_binade (q : Q) :
  0 < q ->
  let m := Z.max (Py.ilog2 q) Py.emin in
  Py.fl q <= 2 ^ (m + 1) /\ ((Py.emin <= Py.ilog2 q)%Z -> 2 ^ m <= Py.fl q).
Proof.
  intros Hq m.
  assert (N : ~ q == 0) by lra.
  pose proof (ilog2_le q N) as L. pose proof (ilog2_lt q N) as U.
  rewrite (Qabs_pos q) in L, U by lra.
  rewrite (fl_nonzero q N). fold m. set (e := (m - 52)%Z).
  pose proof (pow2_pos e) as Pe.
  assert (E1 : 2 ^ (m + 1) == inject_Z (2 ^ 53) * 2 ^ e).
  { replace (m + 1)%Z with (53 + e)%Z by (subst e; lia). rewrite pow2_plus.
    rewrite (pow2_nonneg_exp 53) by lia. reflexivity. }
  assert (E0 : 2 ^ m == inject_Z (2 ^ 52) * 2 ^ e).
  { replace m with (52 + e)%Z at 1 by (subst e; lia). rewrite pow2_plus.
    rewrite (pow2_nonneg_exp 52) by lia. reflexivity. }
  split.
  - rewrite E1. apply Qmult_le_compat_r; [ | lra].
    rewrite <- Zle_Qle. apply round_half_even_le.
    apply Qle_shift_div_r; [exact Pe | ]. rewrite <- E1.
    pose proof (pow2_le (Py.ilog2 q + 1) (m + 1) ltac:(subst m; lia)). lra.
  - intros Hm. rewrite E0. apply Qmult_le_compat_r; [ | lra].
    rewrite <- Zle_Qle. apply round_half_even_ge.
    apply Qle_shift_div_l; [exact Pe | ]. rewrite <- E0.
    replace m with (Py.ilog2 q) by (subst m; lia). exact L.
Qed.

Lemma fl_mono_pos (q q' : Q) : 0 < q -> q <= q' -> Py.fl q <= Py.fl q'.
Proof.
  intros Hq H.
  assert (N : ~ q == 0) by lra. assert (N' : ~ q' == 0) by lra.
  assert (I : (Py.ilog2 q <= Py.ilog2 q')%Z).
  { apply ilog2_mono; [exact N | ]. rewrite !Qabs_pos by lra. exact H. }
  set (m := Z.max (Py.ilog2 q) Py.emin). set (m' := Z.max (Py.ilog2 q') Py.emin).
  destruct (Z.eq_dec m m') as [E | NE].
  - rewrite (fl_nonzero q N), (fl_nonzero q' N'). fold m m'. rewrite <- E.
    pose proof (pow2_pos (m - 52)) as Pe.
    apply Qmult_le_compat_r; [ | lra].
    rewrite <- Zle_Qle. apply round_half_even_mono.
    apply Qmult_le_compat_r; [exact H | ]. apply Qinv_le_0_compat. lra.
  - assert (Lt : (m < m')%Z) by (subst m m'; lia).
    destruct (fl_in_binade q Hq) as [A _]. fold m in A.
    destruct (fl_in_binade q' ltac:(lra)) as [_ B]. fold m' in B.
    specialize (B ltac:(subst m m'; lia)).
    pose proof (pow2_le (m + 1) m' ltac:(lia)). lra.
Qed.

(** The same below zero. *)
Lemma fl_in_binade_neg (q : Q) :
  q < 0 ->
  let m := Z.max (Py.ilog2 q) Py.emin in
  - 2 ^ (m + 1) <= Py.fl q /\ ((Py.emin <= Py.ilog2 q)%Z -> Py.fl q <= - 2 ^ m).
Proof.
  intros Hq m.
  assert (N : ~ q == 0) by lra.
  pose proof (ilog2_le q N) as L. pose proof (ilog2_lt q N) as U.
  rewrite (Qabs_neg q) in L, U by lra.
  rewrite (fl_nonzero q N). fold m. set (e := (m - 52)%Z).
  pose proof (pow2_pos e) as Pe.
  assert (E1 : 2 ^ (m + 1) == inject_Z (2 ^ 53) * 2 ^ e).
  { replace (m + 1)%Z with (53 + e)%Z by (subst e; lia). rewrite pow2_plus.
    rewrite (pow2_nonneg_exp 53) by lia. reflexivity. }
  assert (E0 : 2 ^ m == inject_Z (2 ^ 52) * 2 ^ e).
  { replace m with (52 + e)%Z at 1 by (subst e; lia). rewrite pow2_plus.
    rewrite (pow2_nonneg_exp 52) by lia. reflexivity. }
  split.
  - rewrite E1.
    setoid_replace (- (inject_Z (2 ^ 53) * 2 ^ e)) with (inject_Z (- 2 ^ 53) * 2 ^ e)
      using relation Qeq by (rewrite inject_Z_opp; ring).
    apply Qmult_le_compat_r; [ | lra].
    rewrite <- Zle_Qle. apply round_half_even_ge.
    apply Qle_shift_div_l; [exact Pe | ].
    rewrite inject_Z_opp.
    setoid_replace (- inject_Z (2 ^ 53) * 2 ^ e) with (- (inject_Z (2 ^ 53) * 2 ^ e))
      using relation Qeq by ring.
    rewrite <- E1.
    pose proof (pow2_le (Py.ilog2 q + 1) (m + 1) ltac:(subst m; lia)). lra.
  - intros Hm. rewrite E0.
    setoid_replace (- (inject_Z (2 ^ 52) * 2 ^ e)) with (inject_Z (- 2 ^ 52) * 2 ^ e)
      using relation Qeq by (rewrite inject_Z_opp; ring).
    apply Qmult_le_compat_r; [ | lra].
    rewrite <- Zle_Qle. apply round_half_even_le.
    apply Qle_shift_div_r; [exact Pe | ].
    rewrite inject_Z_opp.
    setoid_replace (- inject_Z (2 ^ 52) * 2 ^ e) with (- (inject_Z (2 ^ 52) * 2 ^ e))
      using relation Qeq by ring.
    rewrite <- E0.
    replace m with (Py.ilog2 q) by (subst m; lia). lra.
Qed.

Lemma fl_mono_neg (q q' : Q) : q' < 0 -> q <= q' -> Py.fl q <= Py.fl q'.
Proof.
  intros Hq H.
  assert (N : ~ q == 0) by lra. assert (N' : ~ q' == 0) by lra.
  assert (I : (Py.ilog2 q' <= Py.ilog2 q)%Z).
  { apply ilog2_mono; [exact N' | ]. rewrite !Qabs_neg by lra. lra. }
  set (m := Z.max (Py.ilog2 q) Py.emin). set (m' := Z.max (Py.ilog2 q') Py.emin).
  destruct (Z.eq_dec m m') as [E | NE].
  - rewrite (fl_nonzero q N), (fl_nonzero q' N'). fold m m'. rewrite <- E.
    pose proof (pow2_pos (m - 52)) as Pe.
    apply Qmult_le_compat_r; [ | lra].
    rewrite <- Zle_Qle. apply round_half_even_mono.
    apply Qmult_le_compat_r; [exact H | ]. apply Qinv_le_0_compat. lra.
  - assert (Lt : (m' < m)%Z) by (subst m m'; lia).
    destruct (fl_in_binade_neg q' Hq) as [A _]. fold m' in A.
    destruct (fl_in_binade_neg q ltac:(lra)) as [_ B]. fold m in B.
    specialize (B ltac:(subst m m'; lia)).
    pose proof (pow2_le (m' + 1) m ltac:(lia)). lra.
Qed.

Lemma fl_mono (q q' : Q) : q <= q' -> Py.fl q <= Py.fl q'.
Proof.
  intros H.
  destruct (Qlt_le_dec 0 q) as [P | NP].
  - apply fl_mono_pos; assumption.
  - destruct (Qlt_le_dec q' 0) as [P' | NP'].
    + apply fl_mono_neg; assumption.
    + pose proof (fl_le_integer q 0 ltac:(reflexivity) NP).
      pose proof (fl_ge_integer q' 0 ltac:(reflexivity) NP').
      change (inject_Z 0) with 0 in *. lra.
Qed.

Lemma trunc_mono (q q' : Q) : q <= q' -> (Py.trunc q <= Py.trunc q')%Z.
Proof.
  intros H. destruct (Qlt_le_dec q 0) as [C | C]; destruct (Qlt_le_dec q' 0) as [C' | C'].
  - destruct (trunc_nonpos q ltac:(lra)) as [A B].
    destruct (trunc_nonpos q' ltac:(lra)) as [A' B'].
    assert (L : inject_Z (Py.trunc q) < inject_Z (Py.trunc q') + 1) by lra.
    change 1 with (inject_Z 1) in L. rewrite <- inject_Z_plus, <- Zlt_Qlt in L. lia.
  - destruct (trunc_nonpos q ltac:(lra)) as [A B].
    destruct (trunc_nonneg q' C') as [A' B'].
    assert (L : inject_Z (Py.trunc q) < inject_Z (Py.trunc q') + 2) by lra.
    assert (L0 : inject_Z (Py.trunc q) < 1) by lra.
    assert (L1 : -1 < inject_Z (Py.trunc q')) by lra.
    change 1 with (inject_Z 1) in L0. change (-1) with (inject_Z (-1)) in L1.
    rewrite <- Zlt_Qlt in L0, L1. lia.
  - lra.
  - destruct (trunc_nonneg q C) as [A B].
    destruct (trunc_nonneg q' C') as [A' B'].
    assert (L : inject_Z (Py.trunc q) < inject_Z (Py.trunc q') + 1) by lra.
    change 1 with (inject_Z 1) in L. rewrite <- inject_Z_plus, <- Zlt_Qlt in L. lia.
Qed.

End PyOrder.

Import PyOrder.

(* ===================================================================== *)
(** ** The pixel/value mapping keeps the order *)
(* ===================================================================== *)

Lemma Qdiv_le_pos (a b c : Q) : (0 < c)%Q -> (a <= b)%Q -> (a / c <= b / c)%Q.
Proof.
  intros Hc H. unfold Qdiv. apply Qmult_le_compat_r; [exact H | ].
  apply Qinv_le_0_compat. lra.
Qed.

(** X27.  [_value_to_pos] keeps the order of values: on a widget at least
    as wide as the handle, a larger value is never drawn left of a smaller
    one, whatever the range and however large the numbers; so the start handle
    is never right of the end handle while start <= end. *)
Theorem value_to_pos_keeps_order (s : ProTrimSlider) (v1 v2 : Z) :
  0 <= width s - handle_width s ->
  v1 <= v2 ->
  _value_to_pos s v1 <= _value_to_pos s v2.
Proof.
  intros HT Hv. unfold _value_to_pos.
  destruct (_max_val s - _min_val s =? 0) eqn:Z0; [lia | ].
  apply Z.eqb_neq in Z0.
  apply Z.add_le_mono_r. cbn [Py.truediv Py.mul Py.int Py.to_float].
  set (T := width s - handle_width s) in *.
  set (R := _max_val s - _min_val s) in *.
  set (d1 := Z.max (_min_val s) (Z.min v1 (_max_val s)) - _min_val s).
  set (d2 := Z.max (_min_val s) (Z.min v2 (_max_val s)) - _min_val s).
  apply trunc_mono, fl_mono.
  assert (FT : (0 <= Py.fl (inject_Z T))%Q).
  { apply fl_nonneg. apply Qle_0_inject. exact HT. }
  apply Qmult_le_compat_r; [ | exact FT].
  apply fl_mono.
  destruct (Z_lt_le_dec 0 R) as [P | NP].
  - apply Qdiv_le_pos.
    + change 0%Q with (inject_Z 0). rewrite <- Zlt_Qlt. exact P.
    + rewrite <- Zle_Qle. subst d1 d2. lia.
  - assert (d1 = 0 /\ d2 = 0) as [-> ->] by (subst d1 d2 R; lia).
    apply Qle_refl.
Qed.

Lemma value_to_pos_keeps_order_witness :
  _value_to_pos (position_slider crowded_window)
    (_start_marker (position_slider crowded_window))
  <= _value_to_pos (position_slider crowded_window)
       (_end_marker (position_slider crowded_window)).
Proof.
  apply (value_to_pos_keeps_order (position_slider crowded_window));
    vm_compute; discriminate.
Defined.

(** The rest of [_pos_to_value] after the fraction of the track. *)
Lemma pos_to_value_tail (s : ProTrimSlider) (b1 b2 : Q) :
  (b1 <= b2)%Q ->
  Z.max (_min_val s)
    (Z.min (_max_val s)
       (Py.int (Py.add (Py.Int (_min_val s))
                  (Py.mul (Py.Float b1) (Py.Int (_max_val s - _min_val s))))))
  <= Z.max (_min_val s)
       (Z.min (_max_val s)
          (Py.int (Py.add (Py.Int (_min_val s))
                     (Py.mul (Py.Float b2) (Py.Int (_max_val s - _min_val s)))))).
Proof.
  intros H. cbn [Py.mul Py.add Py.int Py.to_float].
  destruct (Z_le_gt_dec (_min_val s) (_max_val s)) as [L | G]; [ | lia].
  apply Z.max_le_compat_l, Z.min_le_compat_l, trunc_mono, fl_mono.
  apply Qplus_le_r. apply fl_mono.
  apply Qmult_le_compat_r; [exact H | ].
  apply fl_nonneg. apply Qle_0_inject. lia.
Qed.

(** X28.  [_pos_to_value] keeps the order of pixels: of two pointer
    positions of the same Python type, the one further right never gives the
    smaller value, whatever the geometry, the range and the size of the
    numbers. *)
Theorem pos_to_value_keeps_order (s : ProTrimSlider) (pos1 pos2 : Py.num) :
  same_type pos1 pos2 ->
  (Py.value pos1 <= Py.value pos2)%Q ->
  _pos_to_value s pos1 <= _pos_to_value s pos2.
Proof.
  intros K H.
  assert (P : 0 < width s - handle_width s ->
              (0 < Py.fl (inject_Z (width s - handle_width s)))%Q
              /\ (0 < inject_Z (width s - handle_width s))%Q).
  { intros HT.
    assert (A : (inject_Z 1 <= inject_Z (width s - handle_width s))%Q)
      by (rewrite <- Zle_Qle; lia).
    pose proof (fl_ge_integer _ 1 ltac:(reflexivity) A) as B.
    change (inject_Z 1) with 1%Q in *. split; lra. }
  unfold _pos_to_value.
  destruct (Z.leb_spec (width s - handle_width s) 0) as [NT | HT]; [lia | ].
  destruct (P HT) as [P1 P2].
  destruct pos1 as [x1 | x1], pos2 as [x2 | x2]; try contradiction; cbn [Py.value] in H.
  - cbn [Py.sub Py.truediv]. apply pos_to_value_tail.
    apply fl_mono. apply Qdiv_le_pos; [exact P2 | ].
    rewrite <- Zle_Qle in *. lia.
  - cbn [Py.sub Py.truediv Py.to_float]. apply pos_to_value_tail.
    apply fl_mono. apply Qdiv_le_pos; [exact P1 | ].
    apply fl_mono. lra.
Qed.

Lemma pos_to_value_keeps_order_witness :
  _pos_to_value (ProTrimSlider_init 116) (Py.Float 36.5)
  <= _pos_to_value (ProTrimSlider_init 116) (Py.Float 36.75).
Proof.
  apply (pos_to_value_keeps_order (ProTrimSlider_init 116) (Py.Float 36.5) (Py.Float 36.75)).
  - exact I.
  - vm_compute. discriminate.
Defined.
